(** * Lease-based leader election (leaderElection.ts)

    A shallow embedding of the [LeaderElection] class: its node registry,
    its timers, the two storage backends it talks to (a MongoDB collection
    and a Redis key), and the events it broadcasts.

    Conventions of the embedding.
    - Times are integers in milliseconds ([Z]); identifiers are strings.
    - The JavaScript [Map] of nodes is an association list in insertion
      order; node objects are mutated in place and never replaced, so the
      [node] captured by a timer closure is the registry entry of its id.
    - A method is a computation in the monad [M]: it transforms the [World]
      and either returns a value or throws.
    - Everything the environment decides is an explicit argument: the value
      read from the clock, the outcome of a command sent to a server
      ([Fault]), the jitter drawn from [Math.random].
    - A command or a timer callback, with the backend replies it awaits,
      is one step.  The only asynchronous call that is not awaited,
      [this.stopElection()] in [startElection], is split at its suspension
      points; concurrent calls of [tryAcquire] are interleaved command by
      command in a model of their own.
    - [broadcast] is recorded as the sequence of payloads handed to it; the
      fan-out to the open WebSocket clients is modelled apart, on the set
      of clients ([sends]); [console.error] is not modelled. *)

From stdpp Require Import gmap strings list fin_maps.
From Stdlib Require Import ZArith Lia.

Local Open Scope string_scope.
Local Open Scope list_scope.

(** ** Constants *)

Definition LEASE_DURATION : Z := 10000.
Definition HEARTBEAT_INTERVAL : Z := 3000.

(** Delay of the follower's retry timer in [startNodeCompetition]. *)
Definition RETRY_DELAY : Z := 5000.

(** Upper bound of the competition jitter, [Math.random() * 2000]. *)
Definition JITTER_BOUND : Z := 2000.

(** ** Data model *)

Inductive Database := mongodb | redis.

Inductive Status := idle | competing | leader | follower | crashed.

Global Instance Status_eq_dec : EqDecision Status.
Proof. solve_decision. Defined.

Global Instance Database_eq_dec : EqDecision Database.
Proof. solve_decision. Defined.

(** [interface LeaderDocument]; the [_id] is the key under which the
    document is stored in the collection. *)
Record LeaderDocument := mkLeaderDocument {
  nodeId : string;
  expiresAt : Z;
  updatedAt : Z
}.

(** [interface Node].  A timer handle is the number the scheduler gave to
    the timer. *)
Record Node := mkNode {
  id : string;
  status : Status;
  lease : option Z;
  heartbeatTimer : option nat;
  competitionTimer : option nat
}.

(** A value stored in Redis, with the absolute time at which it expires. *)
Record RedisEntry := mkRedisEntry {
  value : string;
  expireAt : option Z
}.

(** A JavaScript error; drivers attach a numeric [code] to some of them. *)
Record JsError := mkJsError { err_code : option Z }.

Definition duplicateKeyError : JsError := mkJsError (Some 11000%Z).
Definition typeError : JsError := mkJsError None.

(** What happens to a command sent to a server: it completes, it is
    rejected before the server applied it, or it is applied and the reply
    is lost. *)
Inductive Fault :=
| Completes
| FailsBefore (e : JsError)
| FailsAfter (e : JsError).

(** The code run by a timer. *)
Inductive Callback :=
| CompetitionAttempt (n : string)   (* the [setTimeout(async ..., delay)] of startNodeCompetition *)
| CompetitionRetry (n : string)     (* the inner [setTimeout(..., 5000)] *)
| HeartbeatTick (n : string).       (* the [setInterval(async ..., HEARTBEAT_INTERVAL)] *)

Record Timer := mkTimer {
  callback : Callback;
  delay : Z;
  repeats : bool
}.

(** Payloads passed to [broadcast]. *)
Inductive Event :=
| ElectionStarted (database : Database)
| ElectionReset
| NodeCrashed (n : string)
| NodeUpdate (n : string) (st : Status) (l : option Z)
| LeaderElected (n : string)
| LeaderLost (n : string).

(** Commands sent to the servers. *)
Inductive Command :=
| MongoConnect | MongoClose | MongoDeleteMany
| MongoFindOneAndUpdate | MongoInsertOne | MongoDeleteOne
| RedisConnect | RedisQuit
| RedisSet | RedisGet | RedisPExpire | RedisDel.

(** The trace of backend activity: the lease primitives the engine invokes
    and the commands that reach a server. *)
Inductive BackendCall :=
| TryAcquire (db : Database) (n : string)
| Renew (db : Database) (n : string)
| Release (db : Database)
| Sent (c : Command).

(** Continuations of a [stopElection] call that is waiting for a reply. *)
Inductive Suspended :=
| StopAfterMongoClose    (* resumes after [await this.mongoClient.close()] *)
| StopAfterRedisQuit.    (* resumes after [await this.redisClient.quit()] *)

Inductive MongoClient := MongoClientHandle.
Inductive RedisClient := RedisClientHandle.
Inductive Collection := LeaderCollectionHandle.

Record World := mkWorld {
  (* private fields of LeaderElection *)
  nodes : list (string * Node);
  currentDatabase : Database;
  mongoClient : option MongoClient;
  redisClient : option RedisClient;
  leaderCollection : option Collection;
  running : bool;
  (* the event loop *)
  timers : gmap nat Timer;
  nextTimer : nat;
  suspended : list Suspended;
  (* the servers *)
  mongoServer : gmap string LeaderDocument;
  redisServer : gmap string RedisEntry;
  (* what an observer sees *)
  broadcasts : list Event;
  calls : list BackendCall
}.

Definition set_nodes x (w : World) : World :=
  mkWorld x (currentDatabase w) (mongoClient w) (redisClient w) (leaderCollection w)
    (running w) (timers w) (nextTimer w) (suspended w) (mongoServer w) (redisServer w)
    (broadcasts w) (calls w).
Definition set_currentDatabase x (w : World) : World :=
  mkWorld (nodes w) x (mongoClient w) (redisClient w) (leaderCollection w)
    (running w) (timers w) (nextTimer w) (suspended w) (mongoServer w) (redisServer w)
    (broadcasts w) (calls w).
Definition set_mongoClient x (w : World) : World :=
  mkWorld (nodes w) (currentDatabase w) x (redisClient w) (leaderCollection w)
    (running w) (timers w) (nextTimer w) (suspended w) (mongoServer w) (redisServer w)
    (broadcasts w) (calls w).
Definition set_redisClient x (w : World) : World :=
  mkWorld (nodes w) (currentDatabase w) (mongoClient w) x (leaderCollection w)
    (running w) (timers w) (nextTimer w) (suspended w) (mongoServer w) (redisServer w)
    (broadcasts w) (calls w).
Definition set_leaderCollection x (w : World) : World :=
  mkWorld (nodes w) (currentDatabase w) (mongoClient w) (redisClient w) x
    (running w) (timers w) (nextTimer w) (suspended w) (mongoServer w) (redisServer w)
    (broadcasts w) (calls w).
Definition set_running x (w : World) : World :=
  mkWorld (nodes w) (currentDatabase w) (mongoClient w) (redisClient w) (leaderCollection w)
    x (timers w) (nextTimer w) (suspended w) (mongoServer w) (redisServer w)
    (broadcasts w) (calls w).
Definition set_timers x (w : World) : World :=
  mkWorld (nodes w) (currentDatabase w) (mongoClient w) (redisClient w) (leaderCollection w)
    (running w) x (nextTimer w) (suspended w) (mongoServer w) (redisServer w)
    (broadcasts w) (calls w).
Definition set_nextTimer x (w : World) : World :=
  mkWorld (nodes w) (currentDatabase w) (mongoClient w) (redisClient w) (leaderCollection w)
    (running w) (timers w) x (suspended w) (mongoServer w) (redisServer w)
    (broadcasts w) (calls w).
Definition set_suspended x (w : World) : World :=
  mkWorld (nodes w) (currentDatabase w) (mongoClient w) (redisClient w) (leaderCollection w)
    (running w) (timers w) (nextTimer w) x (mongoServer w) (redisServer w)
    (broadcasts w) (calls w).
Definition set_mongoServer x (w : World) : World :=
  mkWorld (nodes w) (currentDatabase w) (mongoClient w) (redisClient w) (leaderCollection w)
    (running w) (timers w) (nextTimer w) (suspended w) x (redisServer w)
    (broadcasts w) (calls w).
Definition set_redisServer x (w : World) : World :=
  mkWorld (nodes w) (currentDatabase w) (mongoClient w) (redisClient w) (leaderCollection w)
    (running w) (timers w) (nextTimer w) (suspended w) (mongoServer w) x
    (broadcasts w) (calls w).
Definition set_broadcasts x (w : World) : World :=
  mkWorld (nodes w) (currentDatabase w) (mongoClient w) (redisClient w) (leaderCollection w)
    (running w) (timers w) (nextTimer w) (suspended w) (mongoServer w) (redisServer w)
    x (calls w).
Definition set_calls x (w : World) : World :=
  mkWorld (nodes w) (currentDatabase w) (mongoClient w) (redisClient w) (leaderCollection w)
    (running w) (timers w) (nextTimer w) (suspended w) (mongoServer w) (redisServer w)
    (broadcasts w) x.

(** ** The monad of methods: state and exceptions *)

Inductive Outcome (A : Type) :=
| Returns (a : A)
| Throws (e : JsError).
Arguments Returns {A} a.
Arguments Throws {A} e.

Definition M (A : Type) : Type := World -> Outcome A * World.

Definition ret {A} (a : A) : M A := fun w => (Returns a, w).
Definition throw {A} (e : JsError) : M A := fun w => (Throws e, w).
Definition bind {A B} (c : M A) (k : A -> M B) : M B :=
  fun w => match c w with
           | (Returns a, w') => k a w'
           | (Throws e, w') => (Throws e, w')
           end.
(** [try { c } catch (e) { h e }] *)
Definition try_catch {A} (c : M A) (h : JsError -> M A) : M A :=
  fun w => match c w with
           | (Returns a, w') => (Returns a, w')
           | (Throws e, w') => h e w'
           end.
Definition gets {A} (f : World -> A) : M A := fun w => (Returns (f w), w).
Definition modify (f : World -> World) : M unit := fun w => (Returns tt, f w).

Notation "x <- c ;; k" := (bind c (fun x => k))
  (at level 100, c at next level, right associativity).
Notation "c ;; k" := (bind c (fun _ => k))
  (at level 100, right associativity).

(** The world a method leaves behind, whatever its outcome. *)
Definition exec {A} (c : M A) (w : World) : World := snd (c w).
Definition outcome {A} (c : M A) (w : World) : Outcome A := fst (c w).

(** ** The registry *)

Fixpoint get (k : string) (m : list (string * Node)) : option Node :=
  match m with
  | [] => None
  | (k', n) :: m' => if decide (k' = k) then Some n else get k m'
  end.

(** In-place mutation of the node stored under [k]. *)
Fixpoint mutate (k : string) (f : Node -> Node) (m : list (string * Node))
  : list (string * Node) :=
  match m with
  | [] => []
  | (k', n) :: m' =>
      if decide (k' = k) then (k', f n) :: m' else (k', n) :: mutate k f m'
  end.

Definition with_status (s : Status) (n : Node) : Node :=
  mkNode (id n) s (lease n) (heartbeatTimer n) (competitionTimer n).
Definition with_lease (l : option Z) (n : Node) : Node :=
  mkNode (id n) (status n) l (heartbeatTimer n) (competitionTimer n).
Definition with_heartbeatTimer (t : option nat) (n : Node) : Node :=
  mkNode (id n) (status n) (lease n) t (competitionTimer n).
Definition with_competitionTimer (t : option nat) (n : Node) : Node :=
  mkNode (id n) (status n) (lease n) (heartbeatTimer n) t.

Definition mutate_node (k : string) (f : Node -> Node) : M unit :=
  modify (fun w => set_nodes (mutate k f (nodes w)) w).

(** ** The event loop: timers *)

Definition schedule (cb : Callback) (d : Z) (rep : bool) : M nat :=
  fun w =>
    let t := nextTimer w in
    (Returns t, set_nextTimer (S t) (set_timers (<[t := mkTimer cb d rep]> (timers w)) w)).

Definition setTimeout (cb : Callback) (d : Z) : M nat := schedule cb d false.
Definition setInterval (cb : Callback) (d : Z) : M nat := schedule cb d true.

(** [if (h) clearTimeout(h)], the same for [clearInterval]. *)
Definition clearTimer (h : option nat) : M unit :=
  match h with
  | Some t => modify (fun w => set_timers (delete t (timers w)) w)
  | None => ret tt
  end.

(** ** The event sink *)

Definition broadcast (e : Event) : M unit :=
  modify (fun w => set_broadcasts (broadcasts w ++ [e]) w).

Definition record_call (c : BackendCall) : M unit :=
  modify (fun w => set_calls (calls w ++ [c]) w).

(** ** The servers *)

(** *** The MongoDB collection [leaderelection.leader]

    Documents are stored under their [_id], which is unique. *)

(** [findOneAndUpdate({_id, ...filter}, update, {returnDocument: 'after'})]:
    the stored document is updated when it satisfies the filter, and the
    updated document is returned; there is no upsert. *)
Definition findOneAndUpdate (_id : string) (filter : LeaderDocument -> bool)
    (update : LeaderDocument -> LeaderDocument)
    (coll : gmap string LeaderDocument)
  : Outcome (option LeaderDocument) * gmap string LeaderDocument :=
  match coll !! _id with
  | Some d =>
      if filter d then (Returns (Some (update d)), <[_id := update d]> coll)
      else (Returns None, coll)
  | None => (Returns None, coll)
  end.

(** [insertOne]: a second document with the same [_id] is refused with the
    duplicate-key error, code 11000. *)
Definition insertOne (_id : string) (d : LeaderDocument)
    (coll : gmap string LeaderDocument)
  : Outcome unit * gmap string LeaderDocument :=
  match coll !! _id with
  | Some _ => (Throws duplicateKeyError, coll)
  | None => (Returns tt, <[_id := d]> coll)
  end.

Definition deleteOne (_id : string) (coll : gmap string LeaderDocument)
  : Outcome unit * gmap string LeaderDocument :=
  (Returns tt, delete _id coll).

Definition deleteMany (coll : gmap string LeaderDocument)
  : Outcome unit * gmap string LeaderDocument :=
  (Returns tt, ∅).

(** *** The Redis keyspace

    A key whose expiry time has passed is not there any more. [now] is the
    server's clock when the command runs. *)
Definition redis_live (now : Z) (e : RedisEntry) : bool :=
  match expireAt e with
  | Some t => bool_decide (now < t)%Z
  | None => true
  end.

Definition redis_lookup (now : Z) (key : string) (db : gmap string RedisEntry)
  : option RedisEntry :=
  match db !! key with
  | Some e => if redis_live now e then Some e else None
  | None => None
  end.

(** [SET key v NX PX px]: replies OK when the key was set, null otherwise. *)
Definition redis_set_nx_px (now : Z) (key v : string) (px : Z)
    (db : gmap string RedisEntry)
  : Outcome (option string) * gmap string RedisEntry :=
  match redis_lookup now key db with
  | Some _ => (Returns None, db)
  | None => (Returns (Some "OK"), <[key := mkRedisEntry v (Some (now + px)%Z)]> db)
  end.

Definition redis_get (now : Z) (key : string) (db : gmap string RedisEntry)
  : Outcome (option string) * gmap string RedisEntry :=
  (Returns (value <$> redis_lookup now key db), db).

(** [PEXPIRE key px]: sets the time to live of an existing key. *)
Definition redis_pexpire (now : Z) (key : string) (px : Z)
    (db : gmap string RedisEntry)
  : Outcome bool * gmap string RedisEntry :=
  match redis_lookup now key db with
  | Some e => (Returns true, <[key := mkRedisEntry (value e) (Some (now + px)%Z)]> db)
  | None => (Returns false, db)
  end.

Definition redis_del (key : string) (db : gmap string RedisEntry)
  : Outcome unit * gmap string RedisEntry :=
  (Returns tt, delete key db).

(** *** Sending a command

    [send c f proj inj op during] sends command [c], whose effect on the
    server state is [op]; [during] is what the event loop runs while the
    reply is awaited; [f] is what the network does to the command. *)
Definition send_while {S A} (c : Command) (f : Fault)
    (proj : World -> S) (inj : S -> World -> World)
    (op : S -> Outcome A * S) (during : M unit) : M A :=
  record_call (Sent c) ;;
  during ;;
  fun w =>
    match f with
    | Completes => let r := op (proj w) in (fst r, inj (snd r) w)
    | FailsBefore e => (Throws e, w)
    | FailsAfter e => (Throws e, inj (snd (op (proj w))) w)
    end.

Definition send {S A} (c : Command) (f : Fault)
    (proj : World -> S) (inj : S -> World -> World)
    (op : S -> Outcome A * S) : M A :=
  send_while c f proj inj op (ret tt).

Definition mongo {A} (c : Command) (f : Fault)
    (op : gmap string LeaderDocument -> Outcome A * gmap string LeaderDocument) : M A :=
  send c f mongoServer set_mongoServer op.

Definition redis_cmd {A} (c : Command) (f : Fault)
    (op : gmap string RedisEntry -> Outcome A * gmap string RedisEntry) : M A :=
  send c f redisServer set_redisServer op.

(** ** The lease primitives *)

(** The filter of [tryAcquireMongoLeadership]:
    [$or: [{expiresAt: {$lt: now}}, {expiresAt: {$exists: false}}]].
    Every [LeaderDocument] has an [expiresAt], so the second disjunct never
    holds. *)
Definition lease_expired (now : Z) (d : LeaderDocument) : bool :=
  bool_decide (expiresAt d < now)%Z || false.

Definition owned_by (n : string) (d : LeaderDocument) : bool :=
  bool_decide (nodeId d = n).

Definition tryAcquireMongoLeadership (n : string) (now : Z) (f1 f2 : Fault) : M bool :=
  record_call (TryAcquire mongodb n) ;;
  coll <- gets leaderCollection ;;
  match coll with
  | None => ret false
  | Some _ =>
      try_catch
        (let expiresAt := (now + LEASE_DURATION)%Z in
         result <- mongo MongoFindOneAndUpdate f1
                     (findOneAndUpdate "current-leader" (lease_expired now)
                        (fun _ => mkLeaderDocument n expiresAt now)) ;;
         match result with
         | None =>
             try_catch
               (mongo MongoInsertOne f2
                  (insertOne "current-leader" (mkLeaderDocument n expiresAt now)) ;;
                ret true)
               (fun insertError =>
                  if decide (err_code insertError = Some 11000%Z) then ret false
                  else throw insertError)
         | Some v => ret (bool_decide (nodeId v = n))
         end)
        (fun _ => ret false)
  end.

Definition tryAcquireRedisLeadership (n : string) (now : Z) (f : Fault) : M bool :=
  record_call (TryAcquire redis n) ;;
  client <- gets redisClient ;;
  match client with
  | None => ret false
  | Some _ =>
      try_catch
        (result <- redis_cmd RedisSet f (redis_set_nx_px now "leader" n LEASE_DURATION) ;;
         ret (bool_decide (result = Some "OK")))
        (fun _ => ret false)
  end.

Definition renewMongoLease (n : string) (now : Z) (f : Fault) : M bool :=
  record_call (Renew mongodb n) ;;
  coll <- gets leaderCollection ;;
  match coll with
  | None => ret false
  | Some _ =>
      try_catch
        (let expiresAt := (now + LEASE_DURATION)%Z in
         result <- mongo MongoFindOneAndUpdate f
                     (findOneAndUpdate "current-leader" (owned_by n)
                        (fun d => mkLeaderDocument (nodeId d) expiresAt now)) ;;
         ret (bool_decide (nodeId <$> result = Some n)))
        (fun _ => ret false)
  end.

(** [now1] and [now2] are the server's clock at the GET and at the PEXPIRE:
    the renewal is two commands. *)
Definition renewRedisLease (n : string) (now1 now2 : Z) (f1 f2 : Fault) : M bool :=
  record_call (Renew redis n) ;;
  client <- gets redisClient ;;
  match client with
  | None => ret false
  | Some _ =>
      try_catch
        (currentLeader <- redis_cmd RedisGet f1 (redis_get now1 "leader") ;;
         if decide (currentLeader = Some n) then
           redis_cmd RedisPExpire f2 (redis_pexpire now2 "leader" LEASE_DURATION) ;;
           ret true
         else ret false)
        (fun _ => ret false)
  end.

Definition releaseMongoLock (f : Fault) : M unit :=
  record_call (Release mongodb) ;;
  coll <- gets leaderCollection ;;
  match coll with
  | None => ret tt
  | Some _ =>
      try_catch (mongo MongoDeleteOne f (deleteOne "current-leader"))
                (fun _ => ret tt)
  end.

Definition releaseRedisLock (f : Fault) : M unit :=
  record_call (Release redis) ;;
  client <- gets redisClient ;;
  match client with
  | None => ret tt
  | Some _ =>
      try_catch (redis_cmd RedisDel f (redis_del "leader"))
                (fun _ => ret tt)
  end.

(** The dispatch on [this.currentDatabase] written at each call site. *)
Definition tryAcquire (db : Database) (n : string) (now : Z) (f1 f2 : Fault) : M bool :=
  match db with
  | mongodb => tryAcquireMongoLeadership n now f1 f2
  | redis => tryAcquireRedisLeadership n now f1
  end.

Definition renew (db : Database) (n : string) (now1 now2 : Z) (f1 f2 : Fault) : M bool :=
  match db with
  | mongodb => renewMongoLease n now1 f1
  | redis => renewRedisLease n now1 now2 f1 f2
  end.

Definition release (db : Database) (f : Fault) : M unit :=
  match db with
  | mongodb => releaseMongoLock f
  | redis => releaseRedisLock f
  end.

(** ** The election engine *)

(** What the environment decides during one timer callback. *)
Record Oracle := mkOracle {
  now1 : Z;        (* clock at the primitive's first command: [Date.now()] in the
                      MongoDB primitives, the server's clock for Redis *)
  now2 : Z;        (* the Redis server's clock at the PEXPIRE of a renewal *)
  now3 : Z;        (* [Date.now()] read by the engine once the primitive returned *)
  fault1 : Fault;  (* fate of the primitive's first command *)
  fault2 : Fault;  (* fate of its second command *)
  jitter : Z       (* [Math.random() * 2000] *)
}.

(** What the environment decides during [startElection]. *)
Record StartOracle := mkStartOracle {
  connect_fault : Fault;     (* fate of [connect()] *)
  clear_fault : Fault;       (* fate of [deleteMany({})] or [del('leader')] *)
  resumed_in_connect : nat;  (* suspended continuations resumed while connect is awaited *)
  resumed_in_clear : nat;    (* the same while the clearing command is awaited *)
  jitters : nat -> Z         (* [Math.random() * 2000] of the k-th node visited *)
}.

Definition node_of (n : string) : M (option Node) :=
  gets (fun w => get n (nodes w)).

(** A field of the node object, read from the registry; the closures hold
    a node that exists. *)
Definition field {A} (n : string) (f : Node -> option A) : M (option A) :=
  gets (fun w => match get n (nodes w) with Some node => f node | None => None end).

Definition startNodeCompetition (n : string) (jitter : Z) : M unit :=
  node <- node_of n ;;
  match node with
  | None => ret tt
  | Some node =>
      if decide (status node = crashed) then ret tt
      else
        mutate_node n (with_status competing) ;;
        broadcast (NodeUpdate n competing None) ;;
        t <- setTimeout (CompetitionAttempt n) jitter ;;
        mutate_node n (with_competitionTimer (Some t))
  end.

Definition startHeartbeat (n : string) : M unit :=
  node <- node_of n ;;
  match node with
  | None => ret tt
  | Some _ =>
      t <- setInterval (HeartbeatTick n) HEARTBEAT_INTERVAL ;;
      mutate_node n (with_heartbeatTimer (Some t))
  end.

(** The callback of the competition timer. *)
Definition competitionAttempt (n : string) (o : Oracle) : M unit :=
  r <- gets running ;;
  node <- node_of n ;;
  match node with
  | None => ret tt
  | Some node =>
      if negb r || bool_decide (status node = crashed) then ret tt
      else
        db <- gets currentDatabase ;;
        acquired <- tryAcquire db n (now1 o) (fault1 o) (fault2 o) ;;
        if acquired : bool then
          mutate_node n (with_status leader) ;;
          mutate_node n (with_lease (Some (now3 o + LEASE_DURATION)%Z)) ;;
          l <- field n lease ;;
          broadcast (NodeUpdate n leader l) ;;
          broadcast (LeaderElected n) ;;
          startHeartbeat n
        else
          mutate_node n (with_status follower) ;;
          broadcast (NodeUpdate n follower None) ;;
          t <- setTimeout (CompetitionRetry n) RETRY_DELAY ;;
          mutate_node n (with_competitionTimer (Some t))
  end.

(** The callback of the retry timer. *)
Definition competitionRetry (n : string) (jitter : Z) : M unit :=
  r <- gets running ;;
  node <- node_of n ;;
  match node with
  | None => ret tt
  | Some node =>
      if r && negb (bool_decide (status node = crashed))
      then startNodeCompetition n jitter
      else ret tt
  end.

(** The callback of the heartbeat interval. *)
Definition heartbeatTick (n : string) (o : Oracle) : M unit :=
  r <- gets running ;;
  node <- node_of n ;;
  match node with
  | None => ret tt
  | Some node =>
      if negb r || bool_decide (status node = crashed)
         || negb (bool_decide (status node = leader))
      then clearTimer (heartbeatTimer node)
      else
        db <- gets currentDatabase ;;
        renewed <- renew db n (now1 o) (now2 o) (fault1 o) (fault2 o) ;;
        if renewed : bool then
          mutate_node n (with_lease (Some (now3 o + LEASE_DURATION)%Z)) ;;
          l <- field n lease ;;
          broadcast (NodeUpdate n leader l)
        else
          mutate_node n (with_status follower) ;;
          mutate_node n (with_lease None) ;;
          h <- field n heartbeatTimer ;;
          clearTimer h ;;
          mutate_node n (with_heartbeatTimer None) ;;
          broadcast (LeaderLost n) ;;
          broadcast (NodeUpdate n follower None) ;;
          startNodeCompetition n (jitter o)
  end.

(** The timer with handle [t] expires.  A cleared timer does nothing; a
    timeout runs once, an interval stays armed. *)
Definition fire (t : nat) (o : Oracle) : M unit :=
  tm <- gets (fun w => timers w !! t) ;;
  match tm with
  | None => ret tt
  | Some timer =>
      (if repeats timer then ret tt
       else modify (fun w => set_timers (delete t (timers w)) w)) ;;
      match callback timer with
      | CompetitionAttempt n => competitionAttempt n o
      | CompetitionRetry n => competitionRetry n (jitter o)
      | HeartbeatTick n => heartbeatTick n o
      end
  end.

(** *** stopElection

    The method suspends at [await this.mongoClient.close()] and at
    [await this.redisClient.quit()]; both commands are taken to complete.
    [stopElection_begin] is the code up to the first suspension and returns
    the continuation that is left, [resume_stop] runs a continuation up to
    the next suspension. *)

Definition clear_node_timers (n : string) : M unit :=
  h <- field n heartbeatTimer ;;
  clearTimer h ;;
  c <- field n competitionTimer ;;
  clearTimer c ;;
  mutate_node n (with_heartbeatTimer None) ;;
  mutate_node n (with_competitionTimer None).

Fixpoint for_each {A} (l : list A) (body : A -> M unit) : M unit :=
  match l with
  | [] => ret tt
  | x :: l' => body x ;; for_each l' body
  end.

Definition keys : M (list string) := gets (fun w => (nodes w).*1).

Definition stop_redis_begin : M (option Suspended) :=
  client <- gets redisClient ;;
  match client with
  | Some _ => record_call (Sent RedisQuit) ;; ret (Some StopAfterRedisQuit)
  | None => ret None
  end.

Definition stopElection_begin : M (option Suspended) :=
  modify (set_running false) ;;
  ks <- keys ;;
  for_each ks clear_node_timers ;;
  client <- gets mongoClient ;;
  match client with
  | Some _ => record_call (Sent MongoClose) ;; ret (Some StopAfterMongoClose)
  | None => stop_redis_begin
  end.

Definition resume_stop (k : Suspended) : M (option Suspended) :=
  match k with
  | StopAfterMongoClose =>
      modify (set_mongoClient None) ;;
      modify (set_leaderCollection None) ;;
      stop_redis_begin
  | StopAfterRedisQuit =>
      modify (set_redisClient None) ;;
      ret None
  end.

(** [await this.stopElection()]: the method runs to its end. *)
Definition stopElection : M unit :=
  k <- stopElection_begin ;;
  match k with
  | None => ret tt
  | Some k1 =>
      k' <- resume_stop k1 ;;
      match k' with
      | None => ret tt
      | Some k2 => resume_stop k2 ;; ret tt
      end
  end.

(** The reply awaited by the oldest suspended continuation arrives. *)
Definition resume : M unit :=
  s <- gets suspended ;;
  match s with
  | [] => ret tt
  | k :: rest =>
      modify (set_suspended rest) ;;
      k' <- resume_stop k ;;
      match k' with
      | None => ret tt
      | Some k2 => modify (fun w => set_suspended (suspended w ++ [k2]) w)
      end
  end.

Fixpoint resume_n (n : nat) : M unit :=
  match n with
  | O => ret tt
  | S n' => resume ;; resume_n n'
  end.

Definition reply (f : Fault) : M unit :=
  match f with
  | Completes => ret tt
  | FailsBefore e | FailsAfter e => throw e
  end.

Definition initMongo (so : StartOracle) : M unit :=
  modify (set_mongoClient (Some MongoClientHandle)) ;;
  record_call (Sent MongoConnect) ;;
  resume_n (resumed_in_connect so) ;;
  reply (connect_fault so) ;;
  client <- gets mongoClient ;;
  match client with
  | None => throw typeError           (* [this.mongoClient.db] on null *)
  | Some _ =>
      modify (set_leaderCollection (Some LeaderCollectionHandle)) ;;
      send_while MongoDeleteMany (clear_fault so) mongoServer set_mongoServer
        deleteMany (resume_n (resumed_in_clear so))
  end.

Definition initRedis (so : StartOracle) : M unit :=
  modify (set_redisClient (Some RedisClientHandle)) ;;
  record_call (Sent RedisConnect) ;;
  resume_n (resumed_in_connect so) ;;
  reply (connect_fault so) ;;
  client <- gets redisClient ;;
  match client with
  | None => throw typeError           (* [this.redisClient.del] on null *)
  | Some _ =>
      send_while RedisDel (clear_fault so) redisServer set_redisServer
        (redis_del "leader") (resume_n (resumed_in_clear so))
  end.

Fixpoint start_nodes (ns : list (string * Node)) (k : nat) (jitters : nat -> Z) : M unit :=
  match ns with
  | [] => ret tt
  | (n, _) :: ns' =>
      node <- node_of n ;;
      match node with
      | Some node =>
          if decide (status node = crashed) then start_nodes ns' k jitters
          else startNodeCompetition n (jitters k) ;; start_nodes ns' (S k) jitters
      | None => start_nodes ns' k jitters
      end
  end.

Definition startElection (database : Database) (so : StartOracle) : M unit :=
  r <- gets running ;;
  (if r : bool then
     (* [this.stopElection()] without await: it runs to its first
        suspension, the rest is resumed by the event loop *)
     k <- stopElection_begin ;;
     match k with
     | Some k1 => modify (fun w => set_suspended (suspended w ++ [k1]) w)
     | None => ret tt
     end
   else ret tt) ;;
  modify (set_currentDatabase database) ;;
  modify (set_running true) ;;
  match database with
  | mongodb => initMongo so
  | redis => initRedis so
  end ;;
  broadcast (ElectionStarted database) ;;
  ns <- gets nodes ;;
  start_nodes ns 0 (jitters so).

Definition reset_node (n : string) : M unit :=
  mutate_node n (with_status idle) ;;
  mutate_node n (with_lease None).

Definition resetElection : M unit :=
  stopElection ;;
  ks <- keys ;;
  for_each ks reset_node ;;
  broadcast ElectionReset.

Definition crashNode (n : string) (f : Fault) : M unit :=
  node <- node_of n ;;
  match node with
  | None => ret tt
  | Some node =>
      if decide (status node = crashed) then ret tt
      else
        let wasLeader := bool_decide (status node = leader) in
        clearTimer (heartbeatTimer node) ;;
        clearTimer (competitionTimer node) ;;
        mutate_node n (with_heartbeatTimer None) ;;
        mutate_node n (with_competitionTimer None) ;;
        mutate_node n (with_status crashed) ;;
        mutate_node n (with_lease None) ;;
        broadcast (NodeCrashed n) ;;
        if wasLeader then
          db <- gets currentDatabase ;;
          release db f ;;
          broadcast (LeaderLost n)
        else ret tt
  end.

(** The world built by the constructor, in front of the given servers. *)
Definition fresh_node (n : string) : string * Node :=
  (n, mkNode n idle None None None).

Definition initial (m : gmap string LeaderDocument) (r : gmap string RedisEntry) : World :=
  mkWorld (fresh_node <$> ["node-1"; "node-2"; "node-3"; "node-4"; "node-5"])
    mongodb None None None false ∅ 0 [] m r [] [].

(** What can happen to the engine: a command, a timer that expires, a
    suspended continuation that resumes. *)
Inductive Input :=
| StartElection (database : Database) (so : StartOracle)
| StopElection
| ResetElection
| CrashNode (n : string) (f : Fault)
| Fire (t : nat) (o : Oracle)
| Resume.

Definition step (i : Input) : M unit :=
  match i with
  | StartElection database so => startElection database so
  | StopElection => stopElection
  | ResetElection => resetElection
  | CrashNode n f => crashNode n f
  | Fire t o => fire t o
  | Resume => resume
  end.

(** A rejected command is logged by its caller; the engine carries on. *)
Definition run (trace : list Input) (w : World) : World :=
  foldl (fun w i => exec (step i) w) w trace.

(** ** Concurrent acquisitions

    Several callbacks can be suspended inside [tryAcquire] at the same
    time.  Each command is atomic on its server; between two commands of
    one call, commands of other calls may run.  A call is modelled by the
    point it has reached; the handlers are those of the primitives. *)

Inductive Progress :=
| Calling                (* the first command has not run yet *)
| Inserting              (* MongoDB: the update matched nothing, the insert has not run yet *)
| Returned (b : bool).

Record Caller := mkCaller {
  who : string;          (* the [nodeId] argument *)
  clock : Z;             (* [Date.now()] read on entry; for Redis, the server's
                            clock when the SET runs *)
  progress : Progress
}.

(** The servers, as far as the race sees them. *)
Definition Servers : Type := gmap string LeaderDocument * gmap string RedisEntry.

(** The result of a command that was sent, as the caller sees it, and the
    state it leaves on the server. *)
Definition deliver {S A} (f : Fault) (op : S -> Outcome A * S) (s : S) : Outcome A * S :=
  match f with
  | Completes => op s
  | FailsBefore e => (Throws e, s)
  | FailsAfter e => (Throws e, snd (op s))
  end.

Definition mongo_step (c : Caller) (f : Fault) (coll : gmap string LeaderDocument)
  : Progress * gmap string LeaderDocument :=
  let doc := mkLeaderDocument (who c) (clock c + LEASE_DURATION) (clock c) in
  match progress c with
  | Calling =>
      let r := deliver f (findOneAndUpdate "current-leader" (lease_expired (clock c))
                            (fun _ => doc)) coll in
      (match fst r with
       | Returns (Some v) => Returned (bool_decide (nodeId v = who c))
       | Returns None => Inserting
       | Throws _ => Returned false          (* the outer catch *)
       end, snd r)
  | Inserting =>
      let r := deliver f (insertOne "current-leader" doc) coll in
      (match fst r with
       | Returns _ => Returned true
       | Throws _ => Returned false          (* code 11000, or rethrown and caught *)
       end, snd r)
  | Returned b => (Returned b, coll)
  end.

Definition redis_step (c : Caller) (f : Fault) (db : gmap string RedisEntry)
  : Progress * gmap string RedisEntry :=
  match progress c with
  | Calling =>
      let r := deliver f (redis_set_nx_px (clock c) "leader" (who c) LEASE_DURATION) db in
      (match fst r with
       | Returns result => Returned (bool_decide (result = Some "OK"))
       | Throws _ => Returned false
       end, snd r)
  | Inserting => (Inserting, db)
  | Returned b => (Returned b, db)
  end.

Definition caller_step (db : Database) (c : Caller) (f : Fault) (s : Servers)
  : Caller * Servers :=
  match db with
  | mongodb =>
      let r := mongo_step c f (fst s) in
      (mkCaller (who c) (clock c) (fst r), (snd r, snd s))
  | redis =>
      let r := redis_step c f (snd s) in
      (mkCaller (who c) (clock c) (fst r), (fst s, snd r))
  end.

(** The [i]-th call runs its next command, which meets [f]. *)
Definition race_step (db : Database) (cs : list Caller * Servers) (x : nat * Fault)
  : list Caller * Servers :=
  match fst cs !! fst x with
  | Some c =>
      let r := caller_step db c (snd x) (snd cs) in
      (<[fst x := fst r]> (fst cs), snd r)
  | None => cs
  end.

Definition race (db : Database) (sched : list (nat * Fault)) (cs : list Caller * Servers)
  : list Caller * Servers :=
  foldl (race_step db) cs sched.

Definition enter (req : string * Z) : Caller := mkCaller (fst req) (snd req) Calling.

Definition won (c : Caller) : bool :=
  match progress c with Returned true => true | _ => false end.

Definition winners (cs : list Caller) : list Caller := filter (fun c => won c = true) cs.

(** The calls race: no clock reading is a lease duration or more after
    another. *)
Definition within_a_lease (cs : list Caller) : Prop :=
  forall c c', c ∈ cs -> c' ∈ cs -> (clock c' < clock c + LEASE_DURATION)%Z.

Definition wins (cs : list Caller) : nat := length (winners cs).

(** * Vocabulary of the statements *)

(** ** C3: acquisition on the conditional-write backend *)

(** No lease record is stored, or the stored one expired before [now]. *)
Definition record_free (now : Z) (coll : gmap string LeaderDocument) : Prop :=
  match coll !! "current-leader" with
  | None => True
  | Some d => (expiresAt d < now)%Z
  end.

Global Instance record_free_dec now coll : Decision (record_free now coll).
Proof. unfold record_free. destruct (coll !! "current-leader"); apply _. Defined.

(** The commands a fault-free acquisition sends when its conditional update
    matches nothing. *)
Definition insert_path (n : string) : list BackendCall :=
  [TryAcquire mongodb n; Sent MongoFindOneAndUpdate; Sent MongoInsertOne].

(** ** C4: renewal *)


(** The value of the key, if it has not expired at [now]. *)
Definition redis_owner (now : Z) (db : gmap string RedisEntry) : option string :=
  value <$> redis_lookup now "leader" db.

(** An engine connected to both servers, the lease held by node-1 until
    10000. *)
Definition held_by_node1 : World :=
  set_redisClient (Some RedisClientHandle)
    (set_leaderCollection (Some LeaderCollectionHandle)
       (initial {["current-leader" := mkLeaderDocument "node-1" 10000 0]}
                {["leader" := mkRedisEntry "node-1" (Some 10000%Z)]})).

(** ** C7: errors inside the primitives *)

(** The command met an error, before or after the server applied it. *)
Definition raised (f : Fault) : Prop := f <> Completes.

(** Command [c] was sent while [m] ran from [w]. *)
Definition sent_during {A} (c : Command) (m : M A) (w : World) : Prop :=
  Sent c ∈ drop (length (calls w)) (calls (snd (m w))).

(** What the engine keeps in memory and shows: the primitives do not touch
    it. *)
Definition engine_view (w : World)
  : list (string * Node) * gmap nat Timer * nat * list Event * bool * Database :=
  (nodes w, timers w, nextTimer w, broadcasts w, running w, currentDatabase w).

(** What the engine shows after a competition attempt that was told
    "not acquired": the node is a follower and waits [RETRY_DELAY]. *)
Definition lost_view (n : string) (w : World)
  : list (string * Node) * gmap nat Timer * nat * list Event * bool * Database :=
  (mutate n (with_competitionTimer (Some (nextTimer w)))
     (mutate n (with_status follower) (nodes w)),
   <[nextTimer w := mkTimer (CompetitionRetry n) RETRY_DELAY false]> (timers w),
   S (nextTimer w),
   broadcasts w ++ [NodeUpdate n follower None],
   running w,
   currentDatabase w).

(** The server is unreachable: the first command is rejected. *)
Definition unreachable : Oracle :=
  mkOracle 0 0 0 (FailsBefore typeError) Completes 0.

(** A running election on MongoDB, nobody elected yet. *)
Definition running_on_mongo : World :=
  set_running true
    (set_mongoClient (Some MongoClientHandle)
       (set_leaderCollection (Some LeaderCollectionHandle) (initial ∅ ∅))).

(** ** stopElection and resetElection *)

(** A node without pending timers, as [stopElection] leaves it. *)
Definition no_timers (node : Node) : Prop :=
  heartbeatTimer node = None /\ competitionTimer node = None.

(** A node as [resetElection] leaves it. *)
Definition is_reset (node : Node) : Prop :=
  status node = idle /\ lease node = None /\ no_timers node.

(** The commands [stopElection] sends: one per open client. *)
Definition closing_calls (w : World) : list BackendCall :=
  match mongoClient w with Some _ => [Sent MongoClose] | None => [] end
  ++ match redisClient w with Some _ => [Sent RedisQuit] | None => [] end.

(** [w'] differs from [w] at most in the registry and the armed timers. *)
Definition same_outside_registry (w w' : World) : Prop :=
  set_timers (timers w) (set_nodes (nodes w) w') = w.

(** The loop invariant of [stopElection]: the nodes already visited have no
    timers; statuses and leases are those of the start. *)
Definition timers_cleared (w0 : World) (seen : list string) (w : World) : Prop :=
  same_outside_registry w0 w
  /\ (nodes w).*1 = (nodes w0).*1
  /\ (forall k node, k ∈ seen -> get k (nodes w) = Some node -> no_timers node)
  /\ (forall k, status <$> get k (nodes w) = status <$> get k (nodes w0))
  /\ (forall k, lease <$> get k (nodes w) = lease <$> get k (nodes w0)).

(** The loop invariant of [resetElection]: no node has a timer, the nodes
    already visited are idle without a lease. *)
Definition nodes_reset (w0 : World) (seen : list string) (w : World) : Prop :=
  same_outside_registry w0 w
  /\ (nodes w).*1 = (nodes w0).*1
  /\ (forall k node, get k (nodes w) = Some node -> no_timers node)
  /\ (forall k node, k ∈ seen -> get k (nodes w) = Some node ->
      status node = idle /\ lease node = None).


(** ** C9: no connection *)







(** ** C8: resetElection twice *)

(** The claim as it is worded: with no election running, two calls in a
    row leave exactly the election-reset event of the first call. *)
Definition second_reset_is_silent (w : World) : Prop :=
  running w = false ->
  broadcasts (run [ResetElection; ResetElection] w)
  = broadcasts w ++ [ElectionReset].

(** ** C10 and C5: crashNode *)

(** The registry entry of a node when [crashNode] is done with it. *)
Definition crashed_node (node : Node) : Node :=
  mkNode (id node) crashed None None None.

(** The timers still armed once the two handles of a node are cleared. *)
Definition cancel (h : option nat) (tm : gmap nat Timer) : gmap nat Timer :=
  match h with
  | Some t => delete t tm
  | None => tm
  end.

(** The part of [crashNode] that precedes the release of the lock. *)
Definition crash_local (n : string) (node : Node) (w : World) : World :=
  set_broadcasts (broadcasts w ++ [NodeCrashed n])
    (set_nodes (mutate n crashed_node (nodes w))
       (set_timers (cancel (competitionTimer node)
                      (cancel (heartbeatTimer node) (timers w))) w)).

(** What [release] adds to the trace of backend activity: the invocation,
    and the delete command when the connection is there. *)
Definition release_calls (db : Database) (w : World) : list BackendCall :=
  Release db ::
  match db with
  | mongodb =>
      match leaderCollection w with Some _ => [Sent MongoDeleteOne] | None => [] end
  | redis =>
      match redisClient w with Some _ => [Sent RedisDel] | None => [] end
  end.

(** The elected leader of a running election on MongoDB, heartbeat armed as
    timer 7. *)
Definition node1_leads : World :=
  set_timers {[7%nat := mkTimer (HeartbeatTick "node-1") HEARTBEAT_INTERVAL true]}
    (set_nextTimer 8
       (set_nodes
          (mutate "node-1"
             (fun node => mkNode (id node) leader (Some 10000%Z) (Some 7%nat) None)
             (nodes running_on_mongo))
          (set_mongoServer {["current-leader" := mkLeaderDocument "node-1" 10000 0]}
             running_on_mongo))).

(** ** startNodeCompetition *)

(** The registry entry of a node that starts to compete; the lease field is
    not written. *)
Definition competing_node (t : nat) (node : Node) : Node :=
  mkNode (id node) competing (lease node) (heartbeatTimer node) (Some t).

(** The world [startNodeCompetition] leaves for a registered node that is
    not crashed. *)
Definition competing_world (n : string) (j : Z) (w : World) : World :=
  set_nodes (mutate n (competing_node (nextTimer w)) (nodes w))
    (set_nextTimer (S (nextTimer w))
       (set_timers
          (<[nextTimer w := mkTimer (CompetitionAttempt n) j false]> (timers w))
          (set_broadcasts (broadcasts w ++ [NodeUpdate n competing None]) w))).

(** ** C6: a heartbeat that is not renewed *)

(** The registry entry of a leader that lost its lease, before it competes
    again. *)
Definition demoted_node (node : Node) : Node :=
  mkNode (id node) follower None None (competitionTimer node).

(** The world between the two broadcasts of the failure branch and the call
    of [startNodeCompetition]; [w1] is the world the renewal left. *)
Definition demoted (n : string) (node : Node) (w1 : World) : World :=
  set_broadcasts (broadcasts w1 ++ [LeaderLost n; NodeUpdate n follower None])
    (set_nodes (mutate n demoted_node (nodes w1))
       (set_timers (cancel (heartbeatTimer node) (timers w1)) w1)).

(** The lease record now belongs to node-2 while node-1 still believes it
    leads: the next heartbeat of node-1 is refused. *)
Definition node1_usurped : World :=
  set_mongoServer {["current-leader" := mkLeaderDocument "node-2" 30000 20000]}
    node1_leads.

(** A heartbeat at 21000 whose commands complete; the jitter drawn for the
    next attempt is 1500. *)
Definition tick_at_21000 : Oracle :=
  mkOracle 21000 21000 21001 Completes Completes 1500.

(** ** C2: the lease field and the leader status *)

(** The invariant of the data model: a node holds a lease exactly when it
    is the leader. *)
Definition lease_iff_leader (w : World) : Prop :=
  forall k node, get k (nodes w) = Some node ->
    (lease node <> None <-> status node = leader).

(** Every command of [startElection] completes at once, every jitter is
    0. *)
Definition prompt : StartOracle :=
  mkStartOracle Completes Completes 0 0 (fun _ => 0%Z).

(** The QUIT of the previous run is answered while the new connection is
    being opened. *)
Definition quit_answered : StartOracle :=
  mkStartOracle Completes Completes 1 0 (fun _ => 0%Z).

(** The acquisition is sent at 0 and answered at 5. *)
Definition wins_at_0 : Oracle := mkOracle 0 0 5 Completes Completes 0.

(** An election is started on Redis and node-1 wins it. *)
Definition elected_on_redis : list Input :=
  [StartElection redis prompt; Fire 0 wins_at_0].

(** The same, and an election is started on MongoDB. *)
Definition restarted_on_mongo : list Input :=
  elected_on_redis ++ [StartElection mongodb quit_answered].

(** ** C1: concurrent acquisitions *)

(** Once a call has won, the record it wrote is live for every racing
    call; before that, nobody has won. *)
Definition settled (db : Database) (cs : list Caller) (s : Servers) : Prop :=
  wins cs = 0%nat
  \/ (wins cs = 1%nat
      /\ match db with
         | mongodb =>
             exists d, fst s !! "current-leader" = Some d
                       /\ forall c, c ∈ cs -> (clock c <= expiresAt d)%Z
         | redis =>
             exists e, snd s !! "leader" = Some e
                       /\ forall c, c ∈ cs -> redis_live (clock c) e = true
         end).

(** Two calls on an empty collection, interleaved so that both conditional
    updates run before either insert: the first insert wins, the second
    meets the duplicate-key error. *)
Definition two_callers : list (string * Z) := [("node-1", 0%Z); ("node-2", 5%Z)].

Definition updates_then_inserts : list (nat * Fault) :=
  [(0%nat, Completes); (1%nat, Completes); (1%nat, Completes); (0%nat, Completes)].

(** Two calls that do not race: the second reads its clock after the lease
    of the first has run out. *)
Definition a_lease_apart : list (string * Z) := [("node-1", 0%Z); ("node-2", 20000%Z)].

Definition one_after_the_other : list (nat * Fault) :=
  [(0%nat, Completes); (0%nat, Completes); (1%nat, Completes)].

(** *** The registry is not the record *)

(** The node counts as leader at time [t]: its status is leader and its
    lease field is later than [t]. *)
Definition leads_at (t : Z) (node : Node) : Prop :=
  status node = leader /\ exists l, lease node = Some l /\ (t < l)%Z.

(** C1 as it is worded for the registry. *)
Definition at_most_one_leader_at (t : Z) (w : World) : Prop :=
  forall k k' node node',
    get k (nodes w) = Some node ->
    get k' (nodes w) = Some node' ->
    leads_at t node -> leads_at t node' -> k = k'.

(** Two nodes compete on MongoDB.  node-1 sends its acquisition at 1000 and
    has the answer at 1400: the record expires at 11000, the lease field of
    node-1 at 11400.  node-2 attempts at 1100 and at 6105 and loses; its
    third attempt, at 11110, finds the record expired and wins.  The
    renewals of node-1 have not been answered yet. *)
Definition slow_leader : list Input :=
  [CrashNode "node-3" Completes;
   CrashNode "node-4" Completes;
   CrashNode "node-5" Completes;
   StartElection mongodb
     (mkStartOracle Completes Completes 0 0
        (fun k => match k with O => 1000%Z | _ => 1100%Z end));
   Fire 0 (mkOracle 1000 1000 1400 Completes Completes 0);      (* node-1 wins *)
   Fire 1 (mkOracle 1100 1100 1105 Completes Completes 0);      (* node-2 loses *)
   Fire 3 (mkOracle 6105 6105 6105 Completes Completes 0);      (* node-2 retries *)
   Fire 4 (mkOracle 6105 6105 6110 Completes Completes 0);      (* node-2 loses *)
   Fire 5 (mkOracle 11110 11110 11110 Completes Completes 0);   (* node-2 retries *)
   Fire 6 (mkOracle 11110 11110 11115 Completes Completes 0)].  (* node-2 wins *)

(** * Vocabulary of the further properties *)

(** ** The primitives on each backend *)

(** The handle the primitives of backend [db] need is there. *)
Definition connected (db : Database) (w : World) : Prop :=
  match db with
  | mongodb => leaderCollection w = Some LeaderCollectionHandle
  | redis => redisClient w = Some RedisClientHandle
  end.

(** No record is stored at all on backend [db]. *)
Definition no_record (db : Database) (w : World) : Prop :=
  match db with
  | mongodb => mongoServer w !! "current-leader" = None
  | redis => redisServer w !! "leader" = None
  end.

(** ** Timer callbacks *)

(** The node a timer callback was created for. *)
Definition callback_node (cb : Callback) : string :=
  match cb with
  | CompetitionAttempt n | CompetitionRetry n | HeartbeatTick n => n
  end.

(** The registry entry of a node whose attempt was answered true; the
    handle of the fired competition timer stays in the node. *)
Definition elected_node (l : Z) (h : nat) (node : Node) : Node :=
  mkNode (id node) leader (Some l) (Some h) (competitionTimer node).

(** [w'] shows nothing new compared with [w]: same registry, broadcasts,
    backend activity, servers and timer counter; timers may only have been
    cleared. *)
Definition nothing_happened (w w' : World) : Prop :=
  nodes w' = nodes w
  /\ broadcasts w' = broadcasts w
  /\ calls w' = calls w
  /\ mongoServer w' = mongoServer w
  /\ redisServer w' = redisServer w
  /\ nextTimer w' = nextTimer w
  /\ (forall t tm, timers w' !! t = Some tm -> timers w !! t = Some tm).

(** ** The competition callback around its [await]

    The callback of the competition timer suspends once, at
    [await this.tryAcquire...Leadership(nodeId)].  [attempt_continuation]
    is the code that runs when the answer arrives; commands and other
    callbacks may have run in between. *)
Definition attempt_continuation (n : string) (acquired : bool) (now3 : Z) : M unit :=
  if acquired then
    mutate_node n (with_status leader) ;;
    mutate_node n (with_lease (Some (now3 + LEASE_DURATION)%Z)) ;;
    l <- field n lease ;;
    broadcast (NodeUpdate n leader l) ;;
    broadcast (LeaderElected n) ;;
    startHeartbeat n
  else
    mutate_node n (with_status follower) ;;
    broadcast (NodeUpdate n follower None) ;;
    t <- setTimeout (CompetitionRetry n) RETRY_DELAY ;;
    mutate_node n (with_competitionTimer (Some t)).

(** ** stopElection and resetElection, node by node *)

(** A node once [stopElection] has visited it. *)
Definition disarmed_node (node : Node) : Node :=
  mkNode (id node) (status node) (lease node) None None.

(** A node once [resetElection] is done with it. *)
Definition idle_node (node : Node) : Node :=
  mkNode (id node) idle None None None.

(** Timer [t] is one of the two handles the node holds. *)
Definition handle_of (node : Node) (t : nat) : Prop :=
  heartbeatTimer node = Some t \/ competitionTimer node = Some t.

(** Timer [t] is held by a node of the registry. *)
Definition named (w : World) (t : nat) : Prop :=
  exists k node, get k (nodes w) = Some node /\ handle_of node t.

(** The loop invariant of [stopElection], node by node: the nodes already
    visited are disarmed and their timers are cleared, the other nodes and
    the other timers are those of the start. *)
Definition handles_disarmed (w0 : World) (seen : list string) (w : World) : Prop :=
  same_outside_registry w0 w
  /\ (nodes w).*1 = (nodes w0).*1
  /\ (forall k, get k (nodes w) =
        if decide (k ∈ seen) then disarmed_node <$> get k (nodes w0)
        else get k (nodes w0))
  /\ (forall t, timers w !! t = None \/ timers w !! t = timers w0 !! t)
  /\ (forall k node t, k ∈ seen -> get k (nodes w0) = Some node -> handle_of node t ->
        timers w !! t = None)
  /\ (forall t, ~ named w0 t -> timers w !! t = timers w0 !! t).

(** What the second half of [stopElection] does: each open client is
    closed and its field set to null. *)
Definition closed (w : World) : World :=
  let w1 :=
    match mongoClient w with
    | Some _ =>
        set_leaderCollection None
          (set_mongoClient None (set_calls (calls w ++ [Sent MongoClose]) w))
    | None => w
    end in
  match redisClient w1 with
  | Some _ => set_redisClient None (set_calls (calls w1 ++ [Sent RedisQuit]) w1)
  | None => w1
  end.

(** ** startElection *)

(** The node is registered and not crashed: [startElection] starts it. *)
Definition is_live (w : World) (n : string) : bool :=
  match get n (nodes w) with
  | Some node => negb (bool_decide (status node = crashed))
  | None => false
  end.

(** The nodes [startElection] starts, in the order of the registry. *)
Definition live_keys (w : World) : list string :=
  filter (fun n => is_live w n = true) (nodes w).*1.

(** The connection attempt or the clearing command was rejected with [e]. *)
Definition fails_with (f : Fault) (e : JsError) : Prop :=
  f = FailsBefore e \/ f = FailsAfter e.

(** What [resume] leaves alone: the registry, the timers, the events, the
    two flags and the servers. *)
Definition same_engine (w w' : World) : Prop :=
  engine_view w' = engine_view w
  /\ mongoServer w' = mongoServer w
  /\ redisServer w' = redisServer w.

(** The first client [stopElection] closes, with the continuation that
    waits for the reply. *)
Definition first_close (w : World) : option (Suspended * Command) :=
  match mongoClient w with
  | Some _ => Some (StopAfterMongoClose, MongoClose)
  | None =>
      match redisClient w with
      | Some _ => Some (StopAfterRedisQuit, RedisQuit)
      | None => None
      end
  end.

(** The un-awaited [this.stopElection()] of [startElection], once the
    timers are cleared: the first close command is sent and the rest of the
    method is left to the event loop. *)
Definition stop_begun (w : World) : World :=
  match first_close w with
  | Some (k, c) =>
      set_suspended (suspended w ++ [k]) (set_calls (calls w ++ [Sent c]) w)
  | None => w
  end.

(** The world in which [startElection] opens its connection. *)
Definition restarting (database : Database) (w : World) : World :=
  set_running true
    (set_currentDatabase database
       (if running w
        then stop_begun (snd (for_each (nodes w).*1 clear_node_timers
                                (set_running false w)))
        else w)).

(** The world in which [connect()] is answered: the client field is set,
    the command is sent, and the event loop has resumed what it was told
    to. *)
Definition connecting (database : Database) (so : StartOracle) (w : World) : World :=
  snd (resume_n (resumed_in_connect so)
         match database with
         | mongodb =>
             set_calls (calls w ++ [Sent MongoConnect])
               (set_mongoClient (Some MongoClientHandle) w)
         | redis =>
             set_calls (calls w ++ [Sent RedisConnect])
               (set_redisClient (Some RedisClientHandle) w)
         end).

(** The nodes of [ns] that [startElection] starts from [w]. *)
Definition live_among (w : World) (ns : list string) : list string :=
  filter (fun n => is_live w n = true) ns.

(** [w'] differs from [w] at most in the registry, the timers and the
    events. *)
Definition same_connections (w w' : World) : Prop :=
  set_broadcasts (broadcasts w)
    (set_nextTimer (nextTimer w)
       (set_timers (timers w) (set_nodes (nodes w) w'))) = w.

(** The world once [initMongo] or [initRedis] has completed undisturbed:
    the client is open and the lease record of a previous election is
    cleared. *)
Definition cleared (database : Database) (w : World) : World :=
  match database with
  | mongodb =>
      set_mongoServer ∅
        (set_calls (calls w ++ [Sent MongoConnect; Sent MongoDeleteMany])
           (set_leaderCollection (Some LeaderCollectionHandle)
              (set_mongoClient (Some MongoClientHandle) w)))
  | redis =>
      set_redisServer (delete "leader" (redisServer w))
        (set_calls (calls w ++ [Sent RedisConnect; Sent RedisDel])
           (set_redisClient (Some RedisClientHandle) w))
  end.

(** The command that opens the connection and the command that clears the
    lease record of a previous election. *)
Definition opening_calls (database : Database) : list BackendCall :=
  match database with
  | mongodb => [Sent MongoConnect; Sent MongoDeleteMany]
  | redis => [Sent RedisConnect; Sent RedisDel]
  end.

(** The world in which [deleteMany({})] of [initMongo] is answered, when
    the connection was opened undisturbed: the collection handle is set,
    the command is sent, and the event loop has resumed what it was told
    to. *)
Definition clearing (so : StartOracle) (w : World) : World :=
  snd (resume_n (resumed_in_clear so)
         (set_calls (calls w ++ [Sent MongoConnect; Sent MongoDeleteMany])
            (set_leaderCollection (Some LeaderCollectionHandle)
               (set_mongoClient (Some MongoClientHandle) w)))).

(** ** The registry is fixed *)

(** [w'] has the registry keys of [w], in the same order, and the same id
    under each key. *)
Definition same_ids (w w' : World) : Prop :=
  (nodes w').*1 = (nodes w).*1
  /\ forall k, id <$> get k (nodes w') = id <$> get k (nodes w).

(** From any world and whatever its outcome, [c] keeps keys and ids. *)
Definition keeps_ids {A} (c : M A) : Prop :=
  forall w, same_ids w (snd (c w)).

(** Every node is registered under its own id. *)
Definition well_named (w : World) : Prop :=
  forall k node, get k (nodes w) = Some node -> id node = k.

(** ** No node is stranded

    While an election runs, every node that is not crashed must hold a
    pending timer, or nothing will ever make it act again. *)

(** A heartbeat interval of node [k]. *)
Definition is_beat (k : string) (tm : Timer) : Prop :=
  callback tm = HeartbeatTick k /\ repeats tm = true.

(** A one-shot competition timer of node [k]: an attempt or a retry. *)
Definition is_comp (k : string) (tm : Timer) : Prop :=
  repeats tm = false
  /\ (callback tm = CompetitionAttempt k \/ callback tm = CompetitionRetry k).

(** Handle [h] was issued, and if it is still armed its timer is of kind
    [P]. *)
Definition handle_ok (P : Timer -> Prop) (w : World) (h : option nat) : Prop :=
  forall t, h = Some t ->
    (t < nextTimer w)%nat /\ forall tm, timers w !! t = Some tm -> P tm.

(** The handles stored in the node were issued by [setInterval] and
    [setTimeout]; a handle that is still armed is a timer of this node, of
    the kind of its field. *)
Definition owned (w : World) (k : string) (node : Node) : Prop :=
  handle_ok (is_beat k) w (heartbeatTimer node)
  /\ handle_ok (is_comp k) w (competitionTimer node).

(** The node holds the pending timer its status calls for: a leader its
    heartbeat, any other node that is not crashed a competition timer. *)
Definition armed (w : World) (node : Node) : Prop :=
  match status node with
  | crashed => True
  | leader => exists t tm, heartbeatTimer node = Some t /\ timers w !! t = Some tm
  | _ => exists t tm, competitionTimer node = Some t /\ timers w !! t = Some tm
  end.

(** Every armed timer was issued, and every node owns its handles. *)
Definition handles_ok (w : World) : Prop :=
  (forall t tm, timers w !! t = Some tm -> (t < nextTimer w)%nat)
  /\ (forall k node, get k (nodes w) = Some node -> owned w k node).

(** The election runs and no node is stranded. *)
Definition engine_ok (w : World) : Prop :=
  running w = true
  /\ handles_ok w
  /\ (forall k node, get k (nodes w) = Some node -> armed w node).

(** The timers [tm'] left by a step on node [n] from [w], [next] being the
    new counter: what is armed was armed or is new, and the timers of the
    other nodes are still armed. *)
Definition timers_of_step (n : string) (w : World) (next : nat) (tm' : gmap nat Timer)
  : Prop :=
  (nextTimer w <= next)%nat
  /\ (forall t x, tm' !! t = Some x ->
        timers w !! t = Some x \/ (nextTimer w <= t < next)%nat)
  /\ (forall t x, timers w !! t = Some x -> callback_node (callback x) <> n ->
        tm' !! t = Some x).

(** A timer that expires or a node that is crashed: what happens to an
    election between two commands that start, stop or reset it. *)
Definition is_event (i : Input) : Prop :=
  match i with
  | Fire _ _ | CrashNode _ _ => True
  | _ => False
  end.

(** ** The connected clients

    [clients] is a [Set<WebSocket>]: it iterates in insertion order and
    holds a socket at most once.  Sockets are named by numbers. *)

Definition addClient (ws : nat) (clients : list nat) : list nat :=
  if decide (ws ∈ clients) then clients else clients ++ [ws].

Definition removeClient (ws : nat) (clients : list nat) : list nat :=
  filter (fun c => c <> ws) clients.

(** The [send] calls of [broadcast(data)], in order: one per client whose
    [readyState] is OPEN. *)
Definition sends (is_open : nat -> bool) (data : Event) (clients : list nat)
  : list (nat * Event) :=
  (fun c => (c, data)) <$> filter (fun c => is_open c = true) clients.

(** What the server does with the set: a socket connects, a socket
    closes. *)
Inductive ClientOp :=
| Connected (ws : nat)
| Closed (ws : nat).

Definition client_step (clients : list nat) (op : ClientOp) : list nat :=
  match op with
  | Connected ws => addClient ws clients
  | Closed ws => removeClient ws clients
  end.

Definition clients_after (ops : list ClientOp) : list nat :=
  foldl client_step [] ops.

(** The last thing that happened to [ws] is that it connected. *)
Definition is_connected (ops : list ClientOp) (ws : nat) : bool :=
  foldl (fun b op =>
           match op with
           | Connected c => if decide (c = ws) then true else b
           | Closed c => if decide (c = ws) then false else b
           end) false ops.

(** * Properties *)

(** ** The registry *)

Lemma get_mutate k k' f m :
  get k' (mutate k f m) = if decide (k = k') then f <$> get k' m else get k' m.
Proof.
  induction m as [|[k0 n0] m IH]; simpl.
  - by destruct (decide (k = k')).
  - destruct (decide (k0 = k)) as [->|Hne]; simpl.
    + destruct (decide (k = k')); simpl; by rewrite ?decide_True, ?decide_False.
    + destruct (decide (k0 = k')) as [->|Hne'].
      * by rewrite decide_False.
      * apply IH.
Qed.

Lemma get_mutate_eq k f m : get k (mutate k f m) = f <$> get k m.
Proof. rewrite get_mutate. by rewrite decide_True. Qed.

Lemma get_mutate_ne k k' f m : k ≠ k' -> get k' (mutate k f m) = get k' m.
Proof. intros. rewrite get_mutate. by rewrite decide_False. Qed.

Lemma mutate_keys k f m : (mutate k f m).*1 = m.*1.
Proof.
  induction m as [|[k0 n0] m IH]; csimpl; [done|].
  destruct (decide (k0 = k)); csimpl; [done | by rewrite IH].
Qed.

Lemma mutate_fixed k f m :
  (forall node, get k m = Some node -> f node = node) -> mutate k f m = m.
Proof.
  induction m as [|[k0 n0] m IH]; simpl; [done|]. intros Hf.
  destruct (decide (k0 = k)) as [->|Hne].
  - by rewrite Hf.
  - by rewrite IH.
Qed.

(** ** C3: acquisition on the conditional-write backend *)

(** C3.  With the collection handle initialised and no transport failure,
    [tryAcquireMongoLeadership n] at clock value [now] returns true exactly
    when no lease record exists or the existing record has
    [expiresAt < now]; it then stores
    [{nodeId: n, expiresAt: now + LEASE_DURATION, updatedAt: now}].
    Otherwise it returns false and the collection is unchanged: the
    fallback insert was sent, the server refused it with the duplicate-key
    error 11000, and that error became the return value false. *)
Theorem tryAcquireMongoLeadership_spec (n : string) (now : Z) (w : World) :
  leaderCollection w = Some LeaderCollectionHandle ->
  let r := tryAcquireMongoLeadership n now Completes Completes w in
  (fst r = Returns true <-> record_free now (mongoServer w))
  /\ (record_free now (mongoServer w) ->
      mongoServer (snd r) =
        <["current-leader" := mkLeaderDocument n (now + LEASE_DURATION) now]>
          (mongoServer w))
  /\ (~ record_free now (mongoServer w) ->
      fst r = Returns false
      /\ snd r = set_calls (calls w ++ insert_path n) w
      /\ fst (insertOne "current-leader"
                (mkLeaderDocument n (now + LEASE_DURATION) now) (mongoServer w))
         = Throws duplicateKeyError).
Proof.
  intros Hc r. subst r.
  unfold tryAcquireMongoLeadership, record_free, mongo, send, send_while,
    try_catch, bind, record_call, modify, gets, ret, findOneAndUpdate,
    insertOne, lease_expired, insert_path.
  simpl. rewrite Hc. simpl.
  destruct (mongoServer w !! "current-leader") as [d|] eqn:Hd; simpl.
  - rewrite orb_false_r.
    destruct (bool_decide (expiresAt d < now)%Z) eqn:Hlt; simpl.
    + apply bool_decide_eq_true in Hlt.
      rewrite bool_decide_eq_true_2 by done.
      split; [done|]. split; [done|]. intros Hn. by destruct Hn.
    + apply bool_decide_eq_false in Hlt.
      rewrite Hd. simpl.
      split; [split; [discriminate | done]|].
      split; [done|]. intros _.
      split; [done|]. split; [|done].
      destruct w; simpl in *. by rewrite <- !app_assoc.
  - rewrite Hd. simpl.
    split; [done|]. split; [done|]. intros Hn. by destruct Hn.
Qed.

(** The engine connected to an empty collection: the first acquisition
    succeeds. *)
Lemma tryAcquireMongoLeadership_spec_witness :
  let w := set_leaderCollection (Some LeaderCollectionHandle) (initial ∅ ∅) in
  leaderCollection w = Some LeaderCollectionHandle
  /\ (fst (tryAcquireMongoLeadership "node-1" 0 Completes Completes w) = Returns true
      <-> record_free 0 (mongoServer w)).
Proof.
  split; [reflexivity|].
  apply (tryAcquireMongoLeadership_spec "node-1" 0
           (set_leaderCollection (Some LeaderCollectionHandle) (initial ∅ ∅))).
  reflexivity.
Defined.

(** ** C4: renewal *)

(** Unfolds the monad and the commands, leaving the case analysis on the
    stored data. *)
Ltac unfold_monad :=
  unfold mongo, redis_cmd, send, send_while, try_catch, bind, record_call,
    broadcast, mutate_node, clearTimer, setTimeout, setInterval, schedule,
    node_of, field, modify, gets, ret, throw, reply, exec, outcome in *.

Ltac unfold_servers :=
  unfold findOneAndUpdate, insertOne, deleteOne, deleteMany, redis_set_nx_px,
    redis_get, redis_pexpire, redis_del, lease_expired, owned_by in *.

Lemma renewMongoLease_run n now w d :
  leaderCollection w = Some LeaderCollectionHandle ->
  mongoServer w !! "current-leader" = Some d ->
  nodeId d = n ->
  renewMongoLease n now Completes w =
    (Returns true,
     set_mongoServer
       (<["current-leader" := mkLeaderDocument n (now + LEASE_DURATION) now]> (mongoServer w))
       (set_calls (calls w ++ [Renew mongodb n; Sent MongoFindOneAndUpdate]) w)).
Proof.
  intros Hc Hd Hn. unfold renewMongoLease. unfold_monad. unfold_servers.
  simpl. rewrite Hc. simpl. rewrite Hd. simpl.
  rewrite bool_decide_eq_true_2 by done. simpl.
  rewrite Hn. rewrite bool_decide_eq_true_2 by done.
  f_equal. destruct w; simpl in *. by rewrite <- !app_assoc.
Qed.


Lemma renewRedisLease_refused n now1 now2 f1 f2 w :
  redis_owner now1 (redisServer w) <> Some n ->
  fst (renewRedisLease n now1 now2 f1 f2 w) = Returns false
  /\ mongoServer (snd (renewRedisLease n now1 now2 f1 f2 w)) = mongoServer w
  /\ redisServer (snd (renewRedisLease n now1 now2 f1 f2 w)) = redisServer w.
Proof.
  unfold redis_owner. intros Ho.
  unfold renewRedisLease. unfold_monad. unfold_servers. simpl.
  destruct (redisClient w); simpl; [|done].
  destruct f1; simpl; try done.
  by rewrite decide_False.
Qed.

Lemma renewRedisLease_run n now1 now2 w e :
  redisClient w = Some RedisClientHandle ->
  redis_lookup now1 "leader" (redisServer w) = Some e ->
  redis_lookup now2 "leader" (redisServer w) = Some e ->
  value e = n ->
  renewRedisLease n now1 now2 Completes Completes w =
    (Returns true,
     set_redisServer
       (<["leader" := mkRedisEntry n (Some (now2 + LEASE_DURATION)%Z)]> (redisServer w))
       (set_calls (calls w ++ [Renew redis n; Sent RedisGet; Sent RedisPExpire]) w)).
Proof.
  intros Hc H1 H2 Hn. unfold renewRedisLease. unfold_monad. unfold_servers.
  simpl. rewrite Hc. simpl. rewrite H1. simpl. rewrite Hn.
  rewrite decide_True by done. simpl. rewrite H2. simpl. rewrite Hn.
  f_equal. destruct w; simpl in *. by rewrite <- !app_assoc.
Qed.


Lemma tryAcquireMongoLeadership_owner n now f1 f2 w :
  fst (tryAcquireMongoLeadership n now f1 f2 w) = Returns true ->
  mongoServer (snd (tryAcquireMongoLeadership n now f1 f2 w)) !! "current-leader"
  = Some (mkLeaderDocument n (now + LEASE_DURATION) now).
Proof.
  unfold tryAcquireMongoLeadership. unfold_monad. unfold_servers. simpl.
  destruct (leaderCollection w); simpl; [|discriminate].
  destruct (mongoServer w !! "current-leader") as [d|] eqn:Hd; simpl.
  - rewrite orb_false_r.
    destruct (bool_decide (expiresAt d < now)%Z) eqn:Hlt; simpl.
    + destruct f1; simpl; try discriminate.
      intros _. by rewrite lookup_insert_eq.
    + destruct f1; simpl; try discriminate.
      destruct f2; simpl; rewrite ?Hd; simpl; try discriminate;
        repeat case_decide; simpl; discriminate.
  - destruct f1; simpl; try discriminate.
    destruct f2; simpl; rewrite ?Hd; simpl.
    + intros _. by rewrite lookup_insert_eq.
    + repeat case_decide; simpl; discriminate.
    + repeat case_decide; simpl; discriminate.
Qed.

Lemma tryAcquireRedisLeadership_owner n now f w :
  fst (tryAcquireRedisLeadership n now f w) = Returns true ->
  redisServer (snd (tryAcquireRedisLeadership n now f w)) !! "leader"
  = Some (mkRedisEntry n (Some (now + LEASE_DURATION)%Z)).
Proof.
  unfold tryAcquireRedisLeadership. unfold_monad. unfold_servers. simpl.
  destruct (redisClient w); simpl; [|discriminate].
  destruct f; simpl; try discriminate.
  destruct (redis_lookup now "leader" (redisServer w)); simpl; [discriminate|].
  intros _. by rewrite lookup_insert_eq.
Qed.




(** The window of the two-command renewal on Redis: a key that expires
    between the GET and the PEXPIRE is not refreshed, and the renewal still
    returns true. *)
Example renewRedisLease_window :
  let r := renewRedisLease "node-1" 9999 10000 Completes Completes held_by_node1 in
  fst r = Returns true
  /\ redis_lookup 10000 "leader" (redisServer (snd r)) = None.
Proof. vm_compute. split; reflexivity. Qed.

(** ** C7: errors inside the primitives *)

Lemma tryAcquire_total db n t f1 f2 w :
  exists b, fst (tryAcquire db n t f1 f2 w) = Returns b.
Proof.
  destruct db; simpl.
  - unfold tryAcquireMongoLeadership. unfold_monad. unfold_servers. simpl.
    destruct (leaderCollection w); simpl; [|by eexists].
    destruct (mongoServer w !! "current-leader") as [d|] eqn:Hd; simpl.
    + destruct (bool_decide (expiresAt d < t)%Z || false); simpl;
        destruct f1; simpl; try (by eexists);
        destruct f2; simpl; rewrite ?Hd; simpl;
        repeat case_decide; simpl; by eexists.
    + destruct f1; simpl; try (by eexists);
        destruct f2; simpl; rewrite ?Hd; simpl;
        repeat case_decide; simpl; by eexists.
  - unfold tryAcquireRedisLeadership. unfold_monad. unfold_servers. simpl.
    destruct (redisClient w); simpl; [|by eexists].
    destruct f1; simpl; try (by eexists).
    destruct (redis_lookup t "leader" (redisServer w)); simpl; by eexists.
Qed.

Lemma renew_total db n t1 t2 f1 f2 w :
  exists b, fst (renew db n t1 t2 f1 f2 w) = Returns b.
Proof.
  destruct db; simpl.
  - unfold renewMongoLease. unfold_monad. unfold_servers. simpl.
    destruct (leaderCollection w); simpl; [|by eexists].
    destruct f1; simpl; try (by eexists).
    destruct (mongoServer w !! "current-leader") as [d|]; simpl; [|by eexists].
    destruct (bool_decide (nodeId d = n)); simpl; by eexists.
  - unfold renewRedisLease. unfold_monad. unfold_servers. simpl.
    destruct (redisClient w); simpl; [|by eexists].
    destruct f1; simpl; try (by eexists).
    case_decide; simpl; [|by eexists].
    destruct f2; simpl; try (by eexists).
    destruct (redis_lookup t2 "leader" (redisServer w)); simpl; by eexists.
Qed.

Lemma tryAcquire_first_raised db n t f1 f2 w :
  raised f1 -> fst (tryAcquire db n t f1 f2 w) = Returns false.
Proof.
  unfold raised. intros Hf. destruct db; simpl.
  - unfold tryAcquireMongoLeadership. unfold_monad. simpl.
    destruct (leaderCollection w); simpl; [|done].
    by destruct f1.
  - unfold tryAcquireRedisLeadership. unfold_monad. simpl.
    destruct (redisClient w); simpl; [|done].
    by destruct f1.
Qed.

Lemma renew_first_raised db n t1 t2 f1 f2 w :
  raised f1 -> fst (renew db n t1 t2 f1 f2 w) = Returns false.
Proof.
  unfold raised. intros Hf. destruct db; simpl.
  - unfold renewMongoLease. unfold_monad. simpl.
    destruct (leaderCollection w); simpl; [|done].
    by destruct f1.
  - unfold renewRedisLease. unfold_monad. simpl.
    destruct (redisClient w); simpl; [|done].
    by destruct f1.
Qed.

Lemma Sent_not_in_calls (c : Command) (l : list BackendCall) :
  Forall (fun x => x <> Sent c) l -> Sent c ∈ l -> False.
Proof. intros Hall Hin. rewrite Forall_forall in Hall. by apply (Hall _ Hin). Qed.

Ltac new_calls :=
  match goal with
  | H : Sent _ ∈ drop (length ?l) _ |- _ =>
      rewrite <- ?app_assoc in H; rewrite ?drop_app_length in H;
      rewrite ?Nat.sub_diag, ?drop_all in H; simpl in H
  end.

Ltac absent_call :=
  match goal with
  | H : Sent _ ∈ _ |- _ =>
      exfalso; revert H; apply Sent_not_in_calls;
      repeat constructor; discriminate
  end.

Lemma tryAcquire_second_raised db n t f1 f2 w :
  raised f2 ->
  sent_during MongoInsertOne (tryAcquire db n t f1 f2) w ->
  fst (tryAcquire db n t f1 f2 w) = Returns false.
Proof.
  unfold raised, sent_during. intros Hf. destruct db; simpl.
  - unfold tryAcquireMongoLeadership. unfold_monad. unfold_servers. simpl.
    destruct (leaderCollection w); simpl; [|done].
    destruct f1; simpl; try done.
    destruct (mongoServer w !! "current-leader") as [d|] eqn:Hd; simpl.
    + destruct (bool_decide (expiresAt d < t)%Z || false); simpl.
      * intros H. new_calls. absent_call.
      * destruct f2; simpl; try done; intros _; by case_decide.
    + destruct f2; simpl; try done; intros _; by case_decide.
  - unfold tryAcquireRedisLeadership. unfold_monad. unfold_servers. simpl.
    destruct (redisClient w); simpl; [|done].
    destruct f1; simpl; try done.
    destruct (redis_lookup t "leader" (redisServer w)); simpl;
      intros H; new_calls; absent_call.
Qed.

Lemma renew_second_raised db n t1 t2 f1 f2 w :
  raised f2 ->
  sent_during RedisPExpire (renew db n t1 t2 f1 f2) w ->
  fst (renew db n t1 t2 f1 f2 w) = Returns false.
Proof.
  unfold raised, sent_during. intros Hf. destruct db; simpl.
  - unfold renewMongoLease. unfold_monad. unfold_servers. simpl.
    destruct (leaderCollection w); simpl; [|done].
    destruct f1; simpl; try done.
    destruct (mongoServer w !! "current-leader") as [d|] eqn:Hd; simpl.
    + destruct (bool_decide (nodeId d = n)); simpl;
        intros H; new_calls; absent_call.
    + intros H; new_calls; absent_call.
  - unfold renewRedisLease. unfold_monad. unfold_servers. simpl.
    destruct (redisClient w); simpl; [|done].
    destruct f1; simpl; try done.
    case_decide; simpl; [|done].
    by destruct f2.
Qed.

Lemma tryAcquire_engine_view db n t f1 f2 w :
  engine_view (snd (tryAcquire db n t f1 f2 w)) = engine_view w.
Proof.
  destruct db; simpl.
  - unfold tryAcquireMongoLeadership. unfold_monad. unfold_servers. simpl.
    destruct (leaderCollection w); simpl; [|done].
    destruct (mongoServer w !! "current-leader") as [d|] eqn:Hd; simpl.
    + destruct (bool_decide (expiresAt d < t)%Z || false); simpl;
        destruct f1; simpl; try done;
        destruct f2; simpl; rewrite ?Hd; simpl; repeat case_decide; done.
    + destruct f1; simpl; try done;
        destruct f2; simpl; rewrite ?Hd; simpl; repeat case_decide; done.
  - unfold tryAcquireRedisLeadership. unfold_monad. unfold_servers. simpl.
    destruct (redisClient w); simpl; [|done].
    destruct f1; simpl; try done.
    destruct (redis_lookup t "leader" (redisServer w)); done.
Qed.

Lemma renew_engine_view db n t1 t2 f1 f2 w :
  engine_view (snd (renew db n t1 t2 f1 f2 w)) = engine_view w.
Proof.
  destruct db; simpl.
  - unfold renewMongoLease. unfold_monad. unfold_servers. simpl.
    destruct (leaderCollection w); simpl; [|done].
    destruct f1; simpl; try done;
      destruct (mongoServer w !! "current-leader") as [d|]; simpl; try done;
      destruct (bool_decide (nodeId d = n)); done.
  - unfold renewRedisLease. unfold_monad. unfold_servers. simpl.
    destruct (redisClient w); simpl; [|done].
    destruct f1; simpl; try done.
    case_decide; simpl; [|done].
    destruct f2; simpl; try done;
      destruct (redis_lookup t2 "leader" (redisServer w)); done.
Qed.

Lemma competitionAttempt_lost n o w node :
  running w = true ->
  get n (nodes w) = Some node ->
  status node <> crashed ->
  fst (tryAcquire (currentDatabase w) n (now1 o) (fault1 o) (fault2 o) w) = Returns false ->
  fst (competitionAttempt n o w) = Returns tt
  /\ engine_view (snd (competitionAttempt n o w)) = lost_view n w.
Proof.
  intros Hr Hn Hs Hacq.
  pose proof (tryAcquire_engine_view (currentDatabase w) n (now1 o) (fault1 o) (fault2 o) w)
    as Hview.
  unfold competitionAttempt. unfold_monad. simpl.
  rewrite Hr, Hn. simpl. rewrite bool_decide_eq_false_2 by done. simpl.
  destruct (tryAcquire _ _ _ _ _ w) as [[b|e] w1]; simpl in *; [|discriminate].
  injection Hacq as ->. simpl.
  unfold engine_view, lost_view in *. simpl.
  injection Hview as -> -> -> -> -> ->. done.
Qed.

(** C7.  For both backends and whatever the network does to the commands,
    [tryAcquire] and [renew] return a boolean and never throw.  When the
    first command of the primitive meets an error the result is false; when
    the second command (the fallback insert of the MongoDB acquisition, the
    PEXPIRE of the Redis renewal) is sent and meets an error the result is
    false.  The engine only receives that boolean: after a competition
    attempt that was answered false, what the engine holds and broadcasts
    is [lost_view], which depends on neither the clock nor the faults. *)
Theorem backend_errors_return_false (db : Database) (n : string) (o : Oracle) (w : World) :
  let acq := tryAcquire db n (now1 o) (fault1 o) (fault2 o) in
  let ren := renew db n (now1 o) (now2 o) (fault1 o) (fault2 o) in
  (exists b, fst (acq w) = Returns b)
  /\ (exists b, fst (ren w) = Returns b)
  /\ (raised (fault1 o) ->
      fst (acq w) = Returns false /\ fst (ren w) = Returns false)
  /\ (raised (fault2 o) -> sent_during MongoInsertOne acq w ->
      fst (acq w) = Returns false)
  /\ (raised (fault2 o) -> sent_during RedisPExpire ren w ->
      fst (ren w) = Returns false)
  /\ (forall node,
      db = currentDatabase w ->
      running w = true ->
      get n (nodes w) = Some node ->
      status node <> crashed ->
      fst (acq w) = Returns false ->
      fst (competitionAttempt n o w) = Returns tt
      /\ engine_view (snd (competitionAttempt n o w)) = lost_view n w).
Proof.
  intros acq ren. subst acq ren.
  split; [apply tryAcquire_total|].
  split; [apply renew_total|].
  split; [intros Hf; split;
          [by apply tryAcquire_first_raised | by apply renew_first_raised]|].
  split; [apply tryAcquire_second_raised|].
  split; [apply renew_second_raised|].
  intros node -> Hr Hn Hs Hacq. by eapply competitionAttempt_lost.
Qed.

Lemma backend_errors_return_false_witness :
  fst (tryAcquire mongodb "node-1" 0 (FailsBefore typeError) Completes running_on_mongo)
  = Returns false
  /\ engine_view (snd (competitionAttempt "node-1" unreachable running_on_mongo))
     = lost_view "node-1" running_on_mongo.
Proof.
  destruct (backend_errors_return_false mongodb "node-1" unreachable running_on_mongo)
    as (_ & _ & H1 & _ & _ & Hv).
  assert (Hraised : raised (fault1 unreachable)) by (vm_compute; discriminate).
  split.
  - apply (proj1 (H1 Hraised)).
  - apply (Hv (mkNode "node-1" idle None None None)).
    + reflexivity.
    + reflexivity.
    + reflexivity.
    + discriminate.
    + apply (proj1 (H1 Hraised)).
Defined.

(** ** Loops over the registry *)

Lemma for_each_hoare {A} (I : list A -> World -> Prop) (l : list A) (body : A -> M unit) :
  (forall seen x w, I seen w ->
     fst (body x w) = Returns tt /\ I (seen ++ [x]) (snd (body x w))) ->
  forall w, I [] w ->
    fst (for_each l body w) = Returns tt /\ I l (snd (for_each l body w)).
Proof.
  intros Hbody.
  assert (Hgen : forall seen w, I seen w ->
            fst (for_each l body w) = Returns tt
            /\ I (seen ++ l) (snd (for_each l body w))).
  { induction l as [|x l IH]; intros seen w Hw; simpl.
    - by rewrite app_nil_r.
    - unfold bind. destruct (Hbody seen x w Hw) as [Hr Hi].
      destruct (body x w) as [r w1]; simpl in *. subst r.
      destruct (IH (seen ++ [x]) w1 Hi) as [Hr' Hi'].
      by rewrite <- app_assoc in Hi'. }
  intros w Hw. apply (Hgen [] w Hw).
Qed.

Lemma for_each_unchanged {A} (l : list A) (body : A -> M unit) w :
  (forall x, body x w = (Returns tt, w)) ->
  for_each l body w = (Returns tt, w).
Proof.
  intros Hbody. induction l as [|x l IH]; simpl; [done|].
  unfold bind. by rewrite Hbody.
Qed.

Lemma get_Some_elem k m node : get k m = Some node -> (k, node) ∈ m.
Proof.
  induction m as [|[k0 n0] m IH]; simpl; [done|].
  destruct (decide (k0 = k)) as [->|Hne]; intros H.
  - injection H as ->. apply list_elem_of_here.
  - apply list_elem_of_further. by apply IH.
Qed.

Lemma get_Some_key k m node : get k m = Some node -> k ∈ m.*1.
Proof.
  induction m as [|[k0 n0] m IH]; csimpl; [done|].
  destruct (decide (k0 = k)) as [->|Hne]; intros H.
  - apply list_elem_of_here.
  - apply list_elem_of_further. by apply IH.
Qed.

Lemma world_eta (w : World) :
  mkWorld (nodes w) (currentDatabase w) (mongoClient w) (redisClient w)
    (leaderCollection w) (running w) (timers w) (nextTimer w) (suspended w)
    (mongoServer w) (redisServer w) (broadcasts w) (calls w) = w.
Proof. by destruct w. Qed.

Lemma clear_node_timers_unchanged k w :
  (forall node, get k (nodes w) = Some node -> no_timers node) ->
  clear_node_timers k w = (Returns tt, w).
Proof.
  intros Hq. unfold clear_node_timers. unfold_monad. simpl.
  destruct (get k (nodes w)) as [node|] eqn:Hk; simpl.
  - destruct (Hq node eq_refl) as [Hh Hc]. rewrite Hh. simpl.
    rewrite Hk. rewrite Hc. simpl.
    rewrite (mutate_fixed k (with_heartbeatTimer None) (nodes w)).
    + rewrite (mutate_fixed k (with_competitionTimer None) (nodes w)).
      * unfold set_nodes. simpl. by rewrite world_eta.
      * intros node' Hk'. rewrite Hk in Hk'. injection Hk' as <-.
        destruct node; simpl in *. by subst.
    + intros node' Hk'. rewrite Hk in Hk'. injection Hk' as <-.
      destruct node; simpl in *. by subst.
  - rewrite Hk. simpl.
    rewrite (mutate_fixed k (with_heartbeatTimer None) (nodes w)).
    + rewrite (mutate_fixed k (with_competitionTimer None) (nodes w)).
      * unfold set_nodes. simpl. by rewrite world_eta.
      * intros node' Hk'. by rewrite Hk in Hk'.
    + intros node' Hk'. by rewrite Hk in Hk'.
Qed.

Lemma reset_node_unchanged k w :
  (forall node, get k (nodes w) = Some node -> is_reset node) ->
  reset_node k w = (Returns tt, w).
Proof.
  intros Hq. unfold reset_node. unfold_monad. simpl.
  rewrite (mutate_fixed k (with_status idle) (nodes w)).
  - rewrite (mutate_fixed k (with_lease None) (nodes w)).
    + unfold set_nodes. simpl. by rewrite world_eta.
    + intros node Hk. destruct (Hq node Hk) as (_ & Hl & _).
      destruct node; simpl in *. by subst.
  - intros node Hk. destruct (Hq node Hk) as (Hs & _).
    destruct node; simpl in *. by subst.
Qed.

(** ** stopElection and resetElection *)

Lemma same_outside_registry_refl w : same_outside_registry w w.
Proof. unfold same_outside_registry, set_timers, set_nodes. simpl. apply world_eta. Qed.

Lemma clear_node_timers_effect k w :
  exists tm,
    clear_node_timers k w =
      (Returns tt,
       set_nodes (mutate k (with_competitionTimer None)
                    (mutate k (with_heartbeatTimer None) (nodes w)))
         (set_timers tm w)).
Proof.
  unfold clear_node_timers. unfold_monad. simpl.
  destruct (get k (nodes w)) as [node|] eqn:Hk; simpl.
  - destruct (heartbeatTimer node); simpl; rewrite Hk;
      destruct (competitionTimer node); simpl; eexists; reflexivity.
  - rewrite Hk. simpl. by exists (timers w).
Qed.

Lemma get_mutate_fmap {A} (g : Node -> A) k k' f m :
  (forall node, g (f node) = g node) ->
  g <$> get k' (mutate k f m) = g <$> get k' m.
Proof.
  intros Hg. rewrite get_mutate. case_decide; [|done].
  destruct (get k' m); simpl; [|done]. by rewrite Hg.
Qed.

Lemma clear_node_timers_step w0 seen k w :
  timers_cleared w0 seen w ->
  fst (clear_node_timers k w) = Returns tt
  /\ timers_cleared w0 (seen ++ [k]) (snd (clear_node_timers k w)).
Proof.
  intros (Hf & Hk & Hseen & Hst & Hl).
  destruct (clear_node_timers_effect k w) as [tm ->]. simpl.
  split; [done|]. unfold timers_cleared. simpl.
  split; [exact Hf|]. split; [by rewrite !mutate_keys|].
  split; [|split].
  - intros k' node Hin. rewrite !get_mutate.
    destruct (decide (k = k')) as [->|Hne].
    + destruct (get k' (nodes w)) as [node'|]; simpl; [|done].
      intros [= <-]. by split.
    + intros Hget. apply (Hseen k' node); [|done].
      apply elem_of_app in Hin as [Hin|Hin]; [done|].
      apply list_elem_of_singleton in Hin. congruence.
  - intros k'. rewrite !get_mutate_fmap by done. apply Hst.
  - intros k'. rewrite !get_mutate_fmap by done. apply Hl.
Qed.

Lemma stopElection_effect w :
  let w' := snd (stopElection w) in
  fst (stopElection w) = Returns tt
  /\ running w' = false
  /\ mongoClient w' = None
  /\ redisClient w' = None
  /\ broadcasts w' = broadcasts w
  /\ (nodes w').*1 = (nodes w).*1
  /\ (forall k node, get k (nodes w') = Some node -> no_timers node)
  /\ (forall k, status <$> get k (nodes w') = status <$> get k (nodes w))
  /\ (forall k, lease <$> get k (nodes w') = lease <$> get k (nodes w))
  /\ calls w' = calls w ++ closing_calls w.
Proof.
  unfold stopElection, stopElection_begin, keys, resume_stop, stop_redis_begin,
    closing_calls.
  unfold_monad. simpl.
  destruct (for_each_hoare (timers_cleared (set_running false w)) ((nodes w).*1)
              clear_node_timers
              (fun seen x w1 H => clear_node_timers_step (set_running false w) seen x w1 H)
              (set_running false w))
    as [Hr Hi].
  { unfold timers_cleared. split; [apply same_outside_registry_refl|].
    split; [done|]. split; [|done].
    intros k node Hin. by apply elem_of_nil in Hin. }
  destruct (for_each ((nodes w).*1) clear_node_timers (set_running false w))
    as [r w1]; simpl in *.
  subst r. destruct Hi as (Hf & Hk & Hseen & Hst & Hl).
  assert (Hall : forall k node, get k (nodes w1) = Some node -> no_timers node).
  { intros k node Hget. apply (Hseen k node); [|done].
    apply get_Some_key in Hget. rewrite Hk in Hget. exact Hget. }
  unfold same_outside_registry in Hf.
  assert (Hrun : running w1 = false) by (by apply (f_equal running) in Hf).
  assert (Hb : broadcasts w1 = broadcasts w) by (by apply (f_equal broadcasts) in Hf).
  assert (Hcalls : calls w1 = calls w) by (by apply (f_equal calls) in Hf).
  assert (Hmc : mongoClient w1 = mongoClient w) by (by apply (f_equal mongoClient) in Hf).
  assert (Hrc : redisClient w1 = redisClient w) by (by apply (f_equal redisClient) in Hf).
  rewrite <- Hmc, <- Hrc, <- Hcalls.
  destruct (mongoClient w1) eqn:Em; simpl;
    destruct (redisClient w1) eqn:Er; simpl;
    split_and!;
    first [ done | exact Hk | exact Hall | exact Hst | exact Hl
          | by rewrite <- app_assoc | by rewrite app_nil_r ].
Qed.

Lemma reset_node_step w0 seen k w :
  nodes_reset w0 seen w ->
  fst (reset_node k w) = Returns tt
  /\ nodes_reset w0 (seen ++ [k]) (snd (reset_node k w)).
Proof.
  intros (Hf & Hk & Hnt & Hseen).
  unfold reset_node. unfold_monad. simpl.
  split; [done|]. unfold nodes_reset. simpl.
  split; [exact Hf|]. split; [by rewrite !mutate_keys|].
  split.
  - intros k' node. rewrite !get_mutate.
    destruct (decide (k = k')) as [->|Hne]; [|apply Hnt].
    destruct (get k' (nodes w)) as [node'|] eqn:Hget; simpl; [|done].
    intros [= <-]. apply (Hnt k' node' Hget).
  - intros k' node Hin. rewrite !get_mutate.
    destruct (decide (k = k')) as [->|Hne].
    + destruct (get k' (nodes w)) as [node'|]; simpl; [|done].
      by intros [= <-].
    + intros Hget. apply (Hseen k' node); [|done].
      apply elem_of_app in Hin as [Hin|Hin]; [done|].
      apply list_elem_of_singleton in Hin. congruence.
Qed.

Lemma resetElection_effect w :
  let w' := snd (resetElection w) in
  fst (resetElection w) = Returns tt
  /\ running w' = false
  /\ mongoClient w' = None
  /\ redisClient w' = None
  /\ broadcasts w' = broadcasts w ++ [ElectionReset]
  /\ (forall k node, get k (nodes w') = Some node -> is_reset node)
  /\ calls w' = calls w ++ closing_calls w.
Proof.
  destruct (stopElection_effect w) as (Hr & Hrun & Hm & Hrd & Hb & Hk & Hnt & _ & _ & Hcl).
  cbv zeta. unfold resetElection, keys, bind, gets, broadcast, modify.
  destruct (stopElection w) as [r w1]; simpl in *. subst r.
  destruct (for_each_hoare (nodes_reset w1) ((nodes w1).*1) reset_node
              (fun seen x w2 H => reset_node_step w1 seen x w2 H) w1)
    as [Hr Hi].
  { unfold nodes_reset. split; [apply same_outside_registry_refl|].
    split; [done|]. split; [exact Hnt|].
    intros k node Hin. by apply elem_of_nil in Hin. }
  destruct (for_each ((nodes w1).*1) reset_node w1) as [r w2]; simpl in *.
  subst r. destruct Hi as (Hf & Hk2 & Hnt2 & Hseen). simpl.
  unfold same_outside_registry in Hf.
  split_and!; try done.
  - apply (f_equal running) in Hf; simpl in *; congruence.
  - apply (f_equal mongoClient) in Hf; simpl in *; congruence.
  - apply (f_equal redisClient) in Hf; simpl in *; congruence.
  - apply (f_equal broadcasts) in Hf; simpl in *; congruence.
  - intros k node Hget.
    destruct (Hseen k node) as [Hs Hl]; [|done|].
    + apply get_Some_key in Hget. by rewrite Hk2 in Hget.
    + split; [done|]. split; [done|]. by apply (Hnt2 k).
  - apply (f_equal calls) in Hf; simpl in *; congruence.
Qed.

Lemma stopElection_unchanged w :
  running w = false ->
  mongoClient w = None ->
  redisClient w = None ->
  (forall k node, get k (nodes w) = Some node -> no_timers node) ->
  stopElection w = (Returns tt, w).
Proof.
  intros Hrun Hm Hr Hnt.
  assert (Hsame : set_running false w = w).
  { unfold set_running. rewrite <- Hrun. apply world_eta. }
  unfold stopElection, stopElection_begin, keys, stop_redis_begin.
  unfold_monad. simpl. rewrite Hsame.
  rewrite (for_each_unchanged _ clear_node_timers w).
  - simpl. by rewrite Hm, Hr.
  - intros k. apply clear_node_timers_unchanged. apply Hnt.
Qed.

Lemma resetElection_again w :
  running w = false ->
  mongoClient w = None ->
  redisClient w = None ->
  (forall k node, get k (nodes w) = Some node -> is_reset node) ->
  resetElection w = broadcast ElectionReset w.
Proof.
  intros Hrun Hm Hr Hq.
  unfold resetElection, keys. unfold bind at 1.
  rewrite stopElection_unchanged; try done.
  - unfold bind, gets. simpl.
    rewrite (for_each_unchanged _ reset_node w); [done|].
    intros k. apply reset_node_unchanged. apply Hq.
  - intros k node Hget. by destruct (Hq k node Hget) as (_ & _ & ?).
Qed.

(** ** C9: the callbacks and [crashNode] never raise *)

Lemma startNodeCompetition_returns n j w :
  fst (startNodeCompetition n j w) = Returns tt.
Proof.
  unfold startNodeCompetition. unfold_monad. simpl.
  destruct (get n (nodes w)) as [node|]; simpl; [|done].
  by case_decide.
Qed.







(** ** C8: resetElection twice *)

(** C8, as worded, fails on the freshly constructed engine: the second
    call broadcasts election-reset again. *)
Lemma second_reset_is_silent_counterexample :
  running (initial ∅ ∅) = false
  /\ broadcasts (run [ResetElection; ResetElection] (initial ∅ ∅))
     = [ElectionReset; ElectionReset]
  /\ ~ second_reset_is_silent (initial ∅ ∅).
Proof.
  split; [reflexivity|]. split; [vm_compute; reflexivity|].
  intros H. specialize (H eq_refl). vm_compute in H. discriminate.
Qed.

(** C8, amended.  Every call of [resetElection] broadcasts exactly one
    election-reset event and no other event.  A second call in a row
    changes nothing in the engine, sends nothing to a server, and
    broadcasts election-reset once more: two calls leave two election-reset
    events. *)
Theorem resetElection_twice (w : World) :
  broadcasts (exec resetElection w) = broadcasts w ++ [ElectionReset]
  /\ resetElection (exec resetElection w)
     = broadcast ElectionReset (exec resetElection w)
  /\ broadcasts (run [ResetElection; ResetElection] w)
     = broadcasts w ++ [ElectionReset; ElectionReset].
Proof.
  destruct (resetElection_effect w) as (_ & Hrun & Hm & Hr & Hb & Hq & _).
  assert (Hagain : resetElection (exec resetElection w)
                   = broadcast ElectionReset (exec resetElection w)).
  { by apply resetElection_again. }
  split; [exact Hb|]. split; [exact Hagain|].
  unfold run. simpl. unfold exec in *. rewrite Hagain.
  unfold broadcast, modify. simpl. rewrite Hb.
  by rewrite <- app_assoc.
Qed.

(** ** C10 and C5: crashNode *)

Lemma crashNode_skips n f w :
  (get n (nodes w) = None
   \/ exists node, get n (nodes w) = Some node /\ status node = crashed) ->
  crashNode n f w = (Returns tt, w).
Proof.
  intros [Hn | (node & Hn & Hs)]; unfold crashNode; unfold_monad; simpl;
    rewrite Hn; simpl; [done|].
  by rewrite decide_True.
Qed.

Lemma mutate_mutate k f g m : mutate k f (mutate k g m) = mutate k (f ∘ g) m.
Proof.
  induction m as [|[k0 n0] m IH]; simpl; [done|].
  destruct (decide (k0 = k)) as [->|Hne]; simpl.
  - by rewrite decide_True.
  - rewrite decide_False by done. by rewrite IH.
Qed.

Lemma mutate_ext k f g m :
  (forall node, get k m = Some node -> f node = g node) ->
  mutate k f m = mutate k g m.
Proof.
  induction m as [|[k0 n0] m IH]; simpl; [done|]. intros Hfg.
  destruct (decide (k0 = k)) as [->|Hne].
  - by rewrite Hfg.
  - by rewrite IH.
Qed.

Lemma crashNode_run n f w node :
  get n (nodes w) = Some node ->
  status node <> crashed ->
  crashNode n f w =
    if bool_decide (status node = leader) then
      (release (currentDatabase w) f ;; broadcast (LeaderLost n))
        (crash_local n node w)
    else (Returns tt, crash_local n node w).
Proof.
  intros Hn Hs. unfold crashNode. unfold_monad. simpl.
  rewrite Hn. simpl. rewrite decide_False by done.
  assert (Hnodes :
    mutate n (with_lease None)
      (mutate n (with_status crashed)
         (mutate n (with_competitionTimer None)
            (mutate n (with_heartbeatTimer None) (nodes w))))
    = mutate n crashed_node (nodes w)).
  { rewrite !mutate_mutate. apply mutate_ext. by intros [] _. }
  unfold crash_local.
  destruct (heartbeatTimer node), (competitionTimer node); simpl;
    rewrite Hnodes; destruct (bool_decide (status node = leader)); simpl;
    reflexivity.
Qed.

Lemma release_effect db f w :
  fst (release db f w) = Returns tt
  /\ engine_view (snd (release db f w)) = engine_view w
  /\ calls (snd (release db f w)) = calls w ++ release_calls db w.
Proof.
  unfold release_calls.
  destruct db; simpl.
  - unfold releaseMongoLock. unfold_monad. unfold_servers. simpl.
    destruct (leaderCollection w); simpl; [|done].
    destruct f; simpl; by rewrite <- app_assoc.
  - unfold releaseRedisLock. unfold_monad. unfold_servers. simpl.
    destruct (redisClient w); simpl; [|done].
    destruct f; simpl; by rewrite <- app_assoc.
Qed.

(** C10.  When the id is not in the registry or the node is already
    crashed, [crashNode] returns at once and the world is the same: no node
    changes, no timer is cleared, no primitive is invoked, no command is
    sent, nothing is broadcast.  Hence a second [crashNode] on the same id
    does nothing: the world after two calls is the world after one. *)
Theorem crashNode_noop_idempotent (n : string) (f f' : Fault) (w : World) :
  ((get n (nodes w) = None
    \/ exists node, get n (nodes w) = Some node /\ status node = crashed) ->
   crashNode n f w = (Returns tt, w))
  /\ crashNode n f' (exec (crashNode n f) w) = (Returns tt, exec (crashNode n f) w).
Proof.
  split; [apply crashNode_skips|].
  destruct (get n (nodes w)) as [node|] eqn:Hn.
  - destruct (decide (status node = crashed)) as [Hs|Hs].
    + unfold exec. rewrite (crashNode_skips n f w) by eauto. simpl.
      apply crashNode_skips. eauto.
    + apply crashNode_skips. right. exists (crashed_node node).
      split; [|done].
      unfold exec. rewrite (crashNode_run n f w node Hn Hs).
      assert (Hlocal : get n (nodes (crash_local n node w)) = Some (crashed_node node)).
      { unfold crash_local. simpl. by rewrite get_mutate_eq, Hn. }
      destruct (bool_decide (status node = leader)); simpl; [|done].
      unfold bind, broadcast, modify.
      destruct (release_effect (currentDatabase w) f (crash_local n node w))
        as (Hr & Hv & _).
      destruct (release _ f (crash_local n node w)) as [r w1]; simpl in *.
      subst r. simpl. unfold engine_view in Hv.
      injection Hv as Hv _ _ _ _ _. by rewrite Hv.
  - unfold exec. rewrite (crashNode_skips n f w) by eauto. simpl.
    apply crashNode_skips. eauto.
Qed.

Lemma crashNode_noop_idempotent_witness :
  crashNode "node-9" Completes (initial ∅ ∅) = (Returns tt, initial ∅ ∅)
  /\ crashNode "node-2" Completes (exec (crashNode "node-2" Completes) (initial ∅ ∅))
     = (Returns tt, exec (crashNode "node-2" Completes) (initial ∅ ∅)).
Proof.
  split.
  - apply (proj1 (crashNode_noop_idempotent "node-9" Completes Completes (initial ∅ ∅))).
    left. reflexivity.
  - apply (proj2 (crashNode_noop_idempotent "node-2" Completes Completes (initial ∅ ∅))).
Defined.

(** C5.  [crashNode n] on a registered node that is not crashed returns
    normally; it clears the node's heartbeat and competition timers (their
    handles are no longer armed, the other timers are untouched), leaves
    the node crashed with no lease and no timer handle, and broadcasts
    node-crashed.  When the node was the leader, and only then, it invokes
    [release] on the current backend and then broadcasts leader-lost, which
    therefore follows node-crashed; otherwise no primitive is invoked and
    the servers are untouched. *)
Theorem crashNode_spec (n : string) (f : Fault) (w : World) (node : Node) :
  get n (nodes w) = Some node ->
  status node <> crashed ->
  let w' := exec (crashNode n f) w in
  outcome (crashNode n f) w = Returns tt
  /\ get n (nodes w') = Some (crashed_node node)
  /\ timers w' = cancel (competitionTimer node) (cancel (heartbeatTimer node) (timers w))
  /\ (forall t, heartbeatTimer node = Some t \/ competitionTimer node = Some t ->
      timers w' !! t = None)
  /\ broadcasts w' =
       broadcasts w ++ NodeCrashed n ::
         (if bool_decide (status node = leader) then [LeaderLost n] else [])
  /\ calls w' =
       calls w ++
         (if bool_decide (status node = leader)
          then release_calls (currentDatabase w) w else [])
  /\ (status node <> leader ->
      mongoServer w' = mongoServer w /\ redisServer w' = redisServer w).
Proof.
  intros Hn Hs. cbv zeta. unfold exec, outcome.
  rewrite (crashNode_run n f w node Hn Hs).
  assert (Htimers : forall t,
            heartbeatTimer node = Some t \/ competitionTimer node = Some t ->
            cancel (competitionTimer node) (cancel (heartbeatTimer node) (timers w)) !! t
            = None).
  { intros t [Ht|Ht]; rewrite Ht; simpl.
    - destruct (competitionTimer node) as [c|]; simpl.
      + rewrite lookup_delete. case_decide; [done|]. apply lookup_delete_eq.
      + apply lookup_delete_eq.
    - apply lookup_delete_eq. }
  destruct (bool_decide (status node = leader)) eqn:Hl; simpl.
  - unfold bind, broadcast, modify.
    destruct (release_effect (currentDatabase w) f (crash_local n node w))
      as (Hr & Hv & Hc).
    destruct (release _ f (crash_local n node w)) as [r w1]; simpl in *.
    subst r. simpl. unfold engine_view in Hv. simpl in Hv.
    injection Hv as Hnodes Htm _ Hb _ _.
    rewrite Hnodes, Htm, Hb, Hc.
    split_and!; try done.
    + by rewrite get_mutate_eq, Hn.
    + by rewrite <- app_assoc.
    + intros Hnl. by apply bool_decide_eq_true in Hl.
  - split_and!; try done.
    + by rewrite get_mutate_eq, Hn.
    + by rewrite app_nil_r.
Qed.

Lemma crashNode_spec_witness :
  broadcasts (exec (crashNode "node-1" Completes) node1_leads)
  = [NodeCrashed "node-1"; LeaderLost "node-1"]
  /\ calls (exec (crashNode "node-1" Completes) node1_leads)
     = [Release mongodb; Sent MongoDeleteOne]
  /\ timers (exec (crashNode "node-1" Completes) node1_leads) !! 7%nat = None.
Proof.
  destruct (crashNode_spec "node-1" Completes node1_leads
              (mkNode "node-1" leader (Some 10000%Z) (Some 7%nat) None))
    as (_ & _ & _ & Ht & Hb & Hc & _).
  - reflexivity.
  - discriminate.
  - split; [exact Hb|]. split; [exact Hc|].
    apply Ht. left. reflexivity.
Defined.

(** ** startNodeCompetition *)

Lemma startNodeCompetition_run n j w node :
  get n (nodes w) = Some node ->
  status node <> crashed ->
  startNodeCompetition n j w = (Returns tt, competing_world n j w).
Proof.
  intros Hn Hs. unfold startNodeCompetition. unfold_monad. simpl.
  rewrite Hn. simpl. rewrite decide_False by done.
  unfold competing_world. rewrite mutate_mutate.
  rewrite (mutate_ext n _ (competing_node (nextTimer w))); [done|].
  by intros [] _.
Qed.

(** ** C6: a heartbeat that is not renewed *)

Lemma heartbeatTick_not_renewed n o w node :
  running w = true ->
  get n (nodes w) = Some node ->
  status node = leader ->
  fst (renew (currentDatabase w) n (now1 o) (now2 o) (fault1 o) (fault2 o) w)
  = Returns false ->
  heartbeatTick n o w =
    startNodeCompetition n (jitter o)
      (demoted n node
         (snd (renew (currentDatabase w) n (now1 o) (now2 o) (fault1 o) (fault2 o) w))).
Proof.
  intros Hr Hn Hs Hren.
  pose proof (renew_engine_view (currentDatabase w) n (now1 o) (now2 o)
                (fault1 o) (fault2 o) w) as Hview.
  unfold heartbeatTick. unfold_monad. simpl.
  rewrite Hr, Hn, Hs. simpl.
  destruct (renew _ _ _ _ _ _ w) as [[b|e] w1]; simpl in *; [|discriminate].
  injection Hren as ->. simpl.
  unfold engine_view in Hview. injection Hview as Hnodes Htm _ _ _ _.
  rewrite !get_mutate_eq. rewrite Hnodes, Hn. simpl.
  assert (Hmut :
    mutate n (with_heartbeatTimer None)
      (mutate n (with_lease None) (mutate n (with_status follower) (nodes w)))
    = mutate n demoted_node (nodes w)).
  { rewrite !mutate_mutate. apply mutate_ext. by intros [] _. }
  unfold demoted. rewrite Hnodes.
  destruct (heartbeatTimer node) as [h|]; simpl; rewrite Hmut;
    unfold set_broadcasts, set_nodes, set_timers; simpl;
    rewrite <- !app_assoc; reflexivity.
Qed.

(** C6.  When the heartbeat of a leader finds its renewal answered false,
    the engine clears the heartbeat interval and the node's handle on it,
    makes the node a follower without a lease, broadcasts leader-lost and
    then the follower update, and calls [startNodeCompetition] at once: the
    node is competing when the callback ends, its next attempt is armed
    with the jitter as delay (less than [JITTER_BOUND], hence less than
    [RETRY_DELAY]), and no retry timer with the delay [RETRY_DELAY] has
    been armed. *)
Theorem heartbeat_failure_recompetes (n : string) (o : Oracle) (w : World) (node : Node) :
  running w = true ->
  get n (nodes w) = Some node ->
  status node = leader ->
  fst (renew (currentDatabase w) n (now1 o) (now2 o) (fault1 o) (fault2 o) w)
  = Returns false ->
  let w1 := snd (renew (currentDatabase w) n (now1 o) (now2 o) (fault1 o) (fault2 o) w) in
  let wf := demoted n node w1 in
  let w' := exec (heartbeatTick n o) w in
  heartbeatTick n o w = startNodeCompetition n (jitter o) wf
  /\ get n (nodes wf) = Some (demoted_node node)
  /\ timers wf = cancel (heartbeatTimer node) (timers w)
  /\ broadcasts wf = broadcasts w ++ [LeaderLost n; NodeUpdate n follower None]
  /\ get n (nodes w') =
       Some (mkNode (id node) competing None None (Some (nextTimer w)))
  /\ timers w' =
       <[nextTimer w := mkTimer (CompetitionAttempt n) (jitter o) false]>
         (cancel (heartbeatTimer node) (timers w))
  /\ broadcasts w' =
       broadcasts w ++
         [LeaderLost n; NodeUpdate n follower None; NodeUpdate n competing None]
  /\ (forall t tm, timers w' !! t = Some tm ->
      callback tm = CompetitionRetry n -> timers w !! t = Some tm)
  /\ ((0 <= jitter o < JITTER_BOUND)%Z ->
      exists tm, timers w' !! nextTimer w = Some tm
                 /\ callback tm = CompetitionAttempt n
                 /\ (delay tm < RETRY_DELAY)%Z).
Proof.
  intros Hr Hn Hs Hren. cbv zeta. unfold exec.
  rewrite (heartbeatTick_not_renewed n o w node Hr Hn Hs Hren).
  pose proof (renew_engine_view (currentDatabase w) n (now1 o) (now2 o)
                (fault1 o) (fault2 o) w) as Hview.
  destruct (renew _ _ _ _ _ _ w) as [r w1]; simpl in *.
  unfold engine_view in Hview. injection Hview as Hnodes Htm Hnext Hb _ _.
  assert (Hwf : get n (nodes (demoted n node w1)) = Some (demoted_node node)).
  { unfold demoted. simpl. by rewrite get_mutate_eq, Hnodes, Hn. }
  split; [done|]. split; [exact Hwf|].
  split; [by unfold demoted; simpl; rewrite Htm|].
  split; [by unfold demoted; simpl; rewrite Hb|].
  rewrite (startNodeCompetition_run n (jitter o) _ _ Hwf) by done.
  unfold competing_world, demoted. simpl. rewrite Hnodes, Htm, Hnext, Hb.
  assert (Htimers : forall t tm,
            <[nextTimer w := mkTimer (CompetitionAttempt n) (jitter o) false]>
              (cancel (heartbeatTimer node) (timers w)) !! t = Some tm ->
            callback tm = CompetitionRetry n -> timers w !! t = Some tm).
  { intros t tm. rewrite lookup_insert. case_decide.
    - intros [= <-]. discriminate.
    - destruct (heartbeatTimer node) as [h|]; simpl; [|done].
      rewrite lookup_delete. by case_decide. }
  split_and!; try done.
  - rewrite !get_mutate_eq, Hn. reflexivity.
  - by rewrite <- app_assoc.
  - intros Hj. eexists. split; [apply lookup_insert_eq|]. split; [done|].
    simpl. unfold JITTER_BOUND, RETRY_DELAY in *. lia.
Qed.

Lemma heartbeat_failure_recompetes_witness :
  let w' := exec (heartbeatTick "node-1" tick_at_21000) node1_usurped in
  get "node-1" (nodes w') = Some (mkNode "node-1" competing None None (Some 8%nat))
  /\ timers w' !! 8%nat = Some (mkTimer (CompetitionAttempt "node-1") 1500 false)
  /\ timers w' !! 7%nat = None
  /\ broadcasts w' =
       [LeaderLost "node-1"; NodeUpdate "node-1" follower None;
        NodeUpdate "node-1" competing None].
Proof.
  destruct (heartbeat_failure_recompetes "node-1" tick_at_21000 node1_usurped
              (mkNode "node-1" leader (Some 10000%Z) (Some 7%nat) None))
    as (_ & _ & _ & _ & Hn & Ht & Hb & _ & _).
  - reflexivity.
  - reflexivity.
  - reflexivity.
  - vm_compute. reflexivity.
  - cbv zeta. split; [exact Hn|]. rewrite Ht.
    split; [apply lookup_insert_eq|]. split; [|exact Hb].
    rewrite lookup_insert_ne by (vm_compute; lia).
    apply lookup_delete_eq.
Defined.

(** ** C2: the lease field and the leader status *)

(** C2 fails on [startElection].  While node-1 leads, the invariant holds;
    [startElection] then makes node-1 compete and broadcasts its lease as
    null, but the lease field of the node keeps the expiry of the lost
    leadership. *)
Theorem startElection_keeps_stale_lease :
  lease_iff_leader (run elected_on_redis (initial ∅ ∅))
  /\ get "node-1" (nodes (run elected_on_redis (initial ∅ ∅)))
     = Some (mkNode "node-1" leader (Some 10005%Z) (Some 5%nat) (Some 0%nat))
  /\ get "node-1" (nodes (run restarted_on_mongo (initial ∅ ∅)))
     = Some (mkNode "node-1" competing (Some 10005%Z) None (Some 6%nat))
  /\ NodeUpdate "node-1" competing None
     ∈ drop (length (broadcasts (run elected_on_redis (initial ∅ ∅))))
         (broadcasts (run restarted_on_mongo (initial ∅ ∅)))
  /\ ~ lease_iff_leader (run restarted_on_mongo (initial ∅ ∅)).
Proof.
  assert (H1 : get "node-1" (nodes (run restarted_on_mongo (initial ∅ ∅)))
               = Some (mkNode "node-1" competing (Some 10005%Z) None (Some 6%nat))).
  { vm_compute. reflexivity. }
  split.
  { assert (Hnodes : nodes (run elected_on_redis (initial ∅ ∅)) =
      [("node-1", mkNode "node-1" leader (Some 10005%Z) (Some 5%nat) (Some 0%nat));
       ("node-2", mkNode "node-2" competing None None (Some 1%nat));
       ("node-3", mkNode "node-3" competing None None (Some 2%nat));
       ("node-4", mkNode "node-4" competing None None (Some 3%nat));
       ("node-5", mkNode "node-5" competing None None (Some 4%nat))])
      by (vm_compute; reflexivity).
    intros k node Hk. rewrite Hnodes in Hk.
    apply get_Some_elem, list_elem_of_In in Hk. simpl in Hk.
    destruct Hk as [Hk|Hk].
    { injection Hk as <- <-. simpl. split; intros H; [exact eq_refl | discriminate]. }
    repeat (destruct Hk as [Hk|Hk];
            [injection Hk as <- <-; simpl; split; intros H;
             [exfalso; apply H; exact eq_refl | discriminate H]|]).
    destruct Hk. }
  split; [vm_compute; reflexivity|]. split; [exact H1|].
  split.
  - apply list_elem_of_In. vm_compute. tauto.
  - intros Hinv. destruct (Hinv _ _ H1) as [Hl _].
    simpl in Hl. by specialize (Hl ltac:(discriminate)).
Qed.

(** ** C1: concurrent acquisitions *)

Lemma wins_app cs1 cs2 : wins (cs1 ++ cs2) = (wins cs1 + wins cs2)%nat.
Proof. unfold wins, winners. by rewrite filter_app, length_app. Qed.

Lemma wins_cons c cs : wins (c :: cs) = ((if won c then 1 else 0) + wins cs)%nat.
Proof.
  unfold wins, winners. destruct (won c) eqn:Hc.
  - by rewrite filter_cons_True.
  - rewrite filter_cons_False; [done|]. by rewrite Hc.
Qed.

Lemma wins_insert cs i c c' :
  cs !! i = Some c ->
  won c = false ->
  wins (<[i := c']> cs) = (wins cs + (if won c' then 1 else 0))%nat.
Proof.
  intros Hi Hc.
  rewrite insert_take_drop by (by eapply lookup_lt_Some).
  rewrite <- (take_drop_middle cs i c Hi) at 3.
  rewrite !wins_app, !wins_cons, Hc. lia.
Qed.

Lemma elem_of_insert_inv (cs : list Caller) i c' c'' :
  c'' ∈ <[i := c']> cs -> c'' = c' \/ c'' ∈ cs.
Proof.
  revert i. induction cs as [|c0 cs IH]; intros i; simpl; [by right|].
  destruct i as [|i]; simpl; intros Hin.
  - apply elem_of_cons in Hin as [->|Hin]; [by left|].
    right. by apply list_elem_of_further.
  - apply elem_of_cons in Hin as [->|Hin].
    + right. apply list_elem_of_here.
    + destruct (IH i Hin) as [->|Hin']; [by left|].
      right. by apply list_elem_of_further.
Qed.

(** Stepping a call keeps its clock: a bound on all clocks stays one. *)
Lemma clocks_bounded_insert (P : Z -> Prop) (cs : list Caller) i c c' :
  cs !! i = Some c ->
  clock c' = clock c ->
  (forall x, x ∈ cs -> P (clock x)) ->
  forall x, x ∈ <[i := c']> cs -> P (clock x).
Proof.
  intros Hi Hclk Hall x Hin.
  destruct (elem_of_insert_inv cs i c' x Hin) as [->|Hin'].
  - rewrite Hclk. apply Hall. by eapply list_elem_of_lookup_2.
  - by apply Hall.
Qed.

Lemma within_a_lease_insert (cs : list Caller) i c c' :
  cs !! i = Some c ->
  clock c' = clock c ->
  within_a_lease cs ->
  within_a_lease (<[i := c']> cs).
Proof.
  intros Hi Hclk Hw x y Hx Hy.
  assert (Hin : c ∈ cs) by (by eapply list_elem_of_lookup_2).
  destruct (elem_of_insert_inv cs i c' x Hx) as [->|Hx'];
    destruct (elem_of_insert_inv cs i c' y Hy) as [->|Hy'];
    rewrite ?Hclk; by apply Hw.
Qed.

Lemma settled_quiet db cs i c c' s :
  cs !! i = Some c ->
  clock c' = clock c ->
  won c = false ->
  won c' = false ->
  settled db cs s ->
  settled db (<[i := c']> cs) s.
Proof.
  intros Hi Hclk Hc Hc' [H0|[H1 Hlive]].
  - left. rewrite (wins_insert cs i c c' Hi Hc), Hc'. lia.
  - right. split; [rewrite (wins_insert cs i c c' Hi Hc), Hc'; lia|].
    destruct db.
    + destruct Hlive as (d & Hd & Hall). exists d. split; [done|].
      apply (clocks_bounded_insert (fun t => (t <= expiresAt d)%Z) cs i c c'); done.
    + destruct Hlive as (e & He & Hall). exists e. split; [done|].
      apply (clocks_bounded_insert (fun t => redis_live t e = true) cs i c c'); done.
Qed.

Lemma settled_lost db cs i c c' s' :
  cs !! i = Some c ->
  won c = false ->
  won c' = false ->
  wins cs = 0%nat ->
  settled db (<[i := c']> cs) s'.
Proof.
  intros Hi Hc Hc' H0. left.
  rewrite (wins_insert cs i c c' Hi Hc), Hc'. lia.
Qed.

Lemma settled_same db cs i c c' s :
  cs !! i = Some c ->
  c' = c ->
  settled db cs s ->
  settled db (<[i := c']> cs) s.
Proof. intros Hi -> Hs. by rewrite list_insert_id. Qed.

(** A call that finds the MongoDB record absent or expired for its clock
    shows that nobody has won yet. *)
Lemma settled_mongo_free cs c s :
  c ∈ cs ->
  settled mongodb cs s ->
  match fst s !! "current-leader" with
  | Some d => (expiresAt d < clock c)%Z
  | None => True
  end ->
  wins cs = 0%nat.
Proof.
  intros Hin [H0|[_ (d & Hd & Hall)]] Hfree; [done|].
  rewrite Hd in Hfree. specialize (Hall c Hin). lia.
Qed.

Lemma settled_redis_free cs c s :
  c ∈ cs ->
  settled redis cs s ->
  redis_lookup (clock c) "leader" (snd s) = None ->
  wins cs = 0%nat.
Proof.
  intros Hin [H0|[_ (e & He & Hall)]] Hfree; [done|].
  unfold redis_lookup in Hfree. rewrite He in Hfree.
  by rewrite (Hall c Hin) in Hfree.
Qed.

Lemma settled_mongo_won cs i c (s : Servers) coll' :
  cs !! i = Some c ->
  won c = false ->
  within_a_lease cs ->
  wins cs = 0%nat ->
  coll' !! "current-leader"
  = Some (mkLeaderDocument (who c) (clock c + LEASE_DURATION) (clock c)) ->
  settled mongodb (<[i := mkCaller (who c) (clock c) (Returned true)]> cs) (coll', snd s).
Proof.
  intros Hi Hc Hw H0 Hdoc. right.
  split; [rewrite (wins_insert cs i c _ Hi Hc); simpl; lia|].
  eexists. split; [exact Hdoc|]. simpl.
  assert (Hin : c ∈ cs) by (by eapply list_elem_of_lookup_2).
  apply (clocks_bounded_insert
           (fun t => (t <= clock c + LEASE_DURATION)%Z) cs i c); [done|done|].
  intros x Hx. specialize (Hw c x Hin Hx). lia.
Qed.

Lemma settled_redis_won cs i c (s : Servers) db' :
  cs !! i = Some c ->
  won c = false ->
  within_a_lease cs ->
  wins cs = 0%nat ->
  db' !! "leader" = Some (mkRedisEntry (who c) (Some (clock c + LEASE_DURATION)%Z)) ->
  settled redis (<[i := mkCaller (who c) (clock c) (Returned true)]> cs) (fst s, db').
Proof.
  intros Hi Hc Hw H0 He. right.
  split; [rewrite (wins_insert cs i c _ Hi Hc); simpl; lia|].
  eexists. split; [exact He|]. simpl.
  assert (Hin : c ∈ cs) by (by eapply list_elem_of_lookup_2).
  apply (clocks_bounded_insert
           (fun t => redis_live t
                       (mkRedisEntry (who c) (Some (clock c + LEASE_DURATION)%Z)) = true)
           cs i c); [done|done|].
  intros x Hx. specialize (Hw c x Hin Hx).
  unfold redis_live. simpl. by apply bool_decide_eq_true_2.
Qed.

Lemma caller_step_settled db cs i c f s :
  cs !! i = Some c ->
  within_a_lease cs ->
  settled db cs s ->
  settled db (<[i := fst (caller_step db c f s)]> cs) (snd (caller_step db c f s)).
Proof.
  intros Hi Hw Hs.
  assert (Hin : c ∈ cs) by (by eapply list_elem_of_lookup_2).
  destruct s as [coll rdb].
  destruct db; unfold caller_step; simpl.
  - unfold mongo_step.
    destruct (progress c) as [| |b] eqn:Hp.
    + assert (Hc : won c = false) by (unfold won; by rewrite Hp).
      unfold deliver, findOneAndUpdate, lease_expired.
      destruct (coll !! "current-leader") as [d|] eqn:Hd.
      * rewrite orb_false_r.
        destruct (bool_decide (expiresAt d < clock c)%Z) eqn:He.
        -- apply bool_decide_eq_true in He.
           assert (H0 : wins cs = 0%nat).
           { eapply (settled_mongo_free cs c); [done|exact Hs|].
             simpl. by rewrite Hd. }
           destruct f; simpl.
           ++ rewrite bool_decide_eq_true_2 by done.
              apply (settled_mongo_won cs i c (coll, rdb)); try done.
              apply lookup_insert_eq.
           ++ by eapply settled_lost.
           ++ by eapply settled_lost.
        -- destruct f; simpl; by eapply settled_quiet.
      * destruct f; simpl; by eapply settled_quiet.
    + assert (Hc : won c = false) by (unfold won; by rewrite Hp).
      unfold deliver, insertOne.
      destruct (coll !! "current-leader") as [d|] eqn:Hd.
      * destruct f; simpl; by eapply settled_quiet.
      * assert (H0 : wins cs = 0%nat).
        { eapply (settled_mongo_free cs c); [done|exact Hs|].
          simpl. by rewrite Hd. }
        destruct f; simpl.
        -- apply (settled_mongo_won cs i c (coll, rdb)); try done.
           apply lookup_insert_eq.
        -- by eapply settled_lost.
        -- by eapply settled_lost.
    + simpl. eapply settled_same; [done| |done].
      destruct c; simpl in *. by subst.
  - unfold redis_step.
    destruct (progress c) as [| |b] eqn:Hp.
    + assert (Hc : won c = false) by (unfold won; by rewrite Hp).
      unfold deliver, redis_set_nx_px.
      destruct (redis_lookup (clock c) "leader" rdb) as [e|] eqn:He.
      * destruct f; simpl; by eapply settled_quiet.
      * assert (H0 : wins cs = 0%nat).
        { by eapply (settled_redis_free cs c (coll, rdb)). }
        destruct f; simpl.
        -- apply (settled_redis_won cs i c (coll, rdb)); try done.
           apply lookup_insert_eq.
        -- by eapply settled_lost.
        -- by eapply settled_lost.
    + simpl. eapply settled_same; [done| |done].
      destruct c; simpl in *. by subst.
    + simpl. eapply settled_same; [done| |done].
      destruct c; simpl in *. by subst.
Qed.

Lemma wins_enter reqs : wins (enter <$> reqs) = 0%nat.
Proof.
  induction reqs as [|req reqs IH]; [done|].
  rewrite fmap_cons, wins_cons, IH. done.
Qed.

Lemma caller_step_clock db c f s : clock (fst (caller_step db c f s)) = clock c.
Proof. by destruct db. Qed.

Lemma race_settled db sched cs s :
  within_a_lease cs ->
  settled db cs s ->
  within_a_lease (fst (race db sched (cs, s)))
  /\ settled db (fst (race db sched (cs, s))) (snd (race db sched (cs, s))).
Proof.
  revert cs s. unfold race.
  induction sched as [|[i f] sched IH]; intros cs s Hw Hs; simpl; [done|].
  assert (Hstep : race_step db (cs, s) (i, f) =
                  match cs !! i with
                  | Some c => (<[i := fst (caller_step db c f s)]> cs,
                               snd (caller_step db c f s))
                  | None => (cs, s)
                  end) by reflexivity.
  rewrite Hstep. clear Hstep.
  destruct (cs !! i) as [c|] eqn:Hi.
  - apply IH.
    + eapply within_a_lease_insert; [done| |done]. apply caller_step_clock.
    + by apply caller_step_settled.
  - by apply IH.
Qed.

(** A call that runs alone is the primitive: its two steps, one after the
    other, give the result of [tryAcquireMongoLeadership] and leave the
    collection it leaves; the single step of the Redis call does the same
    for [tryAcquireRedisLeadership]. *)
Lemma tryAcquire_as_steps n t f1 f2 w :
  leaderCollection w = Some LeaderCollectionHandle ->
  redisClient w = Some RedisClientHandle ->
  (let r1 := mongo_step (mkCaller n t Calling) f1 (mongoServer w) in
   let r2 := mongo_step (mkCaller n t (fst r1)) f2 (snd r1) in
   exists b, fst r2 = Returned b
             /\ fst (tryAcquire mongodb n t f1 f2 w) = Returns b
             /\ mongoServer (snd (tryAcquire mongodb n t f1 f2 w)) = snd r2)
  /\ (let r := redis_step (mkCaller n t Calling) f1 (redisServer w) in
      exists b, fst r = Returned b
                /\ fst (tryAcquire redis n t f1 f2 w) = Returns b
                /\ redisServer (snd (tryAcquire redis n t f1 f2 w)) = snd r).
Proof.
  intros Hc Hr. split.
  - cbv zeta. unfold mongo_step, deliver. simpl.
    unfold tryAcquireMongoLeadership. unfold_monad. unfold_servers. simpl.
    rewrite Hc. simpl.
    destruct (mongoServer w !! "current-leader") as [d|] eqn:Hd; simpl.
    + destruct (bool_decide (expiresAt d < t)%Z || false); simpl.
      * destruct f1; simpl; eexists; done.
      * destruct f1; simpl; try (eexists; done);
          destruct f2; simpl; rewrite ?Hd; simpl;
          repeat case_decide; eexists; done.
    + destruct f1; simpl; try (eexists; done);
        destruct f2; simpl; rewrite ?Hd; simpl;
        repeat case_decide; eexists; done.
  - cbv zeta. unfold redis_step, deliver. simpl.
    unfold tryAcquireRedisLeadership. unfold_monad. unfold_servers. simpl.
    rewrite Hr. simpl.
    destruct f1; simpl; try (eexists; done);
      destruct (redis_lookup t "leader" (redisServer w)); simpl; eexists; done.
Qed.

(** C1, amended.  Mutual exclusion is that of the lease record.  Any number
    of calls of [tryAcquire] race on one backend, their commands
    interleaved in any order and met by any transport errors; when no clock
    reading is a lease duration or more after another, at most one call
    returns true.  A call that runs alone is the primitive of the source. *)
Theorem at_most_one_acquires
    (db : Database) (reqs : list (string * Z)) (sched : list (nat * Fault)) (s : Servers) :
  within_a_lease (enter <$> reqs) ->
  (wins (fst (race db sched (enter <$> reqs, s))) <= 1)%nat
  /\ forall n t f1 f2 w,
      leaderCollection w = Some LeaderCollectionHandle ->
      redisClient w = Some RedisClientHandle ->
      let c := enter (n, t) in
      let s0 := (mongoServer w, redisServer w) in
      let r1 := caller_step db c f1 s0 in
      let r2 := caller_step db (fst r1) f2 (snd r1) in
      exists b, progress (fst r2) = Returned b
                /\ fst (tryAcquire db n t f1 f2 w) = Returns b
                /\ match db with
                   | mongodb => mongoServer (snd (tryAcquire db n t f1 f2 w)) = fst (snd r2)
                   | redis => redisServer (snd (tryAcquire db n t f1 f2 w)) = snd (snd r2)
                   end.
Proof.
  intros Hw. split.
  - destruct (race_settled db sched (enter <$> reqs) s Hw) as [_ Hs].
    { left. apply wins_enter. }
    destruct Hs as [H0|[H1 _]]; lia.
  - intros n t f1 f2 w Hc Hr. cbv zeta.
    destruct (tryAcquire_as_steps n t f1 f2 w Hc Hr) as [Hm Hrd].
    destruct db; simpl.
    + exact Hm.
    + destruct Hrd as (b & Hb & Hres & Hst). exists b.
      unfold redis_step in *. simpl in *.
      destruct (deliver f1 _ (redisServer w)) as [[result|e] db']; simpl in *;
        injection Hb as <-; done.
Qed.

Example race_on_empty_collection :
  progress <$> fst (race mongodb updates_then_inserts (enter <$> two_callers, (∅, ∅)))
  = [Returned false; Returned true].
Proof. vm_compute. reflexivity. Qed.

(** Calls a lease duration apart are successive leaders, not racers: both
    return true. *)
Example successive_leaders :
  progress <$> fst (race mongodb one_after_the_other (enter <$> a_lease_apart, (∅, ∅)))
  = [Returned true; Returned true].
Proof. vm_compute. reflexivity. Qed.

Lemma at_most_one_acquires_witness :
  within_a_lease (enter <$> two_callers)
  /\ (wins (fst (race mongodb updates_then_inserts (enter <$> two_callers, (∅, ∅)))) <= 1)%nat.
Proof.
  assert (Hw : within_a_lease (enter <$> two_callers)).
  { intros c c' Hc Hc'.
    apply list_elem_of_In in Hc, Hc'. simpl in Hc, Hc'.
    destruct Hc as [<-|[<-|[]]], Hc' as [<-|[<-|[]]];
      simpl; unfold LEASE_DURATION; lia. }
  split; [exact Hw|].
  apply (proj1 (at_most_one_acquires mongodb two_callers updates_then_inserts (∅, ∅) Hw)).
Defined.

(** *** The registry is not the record *)

(** C1, as worded for the registry, fails: at time 11200 node-1 and node-2
    both have the status leader and a lease field later than 11200, while
    the record belongs to node-2. *)
Lemma at_most_one_leader_at_counterexample :
  let w := run slow_leader (initial ∅ ∅) in
  get "node-1" (nodes w) = Some (mkNode "node-1" leader (Some 11400%Z) (Some 2%nat) (Some 0%nat))
  /\ get "node-2" (nodes w) = Some (mkNode "node-2" leader (Some 21115%Z) (Some 7%nat) (Some 6%nat))
  /\ mongoServer w !! "current-leader" = Some (mkLeaderDocument "node-2" 21110 11110)
  /\ ~ at_most_one_leader_at 11200 w.
Proof.
  assert (H1 : get "node-1" (nodes (run slow_leader (initial ∅ ∅)))
               = Some (mkNode "node-1" leader (Some 11400%Z) (Some 2%nat) (Some 0%nat)))
    by (vm_compute; reflexivity).
  assert (H2 : get "node-2" (nodes (run slow_leader (initial ∅ ∅)))
               = Some (mkNode "node-2" leader (Some 21115%Z) (Some 7%nat) (Some 6%nat)))
    by (vm_compute; reflexivity).
  cbv zeta. split; [exact H1|]. split; [exact H2|].
  split; [vm_compute; reflexivity|].
  intros Hone.
  assert (Heq : "node-1" = "node-2").
  { apply (Hone _ _ _ _ H1 H2).
    - split; [done|]. eexists. split; [done|]. simpl. lia.
    - split; [done|]. eexists. split; [done|]. simpl. lia. }
  discriminate.
Qed.

(** *** Where the invariant of C2 is kept

    The other operations keep the invariant from any world;
    [startNodeCompetition] keeps it when the node has no lease, which is
    what its callers other than [startElection] make sure of. *)

Lemma lease_iff_leader_same_fields w w' :
  (forall k, status <$> get k (nodes w') = status <$> get k (nodes w)) ->
  (forall k, lease <$> get k (nodes w') = lease <$> get k (nodes w)) ->
  lease_iff_leader w -> lease_iff_leader w'.
Proof.
  intros Hst Hl Hinv k node' Hk.
  specialize (Hst k). specialize (Hl k). rewrite Hk in Hst, Hl.
  destruct (get k (nodes w)) as [node|] eqn:Hk0; [|done].
  simpl in *. injection Hst as Hst. injection Hl as Hl.
  rewrite Hst, Hl. by apply (Hinv k).
Qed.

Lemma lease_iff_leader_mutate n f w w' :
  nodes w' = mutate n f (nodes w) ->
  (forall node, get n (nodes w) = Some node ->
     (lease (f node) <> None <-> status (f node) = leader)) ->
  lease_iff_leader w -> lease_iff_leader w'.
Proof.
  intros Hn Hf Hinv k node' Hk. rewrite Hn, get_mutate in Hk.
  destruct (decide (n = k)) as [->|Hne]; [|by apply (Hinv k)].
  destruct (get k (nodes w)) as [node|] eqn:Hk0; [|done].
  simpl in Hk. injection Hk as <-. by apply Hf.
Qed.

Lemma lease_iff_leader_stopElection w :
  lease_iff_leader w -> lease_iff_leader (exec stopElection w).
Proof.
  destruct (stopElection_effect w) as (_ & _ & _ & _ & _ & _ & _ & Hst & Hl & _).
  by apply lease_iff_leader_same_fields.
Qed.

Lemma lease_iff_leader_resetElection w :
  lease_iff_leader (exec resetElection w).
Proof.
  destruct (resetElection_effect w) as (_ & _ & _ & _ & _ & Hq & _).
  intros k node Hk. destruct (Hq k node Hk) as (Hs & Hl & _).
  rewrite Hs, Hl. split; [done | discriminate].
Qed.

Lemma lease_iff_leader_crashNode n f w :
  lease_iff_leader w -> lease_iff_leader (exec (crashNode n f) w).
Proof.
  intros Hinv. unfold exec.
  destruct (get n (nodes w)) as [node|] eqn:Hn.
  - destruct (decide (status node = crashed)) as [Hs|Hs].
    + rewrite (crashNode_skips n f w); [done|]. eauto.
    + rewrite (crashNode_run n f w node Hn Hs).
      apply (lease_iff_leader_mutate n crashed_node w); [|done..].
      destruct (bool_decide (status node = leader)); simpl; [|done].
      unfold bind, broadcast, modify.
      destruct (release_effect (currentDatabase w) f (crash_local n node w))
        as (Hr & Hv & _).
      destruct (release _ f (crash_local n node w)) as [r w1]; simpl in *.
      subst r. simpl. unfold engine_view in Hv. by injection Hv as -> _ _ _ _ _.
  - rewrite (crashNode_skips n f w); [done|]. eauto.
Qed.

Lemma lease_iff_leader_startNodeCompetition n j w :
  (forall node, get n (nodes w) = Some node -> lease node = None) ->
  lease_iff_leader w -> lease_iff_leader (exec (startNodeCompetition n j) w).
Proof.
  intros Hnone Hinv. unfold exec.
  destruct (get n (nodes w)) as [node|] eqn:Hn.
  - destruct (decide (status node = crashed)) as [Hs|Hs].
    + unfold startNodeCompetition. unfold_monad. simpl. rewrite Hn. simpl.
      by rewrite decide_True.
    + rewrite (startNodeCompetition_run n j w node Hn Hs). simpl.
      apply (lease_iff_leader_mutate n (competing_node (nextTimer w)) w); [done| |done].
      intros node' Hn'. rewrite Hn in Hn'. simpl.
      rewrite (Hnone node' Hn'). split; [done|discriminate].
  - unfold startNodeCompetition. unfold_monad. simpl. by rewrite Hn.
Qed.

Lemma lease_iff_leader_heartbeatTick n o w :
  lease_iff_leader w -> lease_iff_leader (exec (heartbeatTick n o) w).
Proof.
  intros Hinv.
  destruct (get n (nodes w)) as [node|] eqn:Hn; cycle 1.
  { unfold exec, heartbeatTick. unfold_monad. simpl. by rewrite Hn. }
  destruct (negb (running w) || bool_decide (status node = crashed)
            || negb (bool_decide (status node = leader))) eqn:Hguard.
  { unfold exec, heartbeatTick. unfold_monad. simpl. rewrite Hn. simpl.
    rewrite Hguard. by destruct (heartbeatTimer node). }
  apply orb_false_iff in Hguard as [Hguard Hl].
  apply orb_false_iff in Hguard as [Hr _].
  apply negb_false_iff in Hr, Hl. apply bool_decide_eq_true in Hl.
  destruct (renew_total (currentDatabase w) n (now1 o) (now2 o) (fault1 o) (fault2 o) w)
    as [[|] Hb].
  - pose proof (renew_engine_view (currentDatabase w) n (now1 o) (now2 o)
                  (fault1 o) (fault2 o) w) as Hview.
    unfold exec, heartbeatTick. unfold_monad. simpl.
    rewrite Hr, Hn, Hl. simpl.
    destruct (renew _ _ _ _ _ _ w) as [r w1]; simpl in *. subst r. simpl.
    unfold engine_view in Hview. injection Hview as Hnodes _ _ _ _ _.
    eapply (lease_iff_leader_mutate n _ w); [simpl; by rewrite Hnodes| |done].
    intros node' Hn'. rewrite Hn in Hn'. injection Hn' as <-. simpl.
    split; [done | discriminate].
  - unfold exec. rewrite (heartbeatTick_not_renewed n o w node Hr Hn Hl Hb).
    pose proof (renew_engine_view (currentDatabase w) n (now1 o) (now2 o)
                  (fault1 o) (fault2 o) w) as Hview.
    destruct (renew _ _ _ _ _ _ w) as [r w1]; simpl in *.
    unfold engine_view in Hview. injection Hview as Hnodes _ _ _ _ _.
    apply lease_iff_leader_startNodeCompetition.
    + intros node'. unfold demoted. simpl. rewrite get_mutate_eq, Hnodes, Hn.
      simpl. by intros [= <-].
    + apply (lease_iff_leader_mutate n demoted_node w);
        [by unfold demoted; simpl; rewrite Hnodes| |done].
      intros node' _. simpl. split; [done | discriminate].
Qed.

(** * Further properties of the engine *)

(** ** The primitives on each backend *)

(** X1.  With the Redis client initialised and no transport failure,
    [tryAcquireRedisLeadership n] at server time [now] returns true exactly
    when the key is absent or expired; it then stores the owner [n] with
    the expiry [now + LEASE_DURATION], overwriting an expired entry.
    Otherwise it returns false, having sent one SET, and nothing else
    changes. *)
Theorem tryAcquireRedisLeadership_spec (n : string) (now : Z) (w : World) :
  redisClient w = Some RedisClientHandle ->
  let r := tryAcquireRedisLeadership n now Completes w in
  (fst r = Returns true <-> redis_lookup now "leader" (redisServer w) = None)
  /\ (redis_lookup now "leader" (redisServer w) = None ->
      redisServer (snd r) =
        <["leader" := mkRedisEntry n (Some (now + LEASE_DURATION)%Z)]> (redisServer w))
  /\ (redis_lookup now "leader" (redisServer w) <> None ->
      fst r = Returns false
      /\ snd r = set_calls (calls w ++ [TryAcquire redis n; Sent RedisSet]) w).
Proof.
  intros Hc r. subst r.
  unfold tryAcquireRedisLeadership. unfold_monad. unfold_servers. simpl.
  rewrite Hc. simpl.
  destruct (redis_lookup now "leader" (redisServer w)) as [e|] eqn:He; simpl.
  - split; [split; discriminate|]. split; [discriminate|]. intros _.
    split; [done|]. destruct w; simpl in *. by rewrite <- !app_assoc.
  - split; [done|]. split; [done|]. by intros [].
Qed.

Lemma tryAcquireRedisLeadership_spec_witness :
  fst (tryAcquireRedisLeadership "node-2" 10000 Completes held_by_node1) = Returns true
  <-> redis_lookup 10000 "leader" (redisServer held_by_node1) = None.
Proof.
  apply (tryAcquireRedisLeadership_spec "node-2" 10000 held_by_node1). reflexivity.
Defined.

Lemma tryAcquire_connected db n t f1 f2 w :
  fst (tryAcquire db n t f1 f2 w) = Returns true -> connected db w.
Proof.
  destruct db; simpl.
  - unfold tryAcquireMongoLeadership. unfold_monad. simpl.
    destruct (leaderCollection w) as [[]|]; simpl; [intros _; reflexivity | discriminate].
  - unfold tryAcquireRedisLeadership. unfold_monad. simpl.
    destruct (redisClient w) as [[]|]; simpl; [intros _; reflexivity | discriminate].
Qed.

Lemma tryAcquire_keeps_handles db n t f1 f2 w :
  leaderCollection (snd (tryAcquire db n t f1 f2 w)) = leaderCollection w
  /\ redisClient (snd (tryAcquire db n t f1 f2 w)) = redisClient w.
Proof.
  destruct db; simpl.
  - unfold tryAcquireMongoLeadership. unfold_monad. unfold_servers. simpl.
    destruct (leaderCollection w) eqn:Hc; simpl; [|by rewrite Hc].
    destruct (mongoServer w !! "current-leader") as [d|] eqn:Hd; simpl.
    + destruct (bool_decide (expiresAt d < t)%Z || false); simpl;
        destruct f1; simpl; rewrite ?Hc; try done;
        destruct f2; simpl; rewrite ?Hd; simpl; repeat case_decide;
        simpl; rewrite ?Hc; done.
    + destruct f1; simpl; rewrite ?Hc; try done;
        destruct f2; simpl; rewrite ?Hd; simpl; repeat case_decide;
        simpl; rewrite ?Hc; done.
  - unfold tryAcquireRedisLeadership. unfold_monad. unfold_servers. simpl.
    destruct (redisClient w) eqn:Hc; simpl; [|by rewrite Hc].
    destruct f1; simpl; rewrite ?Hc; try done.
    destruct (redis_lookup t "leader" (redisServer w)); simpl; by rewrite ?Hc.
Qed.

Lemma release_run db w :
  connected db w ->
  release db Completes w =
    (Returns tt,
     match db with
     | mongodb =>
         set_mongoServer (delete "current-leader" (mongoServer w))
           (set_calls (calls w ++ [Release mongodb; Sent MongoDeleteOne]) w)
     | redis =>
         set_redisServer (delete "leader" (redisServer w))
           (set_calls (calls w ++ [Release redis; Sent RedisDel]) w)
     end).
Proof.
  destruct db; simpl; intros Hc.
  - unfold releaseMongoLock. unfold_monad. unfold_servers. simpl.
    rewrite Hc. simpl. f_equal. destruct w; simpl. by rewrite <- !app_assoc.
  - unfold releaseRedisLock. unfold_monad. unfold_servers. simpl.
    rewrite Hc. simpl. f_equal. destruct w; simpl. by rewrite <- !app_assoc.
Qed.

Lemma tryAcquire_on_no_record db n t w :
  connected db w ->
  no_record db w ->
  fst (tryAcquire db n t Completes Completes w) = Returns true.
Proof.
  destruct db; simpl; intros Hc Hn.
  - unfold tryAcquireMongoLeadership. unfold_monad. unfold_servers. simpl.
    rewrite Hc. simpl. rewrite Hn. simpl. by rewrite Hn.
  - unfold tryAcquireRedisLeadership. unfold_monad. unfold_servers. simpl.
    rewrite Hc. simpl. unfold redis_lookup. by rewrite Hn.
Qed.

(** X2.  [release] is not fenced by the owner: with the connection
    initialised and the delete completing, it removes the lease record of
    its backend whoever owns it and whether or not it has expired, and
    leaves the other backend alone.  The next [tryAcquire], by any node at
    any time, then succeeds; a second [release] changes no server. *)
Theorem release_frees_the_lease (db : Database) (n : string) (t : Z) (w : World) :
  connected db w ->
  let w1 := exec (release db Completes) w in
  outcome (release db Completes) w = Returns tt
  /\ no_record db w1
  /\ match db with
     | mongodb => redisServer w1 = redisServer w
     | redis => mongoServer w1 = mongoServer w
     end
  /\ fst (tryAcquire db n t Completes Completes w1) = Returns true
  /\ mongoServer (exec (release db Completes) w1) = mongoServer w1
  /\ redisServer (exec (release db Completes) w1) = redisServer w1.
Proof.
  intros Hc. cbv zeta. unfold exec, outcome.
  rewrite (release_run db w Hc). simpl.
  assert (Hc1 : connected db
            match db with
            | mongodb =>
                set_mongoServer (delete "current-leader" (mongoServer w))
                  (set_calls (calls w ++ [Release mongodb; Sent MongoDeleteOne]) w)
            | redis =>
                set_redisServer (delete "leader" (redisServer w))
                  (set_calls (calls w ++ [Release redis; Sent RedisDel]) w)
            end) by (by destruct db).
  assert (Hn1 : no_record db
            match db with
            | mongodb =>
                set_mongoServer (delete "current-leader" (mongoServer w))
                  (set_calls (calls w ++ [Release mongodb; Sent MongoDeleteOne]) w)
            | redis =>
                set_redisServer (delete "leader" (redisServer w))
                  (set_calls (calls w ++ [Release redis; Sent RedisDel]) w)
            end) by (destruct db; simpl; apply lookup_delete_eq).
  split; [done|]. split; [exact Hn1|]. split; [by destruct db|].
  split; [by apply tryAcquire_on_no_record|].
  rewrite (release_run db _ Hc1).
  destruct db; simpl; split; try done; by rewrite delete_delete_eq.
Qed.

Lemma release_frees_the_lease_witness :
  no_record mongodb (exec (release mongodb Completes) held_by_node1)
  /\ fst (tryAcquire mongodb "node-2" 1 Completes Completes
            (exec (release mongodb Completes) held_by_node1)) = Returns true.
Proof.
  destruct (release_frees_the_lease mongodb "node-2" 1 held_by_node1)
    as (_ & Hn & _ & Ha & _).
  - reflexivity.
  - split; [exact Hn | exact Ha].
Defined.

(** X3.  A lease just acquired by [n] can be renewed by [n], and the two
    backends differ on an expired lease.  On MongoDB the renewal matches on
    the owner only: it succeeds at any later time, also after [expiresAt],
    and moves the expiry to [t1 + LEASE_DURATION].  On Redis it succeeds
    while the key is alive at both commands, and returns false, changing
    nothing, once the key has expired. *)
Theorem renew_after_acquire
    (db : Database) (n : string) (t : Z) (f1 f2 : Fault) (t1 t2 : Z) (w : World) :
  fst (tryAcquire db n t f1 f2 w) = Returns true ->
  let w1 := snd (tryAcquire db n t f1 f2 w) in
  let r := renew db n t1 t2 Completes Completes w1 in
  match db with
  | mongodb =>
      fst r = Returns true
      /\ mongoServer (snd r) !! "current-leader"
         = Some (mkLeaderDocument n (t1 + LEASE_DURATION) t1)
  | redis =>
      ((t1 < t + LEASE_DURATION)%Z -> (t2 < t + LEASE_DURATION)%Z ->
       fst r = Returns true
       /\ redisServer (snd r) !! "leader"
          = Some (mkRedisEntry n (Some (t2 + LEASE_DURATION)%Z)))
      /\ ((t + LEASE_DURATION <= t1)%Z ->
          fst r = Returns false /\ redisServer (snd r) = redisServer w1)
  end.
Proof.
  intros Hacq. cbv zeta.
  pose proof (tryAcquire_connected _ _ _ _ _ _ Hacq) as Hc.
  destruct (tryAcquire_keeps_handles db n t f1 f2 w) as [Hlc Hrc].
  destruct db; simpl in *.
  - pose proof (tryAcquireMongoLeadership_owner _ _ _ _ _ Hacq) as Hrec.
    rewrite (renewMongoLease_run n t1 _ _ (eq_trans Hlc Hc) Hrec eq_refl). simpl.
    split; [done|]. apply lookup_insert_eq.
  - pose proof (tryAcquireRedisLeadership_owner _ _ _ _ Hacq) as Hrec.
    split.
    + intros H1 H2.
      rewrite (renewRedisLease_run n t1 t2 _
                 (mkRedisEntry n (Some (t + LEASE_DURATION)%Z)) (eq_trans Hrc Hc)).
      * simpl. split; [done|]. apply lookup_insert_eq.
      * unfold redis_lookup, redis_live. rewrite Hrec. simpl.
        by rewrite bool_decide_eq_true_2.
      * unfold redis_lookup, redis_live. rewrite Hrec. simpl.
        by rewrite bool_decide_eq_true_2.
      * done.
    + intros Hexp.
      destruct (renewRedisLease_refused n t1 t2 Completes Completes
                  (snd (tryAcquireRedisLeadership n t f1 w))) as (Hr & _ & Hs).
      * unfold redis_owner, redis_lookup, redis_live. rewrite Hrec. simpl.
        rewrite bool_decide_eq_false_2 by lia. done.
      * done.
Qed.

Lemma renew_after_acquire_witness :
  fst (renew mongodb "node-2" 99999 99999 Completes Completes
         (snd (tryAcquire mongodb "node-2" 20000 Completes Completes held_by_node1)))
  = Returns true
  /\ fst (renew redis "node-2" 99999 99999 Completes Completes
            (snd (tryAcquire redis "node-2" 20000 Completes Completes held_by_node1)))
     = Returns false.
Proof.
  split.
  - apply (renew_after_acquire mongodb "node-2" 20000 Completes Completes 99999 99999
             held_by_node1).
    vm_compute. reflexivity.
  - apply (renew_after_acquire redis "node-2" 20000 Completes Completes 99999 99999
             held_by_node1).
    + vm_compute. reflexivity.
    + unfold LEASE_DURATION. lia.
Defined.



(** ** Timer callbacks *)

Lemma tryAcquire_fst_indep db n t f1 f2 w w' :
  leaderCollection w' = leaderCollection w ->
  redisClient w' = redisClient w ->
  mongoServer w' = mongoServer w ->
  redisServer w' = redisServer w ->
  fst (tryAcquire db n t f1 f2 w') = fst (tryAcquire db n t f1 f2 w).
Proof.
  intros Hlc Hrc Hm Hr. destruct w, w'; simpl in *. subst.
  destruct db; simpl.
  - unfold tryAcquireMongoLeadership. unfold_monad. unfold_servers. simpl.
    match goal with |- context [match ?c with Some _ => _ | None => _ end] =>
      destruct c; simpl; [|done] end.
    match goal with |- context [?m !! "current-leader"] =>
      destruct (m !! "current-leader") as [d|] eqn:Hd; simpl end.
    + destruct (bool_decide (expiresAt d < t)%Z || false); simpl;
        destruct f1; simpl; try done;
        destruct f2; simpl; rewrite ?Hd; simpl; repeat case_decide; done.
    + destruct f1; simpl; try done;
        destruct f2; simpl; rewrite ?Hd; simpl; repeat case_decide; done.
  - unfold tryAcquireRedisLeadership. unfold_monad. unfold_servers. simpl.
    match goal with |- context [match ?c with Some _ => _ | None => _ end] =>
      destruct c; simpl; [|done] end.
    destruct f1; simpl; try done.
    match goal with |- context [redis_lookup t "leader" ?m] =>
      destruct (redis_lookup t "leader" m); done end.
Qed.

Lemma fire_run t o w timer :
  timers w !! t = Some timer ->
  fire t o w =
    match callback timer with
    | CompetitionAttempt n => competitionAttempt n o
    | CompetitionRetry n => competitionRetry n (jitter o)
    | HeartbeatTick n => heartbeatTick n o
    end (if repeats timer then w else set_timers (delete t (timers w)) w).
Proof.
  intros Ht. unfold fire. unfold_monad. simpl. rewrite Ht.
  by destruct (repeats timer).
Qed.

Lemma competitionAttempt_won n o w node :
  running w = true ->
  get n (nodes w) = Some node ->
  status node <> crashed ->
  fst (tryAcquire (currentDatabase w) n (now1 o) (fault1 o) (fault2 o) w) = Returns true ->
  let w' := snd (competitionAttempt n o w) in
  get n (nodes w')
  = Some (elected_node (now3 o + LEASE_DURATION) (nextTimer w) node)
  /\ timers w' =
       <[nextTimer w := mkTimer (HeartbeatTick n) HEARTBEAT_INTERVAL true]> (timers w)
  /\ broadcasts w' =
       broadcasts w ++
         [NodeUpdate n leader (Some (now3 o + LEASE_DURATION)%Z); LeaderElected n]
  /\ (forall k, k <> n -> get k (nodes w') = get k (nodes w)).
Proof.
  intros Hr Hn Hs Hacq.
  pose proof (tryAcquire_engine_view (currentDatabase w) n (now1 o) (fault1 o) (fault2 o) w)
    as Hview.
  cbv zeta. unfold competitionAttempt, startHeartbeat. unfold_monad. simpl.
  rewrite Hr, Hn. simpl. rewrite bool_decide_eq_false_2 by done. simpl.
  destruct (tryAcquire _ _ _ _ _ w) as [[b|e] w1]; simpl in *; [|discriminate].
  injection Hacq as ->. simpl.
  unfold engine_view in Hview. injection Hview as Hnodes Htm Hnext Hb _ _.
  rewrite !get_mutate_eq, Hnodes, Hn. simpl.
  rewrite !get_mutate_eq, Hn. simpl. rewrite Htm, Hnext, Hb.
  split; [done|]. split; [done|]. split; [by rewrite <- app_assoc|].
  intros k Hk. by rewrite !get_mutate_ne.
Qed.

(** X5.  When the competition timer of a running node fires and the
    acquisition is answered true, the node becomes leader with the lease
    [Date.now() + LEASE_DURATION] read after the answer; the engine
    broadcasts the leader update and then leader-elected; the fired timer
    is gone and one heartbeat interval of [HEARTBEAT_INTERVAL] is armed,
    its handle stored in the node; no other node changes. *)
Theorem fire_attempt_won (t : nat) (n : string) (d : Z) (o : Oracle) (w : World) (node : Node) :
  timers w !! t = Some (mkTimer (CompetitionAttempt n) d false) ->
  running w = true ->
  get n (nodes w) = Some node ->
  status node <> crashed ->
  fst (tryAcquire (currentDatabase w) n (now1 o) (fault1 o) (fault2 o) w) = Returns true ->
  let w' := exec (fire t o) w in
  get n (nodes w')
  = Some (elected_node (now3 o + LEASE_DURATION) (nextTimer w) node)
  /\ timers w' =
       <[nextTimer w := mkTimer (HeartbeatTick n) HEARTBEAT_INTERVAL true]>
         (delete t (timers w))
  /\ broadcasts w' =
       broadcasts w ++
         [NodeUpdate n leader (Some (now3 o + LEASE_DURATION)%Z); LeaderElected n]
  /\ (forall k, k <> n -> get k (nodes w') = get k (nodes w)).
Proof.
  intros Ht Hr Hn Hs Hacq. cbv zeta. unfold exec.
  rewrite (fire_run t o w _ Ht). simpl.
  assert (Hacq' : fst (tryAcquire (currentDatabase w) n (now1 o) (fault1 o) (fault2 o)
                         (set_timers (delete t (timers w)) w)) = Returns true).
  { rewrite <- Hacq. by apply tryAcquire_fst_indep. }
  destruct (competitionAttempt_won n o (set_timers (delete t (timers w)) w) node
              Hr Hn Hs Hacq') as (H1 & H2 & H3 & H4).
  split_and!; assumption.
Qed.

Lemma fire_attempt_won_witness :
  let w' := exec (fire 0 wins_at_0) (exec (startElection redis prompt) (initial ∅ ∅)) in
  get "node-1" (nodes w')
  = Some (mkNode "node-1" leader (Some 10005%Z) (Some 5%nat) (Some 0%nat))
  /\ broadcasts w' =
       broadcasts (exec (startElection redis prompt) (initial ∅ ∅)) ++
         [NodeUpdate "node-1" leader (Some 10005%Z); LeaderElected "node-1"].
Proof.
  destruct (fire_attempt_won 0 "node-1" 0 wins_at_0
              (exec (startElection redis prompt) (initial ∅ ∅))
              (mkNode "node-1" competing None None (Some 0%nat)))
    as (Hn & _ & Hb & _).
  - vm_compute. reflexivity.
  - vm_compute. reflexivity.
  - vm_compute. reflexivity.
  - discriminate.
  - vm_compute. reflexivity.
  - cbv zeta. split; [exact Hn | exact Hb].
Defined.

Lemma renewMongoLease_record n t f w :
  fst (renewMongoLease n t f w) = Returns true ->
  mongoServer (snd (renewMongoLease n t f w)) !! "current-leader"
  = Some (mkLeaderDocument n (t + LEASE_DURATION) t).
Proof.
  unfold renewMongoLease. unfold_monad. unfold_servers. simpl.
  destruct (leaderCollection w); simpl; [|discriminate].
  destruct f; simpl; try discriminate.
  destruct (mongoServer w !! "current-leader") as [d|] eqn:Hd; simpl;
    [|discriminate].
  destruct (bool_decide (nodeId d = n)) eqn:Ho; simpl.
  - apply bool_decide_eq_true in Ho. intros _.
    rewrite lookup_insert_eq. by rewrite Ho.
  - intros H. injection H as H. discriminate H.
Qed.

(** X6.  When the heartbeat of a running leader fires and the renewal is
    answered true, only the lease field of that node changes: it becomes
    [Date.now() + LEASE_DURATION], read after the answer; the status stays
    leader, the update is broadcast, the interval stays armed and no timer
    is created.  On MongoDB the record then expires at
    [now1 + LEASE_DURATION], the clock read before the command: the lease
    field of the node is later than the record by the time the renewal
    took. *)
Theorem fire_heartbeat_renewed
    (t : nat) (n : string) (d : Z) (o : Oracle) (w : World) (node : Node) :
  timers w !! t = Some (mkTimer (HeartbeatTick n) d true) ->
  running w = true ->
  get n (nodes w) = Some node ->
  status node = leader ->
  fst (renew (currentDatabase w) n (now1 o) (now2 o) (fault1 o) (fault2 o) w)
  = Returns true ->
  let w' := exec (fire t o) w in
  get n (nodes w') = Some (with_lease (Some (now3 o + LEASE_DURATION)%Z) node)
  /\ (forall k, k <> n -> get k (nodes w') = get k (nodes w))
  /\ timers w' = timers w
  /\ nextTimer w' = nextTimer w
  /\ broadcasts w' =
       broadcasts w ++ [NodeUpdate n leader (Some (now3 o + LEASE_DURATION)%Z)]
  /\ (currentDatabase w = mongodb ->
      mongoServer w' !! "current-leader"
      = Some (mkLeaderDocument n (now1 o + LEASE_DURATION) (now1 o))).
Proof.
  intros Ht Hr Hn Hs Hren. cbv zeta. unfold exec.
  rewrite (fire_run t o w _ Ht). simpl.
  pose proof (renew_engine_view (currentDatabase w) n (now1 o) (now2 o)
                (fault1 o) (fault2 o) w) as Hview.
  assert (Hrec : currentDatabase w = mongodb ->
            mongoServer (snd (renew (currentDatabase w) n (now1 o) (now2 o)
                                (fault1 o) (fault2 o) w)) !! "current-leader"
            = Some (mkLeaderDocument n (now1 o + LEASE_DURATION) (now1 o))).
  { intros Hdb. rewrite Hdb in *. simpl in *. by apply renewMongoLease_record. }
  unfold heartbeatTick. unfold_monad. simpl.
  rewrite Hr, Hn, Hs. simpl.
  destruct (renew _ _ _ _ _ _ w) as [[b|e] w1]; simpl in *; [|discriminate].
  injection Hren as ->. simpl.
  unfold engine_view in Hview. injection Hview as Hnodes Htm Hnext Hb _ _.
  rewrite !get_mutate_eq, Hnodes, Hn. simpl.
  split; [done|]. split; [intros k Hk; by rewrite get_mutate_ne|].
  split_and!; try done. by rewrite Hb.
Qed.

Lemma fire_heartbeat_renewed_witness :
  let o := mkOracle 3000 3000 3040 Completes Completes 0 in
  let w' := exec (fire 7 o) node1_leads in
  get "node-1" (nodes w')
  = Some (mkNode "node-1" leader (Some 13040%Z) (Some 7%nat) None)
  /\ mongoServer w' !! "current-leader"
     = Some (mkLeaderDocument "node-1" 13000 3000).
Proof.
  destruct (fire_heartbeat_renewed 7 "node-1" HEARTBEAT_INTERVAL
              (mkOracle 3000 3000 3040 Completes Completes 0) node1_leads
              (mkNode "node-1" leader (Some 10000%Z) (Some 7%nat) None))
    as (Hn & _ & _ & _ & _ & Hrec).
  - reflexivity.
  - reflexivity.
  - reflexivity.
  - reflexivity.
  - vm_compute. reflexivity.
  - cbv zeta. split; [exact Hn|]. apply Hrec. reflexivity.
Defined.

(** X7.  The guards at the head of the three timer callbacks.  A timer that
    fires while no election is running, or whose node is crashed, shows
    nothing: no node changes, nothing is broadcast, no primitive is invoked
    and no command sent, no timer is created; at most timers are
    cleared. *)
Theorem fire_guarded (t : nat) (o : Oracle) (w : World) :
  (running w = false
   \/ exists timer node,
        timers w !! t = Some timer
        /\ get (callback_node (callback timer)) (nodes w) = Some node
        /\ status node = crashed) ->
  nothing_happened w (exec (fire t o) w).
Proof.
  intros Hguard. unfold exec.
  destruct (timers w !! t) as [timer|] eqn:Ht; cycle 1.
  { unfold fire. unfold_monad. simpl. rewrite Ht. simpl.
    unfold nothing_happened. split_and!; done. }
  rewrite (fire_run t o w timer Ht).
  assert (Hskip : forall n, callback_node (callback timer) = n ->
            negb (running w)
            || match get n (nodes w) with
               | Some node => bool_decide (status node = crashed)
               | None => true
               end = true).
  { intros n Hcb. destruct Hguard as [->|(timer' & node & Ht' & Hn & Hs)]; [done|].
    injection Ht' as <-. rewrite Hcb in Hn. rewrite Hn.
    rewrite bool_decide_eq_true_2 by done. apply orb_true_r. }
  assert (Hshrink : forall t' tm,
            (if repeats timer then timers w else delete t (timers w)) !! t' = Some tm ->
            timers w !! t' = Some tm).
  { intros t' tm. destruct (repeats timer); [done|].
    rewrite lookup_delete. by case_decide. }
  destruct (callback timer) as [n|n|n] eqn:Hcb; simpl in Hskip;
    specialize (Hskip n eq_refl).
  - unfold competitionAttempt. unfold_monad.
    destruct (repeats timer); simpl;
      destruct (get n (nodes w)) as [node|]; simpl;
      try (unfold nothing_happened; simpl; split_and!; done);
      destruct (negb (running w) || bool_decide (status node = crashed)); simpl;
      try discriminate; unfold nothing_happened; simpl; split_and!; done.
  - unfold competitionRetry. unfold_monad.
    destruct (repeats timer); simpl;
      destruct (get n (nodes w)) as [node|]; simpl;
      try (unfold nothing_happened; simpl; split_and!; done);
      destruct (running w), (bool_decide (status node = crashed)); simpl in *;
      try discriminate; unfold nothing_happened; simpl; split_and!; done.
  - unfold heartbeatTick. unfold_monad.
    destruct (repeats timer); simpl;
      destruct (get n (nodes w)) as [node|]; simpl;
      try (unfold nothing_happened; simpl; split_and!; done);
      destruct (negb (running w) || bool_decide (status node = crashed)); simpl;
      try discriminate;
      destruct (heartbeatTimer node) as [h|]; simpl;
      unfold nothing_happened; simpl; split_and!; try done;
      intros t' tm; rewrite !lookup_delete; repeat case_decide; done.
Qed.

Lemma fire_guarded_witness :
  nothing_happened
    (exec stopElection node1_leads)
    (exec (fire 7 wins_at_0) (exec stopElection node1_leads))
  /\ nothing_happened
       (set_nodes (mutate "node-1" (with_status crashed) (nodes node1_leads)) node1_leads)
       (exec (fire 7 wins_at_0)
          (set_nodes (mutate "node-1" (with_status crashed) (nodes node1_leads))
             node1_leads)).
Proof.
  split.
  - apply fire_guarded. left. vm_compute. reflexivity.
  - apply fire_guarded. right.
    exists (mkTimer (HeartbeatTick "node-1") HEARTBEAT_INTERVAL true),
           (mkNode "node-1" crashed (Some 10000%Z) (Some 7%nat) None).
    split; [reflexivity|]. split; reflexivity.
Defined.

(** ** The competition callback around its [await] *)

(** The callback is its guard, the primitive, and the continuation. *)
Lemma competitionAttempt_split n o w node :
  running w = true ->
  get n (nodes w) = Some node ->
  status node <> crashed ->
  competitionAttempt n o w =
    (acquired <- tryAcquire (currentDatabase w) n (now1 o) (fault1 o) (fault2 o) ;;
     attempt_continuation n acquired (now3 o)) w.
Proof.
  intros Hr Hn Hs. unfold competitionAttempt, node_of, bind, gets. simpl.
  rewrite Hr, Hn. simpl. rewrite bool_decide_eq_false_2 by done. simpl.
  destruct (tryAcquire _ _ _ _ _ w) as [[[|]|e] w1]; reflexivity.
Qed.

Lemma attempt_continuation_won n now3 w node :
  get n (nodes w) = Some node ->
  let w' := exec (attempt_continuation n true now3) w in
  get n (nodes w') = Some (elected_node (now3 + LEASE_DURATION) (nextTimer w) node)
  /\ timers w' =
       <[nextTimer w := mkTimer (HeartbeatTick n) HEARTBEAT_INTERVAL true]> (timers w)
  /\ broadcasts w' =
       broadcasts w ++ [NodeUpdate n leader (Some (now3 + LEASE_DURATION)%Z); LeaderElected n]
  /\ mongoServer w' = mongoServer w
  /\ redisServer w' = redisServer w
  /\ calls w' = calls w
  /\ running w' = running w.
Proof.
  intros Hn. cbv zeta. unfold exec, attempt_continuation, startHeartbeat.
  unfold_monad. simpl.
  rewrite !get_mutate_eq, Hn. simpl.
  split; [by rewrite !get_mutate_eq, Hn|].
  split; [done|]. split; [by rewrite <- app_assoc|]. done.
Qed.

(** X8.  The competition callback does not look at [running] or at the
    node's status again after its [await].  When [crashNode] runs while
    the acquisition of a competing node is in flight and the acquisition is
    answered true, the node is crashed without [release] being invoked (it
    was not leader yet), and the continuation then makes the crashed node
    leader: lease set, leader-elected broadcast after node-crashed, a
    heartbeat interval armed, the lease record still owned by the node. *)
Theorem crash_during_acquisition
    (n : string) (o : Oracle) (f : Fault) (w : World) (node : Node) :
  running w = true ->
  get n (nodes w) = Some node ->
  status node = competing ->
  fst (tryAcquire (currentDatabase w) n (now1 o) (fault1 o) (fault2 o) w) = Returns true ->
  let w1 := snd (tryAcquire (currentDatabase w) n (now1 o) (fault1 o) (fault2 o) w) in
  let w2 := exec (crashNode n f) w1 in
  let w3 := exec (attempt_continuation n true (now3 o)) w2 in
  competitionAttempt n o w = attempt_continuation n true (now3 o) w1
  /\ get n (nodes w2) = Some (crashed_node node)
  /\ calls w2 = calls w1
  /\ get n (nodes w3)
     = Some (mkNode (id node) leader (Some (now3 o + LEASE_DURATION)%Z)
               (Some (nextTimer w)) None)
  /\ timers w3 !! nextTimer w = Some (mkTimer (HeartbeatTick n) HEARTBEAT_INTERVAL true)
  /\ broadcasts w3 =
       broadcasts w ++
         [NodeCrashed n;
          NodeUpdate n leader (Some (now3 o + LEASE_DURATION)%Z);
          LeaderElected n]
  /\ match currentDatabase w with
     | mongodb =>
         mongoServer w3 !! "current-leader"
         = Some (mkLeaderDocument n (now1 o + LEASE_DURATION) (now1 o))
     | redis =>
         redisServer w3 !! "leader"
         = Some (mkRedisEntry n (Some (now1 o + LEASE_DURATION)%Z))
     end.
Proof.
  intros Hr Hn Hs Hacq. cbv zeta.
  pose proof (tryAcquire_engine_view (currentDatabase w) n (now1 o) (fault1 o)
                (fault2 o) w) as Hview.
  assert (Howner :
    match currentDatabase w with
    | mongodb =>
        mongoServer (snd (tryAcquire (currentDatabase w) n (now1 o) (fault1 o)
                            (fault2 o) w)) !! "current-leader"
        = Some (mkLeaderDocument n (now1 o + LEASE_DURATION) (now1 o))
    | redis =>
        redisServer (snd (tryAcquire (currentDatabase w) n (now1 o) (fault1 o)
                            (fault2 o) w)) !! "leader"
        = Some (mkRedisEntry n (Some (now1 o + LEASE_DURATION)%Z))
    end).
  { destruct (currentDatabase w); simpl in *.
    - by apply tryAcquireMongoLeadership_owner.
    - by apply tryAcquireRedisLeadership_owner. }
  assert (Hsplit := competitionAttempt_split n o w node Hr Hn).
  rewrite Hs in Hsplit. specialize (Hsplit ltac:(discriminate)).
  unfold bind in Hsplit. revert Hsplit Hacq Hview Howner.
  generalize (tryAcquire (currentDatabase w) n (now1 o) (fault1 o) (fault2 o) w).
  intros [r w1]. cbn [fst snd]. intros Hsplit -> Hview Howner.
  unfold engine_view in Hview.
  injection Hview as Hnodes Htimers Hnext Hbc Hrun Hdb.
  assert (Hn1 : get n (nodes w1) = Some node) by by rewrite Hnodes.
  assert (Hcrash := crashNode_run n f w1 node Hn1).
  rewrite Hs in Hcrash. specialize (Hcrash ltac:(discriminate)).
  rewrite bool_decide_eq_false_2 in Hcrash by discriminate.
  assert (Hw2 : exec (crashNode n f) w1 = crash_local n node w1)
    by (unfold exec; by rewrite Hcrash).
  rewrite Hw2.
  assert (Hn2 : get n (nodes (crash_local n node w1)) = Some (crashed_node node)).
  { unfold crash_local. simpl. by rewrite get_mutate_eq, Hn1. }
  destruct (attempt_continuation_won n (now3 o) (crash_local n node w1)
              (crashed_node node) Hn2) as (H1 & H2 & H3 & H4 & H5 & _).
  split_and!.
  - exact Hsplit.
  - exact Hn2.
  - reflexivity.
  - rewrite H1. unfold elected_node, crash_local. simpl. by rewrite Hnext.
  - rewrite H2. unfold crash_local. simpl. rewrite Hnext. by rewrite lookup_insert_eq.
  - rewrite H3. unfold crash_local. simpl. rewrite Hbc. by rewrite <- app_assoc.
  - destruct (currentDatabase w).
    + rewrite H4. exact Howner.
    + rewrite H5. exact Howner.
Qed.

Lemma crash_during_acquisition_witness :
  let w := competing_world "node-1" 0 running_on_mongo in
  get "node-1"
    (nodes (exec (attempt_continuation "node-1" true 5)
              (exec (crashNode "node-1" Completes)
                 (snd (tryAcquire mongodb "node-1" 0 Completes Completes w)))))
  = Some (mkNode "node-1" leader (Some 10005%Z) (Some (nextTimer w)) None).
Proof.
  cbv zeta.
  refine (proj1 (proj2 (proj2 (proj2
    (crash_during_acquisition "node-1" wins_at_0 Completes
       (competing_world "node-1" 0 running_on_mongo)
       (mkNode "node-1" competing None None (Some 0%nat)) _ _ _ _))))).
  - reflexivity.
  - reflexivity.
  - reflexivity.
  - vm_compute. reflexivity.
Defined.

(** ** stopElection and resetElection, node by node *)

Lemma cancel_lookup h tm (t : nat) :
  cancel h tm !! t = if decide (h = Some t) then None else (tm : gmap nat Timer) !! t.
Proof.
  destruct h as [t'|]; simpl.
  - case_decide as Heq.
    + injection Heq as ->. apply lookup_delete_eq.
    + apply lookup_delete_ne. congruence.
  - reflexivity.
Qed.

Lemma get_not_key k m : k ∉ m.*1 -> get k m = None.
Proof.
  induction m as [|[k0 n0] m IH]; csimpl; [done|].
  intros Hk. apply not_elem_of_cons in Hk as [Hne Hk].
  rewrite decide_False by done. by apply IH.
Qed.

Lemma clear_node_timers_run k w :
  clear_node_timers k w =
    (Returns tt,
     set_nodes (mutate k disarmed_node (nodes w))
       (set_timers
          match get k (nodes w) with
          | Some node =>
              cancel (competitionTimer node) (cancel (heartbeatTimer node) (timers w))
          | None => timers w
          end w)).
Proof.
  assert (Hnodes :
    mutate k (with_competitionTimer None) (mutate k (with_heartbeatTimer None) (nodes w))
    = mutate k disarmed_node (nodes w)).
  { rewrite mutate_mutate. apply mutate_ext. by intros [] _. }
  unfold clear_node_timers. unfold_monad. simpl.
  destruct (get k (nodes w)) as [node|] eqn:Hk; simpl.
  - destruct (heartbeatTimer node); simpl; rewrite Hk;
      destruct (competitionTimer node); simpl; rewrite Hnodes; try reflexivity;
      unfold set_timers; simpl; by rewrite ?world_eta.
  - rewrite Hk. simpl. rewrite Hnodes. unfold set_timers. simpl. by rewrite world_eta.
Qed.

Lemma handles_disarmed_step w0 seen k w :
  handles_disarmed w0 seen w ->
  fst (clear_node_timers k w) = Returns tt
  /\ handles_disarmed w0 (seen ++ [k]) (snd (clear_node_timers k w)).
Proof.
  intros (Hf & Hk & Hget & Hshrink & Hseen & Hun).
  rewrite clear_node_timers_run. simpl. split; [done|].
  assert (Hcur : forall t,
    match get k (nodes w) with
    | Some node =>
        cancel (competitionTimer node) (cancel (heartbeatTimer node) (timers w))
    | None => timers w
    end !! t
    = if decide (k ∈ seen) then timers w !! t
      else match get k (nodes w0) with
           | Some node => if decide (handle_of node t) then None else timers w !! t
           | None => timers w !! t
           end).
  { intros t. rewrite (Hget k). case_decide as Hin.
    - by destruct (get k (nodes w0)) as [node|].
    - destruct (get k (nodes w0)) as [node|]; simpl; [|done].
      rewrite !cancel_lookup. unfold handle_of.
      repeat case_decide; try done; tauto. }
  unfold handles_disarmed. simpl.
  split; [exact Hf|]. split; [by rewrite mutate_keys|].
  split; [|split; [|split]].
  - intros k'. rewrite get_mutate, (Hget k').
    destruct (decide (k = k')) as [<-|Hne].
    + destruct (decide (k ∈ seen ++ [k])) as [_|Hn].
      * case_decide; [|done]. by destruct (get k (nodes w0)).
      * exfalso. apply Hn, elem_of_app. right. by apply list_elem_of_singleton.
    + destruct (decide (k' ∈ seen)) as [Hin|Hin];
        destruct (decide (k' ∈ seen ++ [k])) as [Hin'|Hin']; try done.
      * exfalso. apply Hin', elem_of_app. by left.
      * exfalso. apply elem_of_app in Hin' as [?|Hk']; [done|].
        apply list_elem_of_singleton in Hk'. congruence.
  - intros t. rewrite Hcur.
    case_decide; [apply Hshrink|].
    destruct (get k (nodes w0)); [|apply Hshrink].
    case_decide; [by left|apply Hshrink].
  - intros k' node t Hin Hk' Hh. rewrite Hcur.
    destruct (decide (k' ∈ seen)) as [Hs|Hs].
    + assert (timers w !! t = None) as Hnone by by apply (Hseen k' node).
      case_decide; [done|]. destruct (get k (nodes w0)); [|done].
      by case_decide.
    + apply elem_of_app in Hin as [?|Hin]; [done|].
      apply list_elem_of_singleton in Hin. subst k'.
      rewrite decide_False by done. rewrite Hk'. by rewrite decide_True.
  - intros t Hnot. rewrite Hcur.
    case_decide; [by apply Hun|].
    destruct (get k (nodes w0)) as [node|] eqn:Hnode; [|by apply Hun].
    case_decide as Hh; [|by apply Hun].
    exfalso. apply Hnot. by exists k, node.
Qed.

Lemma stop_loop w :
  fst (for_each (nodes w).*1 clear_node_timers (set_running false w)) = Returns tt
  /\ handles_disarmed (set_running false w) (nodes w).*1
       (snd (for_each (nodes w).*1 clear_node_timers (set_running false w))).
Proof.
  apply (for_each_hoare (handles_disarmed (set_running false w)) ((nodes w).*1)
           clear_node_timers
           (fun seen x w1 H => handles_disarmed_step (set_running false w) seen x w1 H)).
  unfold handles_disarmed.
  split; [apply same_outside_registry_refl|]. split; [done|].
  split.
  { intros k. destruct (decide (k ∈ [])) as [Hin|_]; [|done].
    by apply elem_of_nil in Hin. }
  split; [by right|]. split; [|done].
  intros k node t Hin. by apply elem_of_nil in Hin.
Qed.

Lemma stopElection_run w :
  stopElection w =
    (Returns tt,
     closed (snd (for_each (nodes w).*1 clear_node_timers (set_running false w)))).
Proof.
  destruct (stop_loop w) as [Hr _].
  unfold stopElection, stopElection_begin, keys, resume_stop, stop_redis_begin, closed.
  unfold_monad. simpl.
  destruct (for_each ((nodes w).*1) clear_node_timers (set_running false w))
    as [r w1]; simpl in *.
  subst r.
  destruct (mongoClient w1) eqn:Em; simpl;
    destruct (redisClient w1) eqn:Er; simpl; rewrite ?Er; reflexivity.
Qed.

Lemma closed_frame w :
  nodes (closed w) = nodes w
  /\ timers (closed w) = timers w
  /\ nextTimer (closed w) = nextTimer w
  /\ mongoServer (closed w) = mongoServer w
  /\ redisServer (closed w) = redisServer w
  /\ broadcasts (closed w) = broadcasts w
  /\ running (closed w) = running w
  /\ currentDatabase (closed w) = currentDatabase w
  /\ suspended (closed w) = suspended w
  /\ mongoClient (closed w) = None
  /\ redisClient (closed w) = None
  /\ leaderCollection (closed w)
     = match mongoClient w with Some _ => None | None => leaderCollection w end.
Proof.
  unfold closed. destruct (mongoClient w) eqn:Em; simpl;
    destruct (redisClient w) eqn:Er; simpl; split_and!; done.
Qed.

Lemma get_keyed (f : Node -> Node) k (m : list (string * Node)) :
  (if decide (k ∈ m.*1) then f <$> get k m else get k m) = f <$> get k m.
Proof. case_decide as Hin; [done|]. by rewrite (get_not_key k m Hin). Qed.

(** X9.  [stopElection] visits every node of the registry: it keeps the
    node's id, status and lease and sets both timer handles to null; every
    timer held by a node is cleared and no other timer is; the lease
    record on either server is left as it is, so a leader that is stopped
    keeps its record until it expires; the collection handle is set to
    null only when a MongoDB client was open. *)
Theorem stopElection_disarms (w : World) :
  let w' := exec stopElection w in
  (nodes w').*1 = (nodes w).*1
  /\ (forall k, get k (nodes w') = disarmed_node <$> get k (nodes w))
  /\ (forall t, named w t -> timers w' !! t = None)
  /\ (forall t, ~ named w t -> timers w' !! t = timers w !! t)
  /\ mongoServer w' = mongoServer w
  /\ redisServer w' = redisServer w
  /\ leaderCollection w'
     = match mongoClient w with Some _ => None | None => leaderCollection w end.
Proof.
  cbv zeta. unfold exec. rewrite stopElection_run. cbn [snd].
  destruct (stop_loop w) as [_ (Hf & Hk & Hget & _ & Hseen & Hun)].
  destruct (closed_frame (snd (for_each (nodes w).*1 clear_node_timers
                                 (set_running false w))))
    as (En & Et & _ & Em & Er & _ & _ & _ & _ & _ & _ & El).
  rewrite En, Et, Em, Er, El.
  unfold same_outside_registry in Hf.
  split; [exact Hk|].
  split; [intros k; rewrite (Hget k); apply (get_keyed disarmed_node k (nodes w))|].
  split.
  { intros t (k & node & Hnode & Hh). apply (Hseen k node t); [|done|done].
    by apply (get_Some_key k (nodes w) node). }
  split; [exact Hun|].
  split; [by apply (f_equal mongoServer) in Hf|].
  split; [by apply (f_equal redisServer) in Hf|].
  apply (f_equal mongoClient) in Hf as Hmc. apply (f_equal leaderCollection) in Hf as Hlc.
  simpl in Hmc, Hlc. by rewrite Hmc, Hlc.
Qed.

Lemma for_each_mutate (f : Node -> Node) (body : string -> M unit) (l : list string) :
  (forall k w, body k w = (Returns tt, set_nodes (mutate k f (nodes w)) w)) ->
  (forall node, f (f node) = f node) ->
  forall w, exists ns,
    for_each l body w = (Returns tt, set_nodes ns w)
    /\ ns.*1 = (nodes w).*1
    /\ forall k, get k ns = if decide (k ∈ l) then f <$> get k (nodes w)
                            else get k (nodes w).
Proof.
  intros Hbody Hidem. induction l as [|x l IH]; intros w.
  - exists (nodes w). simpl. split; [|split].
    + unfold ret, set_nodes. by rewrite world_eta.
    + done.
    + intros k. destruct (decide (k ∈ [])) as [Hin|_]; [|done].
      by apply elem_of_nil in Hin.
  - destruct (IH (set_nodes (mutate x f (nodes w)) w)) as (ns & Hrun & Hkeys & Hget).
    exists ns. simpl. unfold bind. rewrite Hbody, Hrun. simpl in *.
    split; [done|]. split; [by rewrite Hkeys, mutate_keys|].
    intros k. rewrite (Hget k), get_mutate.
    destruct (decide (x = k)) as [<-|Hne].
    + destruct (decide (x ∈ x :: l)) as [_|Hn]; [|exfalso; apply Hn; left].
      case_decide; [|done]. destruct (get x (nodes w)); simpl; [|done].
      by rewrite Hidem.
    + destruct (decide (k ∈ l)) as [Hin|Hin];
        destruct (decide (k ∈ x :: l)) as [Hin'|Hin']; try done.
      * exfalso. apply Hin'. by right.
      * exfalso. apply elem_of_cons in Hin' as [?|?]; [congruence|done].
Qed.

Lemma reset_node_run k w :
  reset_node k w
  = (Returns tt, set_nodes (mutate k (with_lease None ∘ with_status idle) (nodes w)) w).
Proof. unfold reset_node. unfold_monad. simpl. by rewrite mutate_mutate. Qed.

Lemma resetElection_run w :
  let w1 := closed (snd (for_each (nodes w).*1 clear_node_timers (set_running false w))) in
  exists ns,
    resetElection w
    = (Returns tt, set_broadcasts (broadcasts w1 ++ [ElectionReset]) (set_nodes ns w1))
    /\ ns.*1 = (nodes w1).*1
    /\ forall k, get k ns = (with_lease None ∘ with_status idle) <$> get k (nodes w1).
Proof.
  cbv zeta. unfold resetElection, keys. unfold bind at 1.
  rewrite stopElection_run.
  generalize (closed (snd (for_each (nodes w).*1 clear_node_timers
                             (set_running false w)))).
  intros w1. unfold bind, gets, broadcast, modify.
  destruct (for_each_mutate (with_lease None ∘ with_status idle) reset_node
              (nodes w1).*1 reset_node_run ltac:(by intros []) w1)
    as (ns & -> & Hkeys & Hns).
  exists ns. split; [done|]. split; [done|].
  intros k. rewrite (Hns k). apply get_keyed.
Qed.

(** X10.  [resetElection] returns every node of the registry to idle with
    no lease and no timer, crashed nodes included, and keeps the ids and
    the order of the registry; every timer held by a node is cleared; the
    lease record on either server is not released. *)
Theorem resetElection_revives (w : World) :
  let w' := exec resetElection w in
  (nodes w').*1 = (nodes w).*1
  /\ (forall k, get k (nodes w') = idle_node <$> get k (nodes w))
  /\ (forall t, named w t -> timers w' !! t = None)
  /\ (forall t, ~ named w t -> timers w' !! t = timers w !! t)
  /\ mongoServer w' = mongoServer w
  /\ redisServer w' = redisServer w.
Proof.
  cbv zeta. unfold exec.
  destruct (resetElection_run w) as (ns & -> & Hkeys & Hns). cbn [snd].
  destruct (stop_loop w) as [_ (Hf & Hk & Hget & _ & Hseen & Hun)].
  destruct (closed_frame (snd (for_each (nodes w).*1 clear_node_timers
                                 (set_running false w))))
    as (En & Et & _ & Em & Er & _).
  revert Hkeys Hns En Et Em Er.
  generalize (closed (snd (for_each (nodes w).*1 clear_node_timers
                             (set_running false w)))).
  intros w1 Hkeys Hns En Et Em Er. simpl.
  unfold same_outside_registry in Hf.
  split; [by rewrite Hkeys, En|].
  split.
  { intros k. rewrite (Hns k), En, (Hget k), get_keyed.
    change (nodes (set_running false w)) with (nodes w).
    by destruct (get k (nodes w)) as [[]|]. }
  rewrite Et, Em, Er.
  split.
  { intros t (k & node & Hnode & Hh). apply (Hseen k node t); [|done|done].
    by apply (get_Some_key k (nodes w) node). }
  split; [exact Hun|].
  split; [by apply (f_equal mongoServer) in Hf|].
  by apply (f_equal redisServer) in Hf.
Qed.

(** ** startElection *)

Lemma same_engine_refl w : same_engine w w.
Proof. by unfold same_engine. Qed.

Lemma same_engine_trans w1 w2 w3 :
  same_engine w1 w2 -> same_engine w2 w3 -> same_engine w1 w3.
Proof.
  unfold same_engine. intros (H1 & H2 & H3) (H4 & H5 & H6).
  split_and!; congruence.
Qed.

Lemma resume_frame w :
  fst (resume w) = Returns tt
  /\ same_engine w (snd (resume w))
  /\ (mongoClient w = None -> mongoClient (snd (resume w)) = None)
  /\ (leaderCollection w = None -> leaderCollection (snd (resume w)) = None).
Proof.
  unfold resume, resume_stop, stop_redis_begin. unfold_monad. simpl.
  destruct (suspended w) as [|[] rest]; simpl.
  - split_and!; done.
  - destruct (redisClient w); simpl; split_and!; done.
  - split_and!; done.
Qed.

Lemma resume_n_S n w : resume_n (S n) w = resume_n n (snd (resume w)).
Proof.
  simpl. unfold bind. destruct (resume_frame w) as (Hr & _).
  destruct (resume w) as [r w1]. simpl in *. by subst r.
Qed.

Lemma resume_n_frame n w :
  fst (resume_n n w) = Returns tt
  /\ same_engine w (snd (resume_n n w))
  /\ (mongoClient w = None -> mongoClient (snd (resume_n n w)) = None)
  /\ (leaderCollection w = None -> leaderCollection (snd (resume_n n w)) = None).
Proof.
  revert w. induction n as [|n IH]; intros w.
  - simpl. unfold ret. simpl. split_and!; [done|apply same_engine_refl|done|done].
  - rewrite resume_n_S. destruct (resume_frame w) as (_ & He & Hm & Hl).
    destruct (IH (snd (resume w))) as (Hr' & He' & Hm' & Hl').
    split; [exact Hr'|].
    split; [exact (same_engine_trans _ _ _ He He')|].
    split; auto.
Qed.

Lemma resume_n_idle n w :
  suspended w = [] -> resume_n n w = (Returns tt, w).
Proof.
  intros Hs.
  assert (H1 : resume w = (Returns tt, w)).
  { unfold resume. unfold_monad. by rewrite Hs. }
  induction n as [|n IH]; simpl; [done|].
  unfold bind. by rewrite H1.
Qed.

(** The first suspended continuation of a [stopElection] that closes the
    MongoDB client sets both MongoDB fields to null, whatever they hold
    by then. *)
Lemma resume_n_nulls n rest w :
  suspended w = StopAfterMongoClose :: rest ->
  fst (resume_n (S n) w) = Returns tt
  /\ same_engine w (snd (resume_n (S n) w))
  /\ mongoClient (snd (resume_n (S n) w)) = None
  /\ leaderCollection (snd (resume_n (S n) w)) = None.
Proof.
  intros Hs. rewrite resume_n_S.
  assert (H1 : same_engine w (snd (resume w))
               /\ mongoClient (snd (resume w)) = None
               /\ leaderCollection (snd (resume w)) = None).
  { unfold resume, resume_stop, stop_redis_begin. unfold_monad. simpl.
    rewrite Hs. simpl. destruct (redisClient w); simpl; split_and!; done. }
  destruct H1 as (He & Hm & Hl).
  destruct (resume_n_frame n (snd (resume w))) as (Hr' & He' & Hm' & Hl').
  split; [exact Hr'|].
  split; [exact (same_engine_trans _ _ _ He He')|].
  split; auto.
Qed.

Lemma startElection_run database so w :
  startElection database so w =
    (match database with
     | mongodb => initMongo so
     | redis => initRedis so
     end ;;
     broadcast (ElectionStarted database) ;;
     ns <- gets nodes ;;
     start_nodes ns 0 (jitters so)) (restarting database w).
Proof.
  unfold startElection, restarting.
  unfold bind at 1. unfold gets at 1.
  destruct (running w) eqn:Hr.
  - unfold bind at 1 2. unfold stopElection_begin, keys, stop_redis_begin.
    unfold bind at 1. unfold modify at 1.
    unfold bind at 1. unfold gets at 1. cbn [nodes set_running].
    unfold bind at 1.
    destruct (stop_loop w) as [Hl _].
    destruct (for_each (nodes w).*1 clear_node_timers (set_running false w))
      as [r w1]. simpl in Hl. subst r.
    unfold stop_begun, first_close. cbn [snd].
    unfold bind at 1. unfold gets at 1.
    destruct (mongoClient w1); [reflexivity|].
    unfold bind at 1. unfold gets at 1.
    destruct (redisClient w1); reflexivity.
  - reflexivity.
Qed.

Lemma restarting_frame database w :
  let w0 := restarting database w in
  running w0 = true
  /\ currentDatabase w0 = database
  /\ broadcasts w0 = broadcasts w
  /\ nextTimer w0 = nextTimer w
  /\ mongoServer w0 = mongoServer w
  /\ redisServer w0 = redisServer w
  /\ mongoClient w0 = mongoClient w
  /\ redisClient w0 = redisClient w
  /\ leaderCollection w0 = leaderCollection w
  /\ (nodes w0).*1 = (nodes w).*1
  /\ (forall k, get k (nodes w0) =
        if running w then disarmed_node <$> get k (nodes w) else get k (nodes w))
  /\ (forall t tm, timers w0 !! t = Some tm -> timers w !! t = Some tm)
  /\ (running w = true -> forall t, named w t -> timers w0 !! t = None)
  /\ (forall t, ~ named w t -> timers w0 !! t = timers w !! t)
  /\ suspended w0 =
       suspended w ++
         (if running w
          then match first_close w with Some (k, _) => [k] | None => [] end
          else [])
  /\ calls w0 =
       calls w ++
         (if running w
          then match first_close w with Some (_, c) => [Sent c] | None => [] end
          else []).
Proof.
  cbv zeta. unfold restarting.
  destruct (running w) eqn:Hr; cycle 1.
  { simpl. rewrite !app_nil_r. split_and!; try done. }
  destruct (stop_loop w) as [_ (Hf & Hk & Hget & Hshrink & Hseen & Hun)].
  revert Hf Hk Hget Hshrink Hseen Hun.
  generalize (snd (for_each (nodes w).*1 clear_node_timers (set_running false w))).
  intros w1 Hf Hk Hget Hshrink Hseen Hun.
  unfold same_outside_registry in Hf.
  assert (Hmc : mongoClient w1 = mongoClient w) by (by apply (f_equal mongoClient) in Hf).
  assert (Hrc : redisClient w1 = redisClient w) by (by apply (f_equal redisClient) in Hf).
  assert (Hnodes : nodes (stop_begun w1) = nodes w1
                   /\ timers (stop_begun w1) = timers w1).
  { unfold stop_begun. by destruct (first_close w1) as [[]|]. }
  destruct Hnodes as [Hnodes Htimers].
  assert (Hfc : first_close w1 = first_close w).
  { unfold first_close. by rewrite Hmc, Hrc. }
  cbn [running currentDatabase broadcasts nextTimer mongoServer redisServer mongoClient
       redisClient leaderCollection nodes timers suspended calls
       set_running set_currentDatabase].
  rewrite Hnodes, Htimers.
  unfold stop_begun. rewrite Hfc.
  split; [done|]. split; [done|].
  split.
  { apply (f_equal broadcasts) in Hf. by destruct (first_close w) as [[]|]. }
  split.
  { apply (f_equal nextTimer) in Hf. by destruct (first_close w) as [[]|]. }
  split.
  { apply (f_equal mongoServer) in Hf. by destruct (first_close w) as [[]|]. }
  split.
  { apply (f_equal redisServer) in Hf. by destruct (first_close w) as [[]|]. }
  split; [by destruct (first_close w) as [[]|]|].
  split; [by destruct (first_close w) as [[]|]|].
  split.
  { apply (f_equal leaderCollection) in Hf. by destruct (first_close w) as [[]|]. }
  split; [exact Hk|].
  split.
  { intros k. rewrite (Hget k). apply (get_keyed disarmed_node k (nodes w)). }
  split.
  { intros t tm Ht. destruct (Hshrink t) as [Hn|He]; [congruence|].
    rewrite He in Ht. exact Ht. }
  split.
  { intros _ t (k & node & Hnode & Hh). apply (Hseen k node t); [|done|done].
    by apply (get_Some_key k (nodes w) node). }
  split; [exact Hun|].
  split.
  { apply (f_equal suspended) in Hf. simpl in Hf.
    destruct (first_close w) as [[]|]; simpl; rewrite ?app_nil_r; congruence. }
  apply (f_equal calls) in Hf. simpl in Hf.
  destruct (first_close w) as [[]|]; simpl; rewrite ?app_nil_r; congruence.
Qed.

Lemma init_connect_fails database so w e :
  fails_with (connect_fault so) e ->
  match database with
  | mongodb => initMongo so
  | redis => initRedis so
  end w = (Throws e, connecting database so w).
Proof.
  intros Hf. unfold connecting.
  destruct database.
  - unfold initMongo. unfold bind at 1. unfold modify at 1.
    unfold bind at 1. unfold record_call, modify at 1.
    unfold bind at 1. cbn [calls set_mongoClient].
    destruct (resume_n_frame (resumed_in_connect so)
                (set_calls (calls w ++ [Sent MongoConnect])
                   (set_mongoClient (Some MongoClientHandle) w))) as (Hr & _).
    destruct (resume_n _ _) as [r w1]. simpl in Hr. subst r. cbn [snd].
    unfold bind at 1. by destruct Hf as [-> | ->].
  - unfold initRedis. unfold bind at 1. unfold modify at 1.
    unfold bind at 1. unfold record_call, modify at 1.
    unfold bind at 1. cbn [calls set_redisClient].
    destruct (resume_n_frame (resumed_in_connect so)
                (set_calls (calls w ++ [Sent RedisConnect])
                   (set_redisClient (Some RedisClientHandle) w))) as (Hr & _).
    destruct (resume_n _ _) as [r w1]. simpl in Hr. subst r. cbn [snd].
    unfold bind at 1. by destruct Hf as [-> | ->].
Qed.

Lemma connecting_frame database so w :
  same_engine w (connecting database so w).
Proof.
  unfold connecting.
  match goal with
  | |- same_engine _ (snd (resume_n ?n ?w1)) =>
      destruct (resume_n_frame n w1) as (_ & He & _);
      apply (same_engine_trans w w1 _); [|exact He]
  end.
  by destruct database.
Qed.

(** X11.  When the connection attempt of [startElection] is rejected, the
    method throws that error after it has set [running]: the engine is left
    marked as running on the requested backend, no election-started event
    is broadcast, no node changes status, no timer is created, and nothing
    is cleared on either server. *)
Theorem startElection_connect_fails
    (database : Database) (so : StartOracle) (w : World) (e : JsError) :
  fails_with (connect_fault so) e ->
  let w' := exec (startElection database so) w in
  fst (startElection database so w) = Throws e
  /\ running w' = true
  /\ currentDatabase w' = database
  /\ broadcasts w' = broadcasts w
  /\ nextTimer w' = nextTimer w
  /\ (forall t tm, timers w' !! t = Some tm -> timers w !! t = Some tm)
  /\ (forall k, status <$> get k (nodes w') = status <$> get k (nodes w))
  /\ mongoServer w' = mongoServer w
  /\ redisServer w' = redisServer w.
Proof.
  intros Hf. cbv zeta. unfold exec.
  assert (Hrun : startElection database so w
                 = (Throws e, connecting database so (restarting database w))).
  { rewrite startElection_run. unfold bind at 1.
    by rewrite (init_connect_fails database so _ e Hf). }
  rewrite Hrun. cbn [fst snd].
  destruct (restarting_frame database w)
    as (Hr & Hdb & Hb & Hn & Hm & Hrd & _ & _ & _ & _ & Hget & Hshrink & _).
  destruct (connecting_frame database so (restarting database w)) as (Hv & Hm' & Hrd').
  revert Hr Hdb Hb Hn Hm Hrd Hget Hshrink Hv Hm' Hrd'.
  generalize (restarting database w). intros w0.
  generalize (connecting database so w0). intros w1.
  intros Hr Hdb Hb Hn Hm Hrd Hget Hshrink Hv Hm' Hrd'.
  unfold engine_view in Hv.
  injection Hv as Hnodes Htimers Hnext Hbc Hrun' Hcur.
  split; [done|]. split; [congruence|]. split; [congruence|].
  split; [congruence|]. split; [congruence|].
  split; [intros t tm; rewrite Htimers; apply Hshrink|].
  split.
  { intros k. rewrite Hnodes, (Hget k).
    destruct (running w); [|done]. by destruct (get k (nodes w)). }
  split; congruence.
Qed.

Lemma startElection_connect_fails_witness :
  fst (startElection mongodb
         (mkStartOracle (FailsBefore typeError) Completes 0 0 (fun _ => 0%Z))
         (initial ∅ ∅))
  = Throws typeError
  /\ running (exec (startElection mongodb
                     (mkStartOracle (FailsBefore typeError) Completes 0 0 (fun _ => 0%Z)))
                (initial ∅ ∅)) = true.
Proof.
  destruct (startElection_connect_fails mongodb
              (mkStartOracle (FailsBefore typeError) Completes 0 0 (fun _ => 0%Z))
              (initial ∅ ∅) typeError) as (H1 & H2 & _).
  - left. reflexivity.
  - split; [exact H1 | exact H2].
Defined.

Lemma live_among_ext w w' ns :
  (forall k, k ∈ ns -> get k (nodes w') = get k (nodes w)) ->
  live_among w' ns = live_among w ns.
Proof.
  unfold live_among. induction ns as [|n ns IH]; intros Hget; [done|].
  assert (Hn : is_live w' n = is_live w n).
  { unfold is_live. rewrite Hget; [done|]. left. }
  assert (Hrest : filter (fun n => is_live w' n = true) ns
                  = filter (fun n => is_live w n = true) ns).
  { apply IH. intros k Hk. apply Hget. by right. }
  destruct (is_live w n) eqn:Hl.
  - rewrite !filter_cons_True by congruence. by rewrite Hrest.
  - rewrite !filter_cons_False by congruence. exact Hrest.
Qed.

Lemma live_among_elem w ns k : k ∈ live_among w ns -> k ∈ ns.
Proof. unfold live_among. intros Hk. by apply list_elem_of_filter in Hk as [_ ?]. Qed.

Lemma same_connections_refl w : same_connections w w.
Proof.
  unfold same_connections, set_broadcasts, set_nextTimer, set_timers, set_nodes.
  simpl. apply world_eta.
Qed.

Lemma start_nodes_cons n node0 ns i j w :
  start_nodes ((n, node0) :: ns) i j w =
    match get n (nodes w) with
    | Some node =>
        if decide (status node = crashed) then start_nodes ns i j w
        else start_nodes ns (S i) j (snd (startNodeCompetition n (j i) w))
    | None => start_nodes ns i j w
    end.
Proof.
  simpl. unfold bind at 1. unfold node_of, gets.
  destruct (get n (nodes w)) as [node|]; [|done].
  case_decide; [done|]. unfold bind.
  pose proof (startNodeCompetition_returns n (j i) w) as Hr.
  destruct (startNodeCompetition n (j i) w) as [r w1]. simpl in *. by subst r.
Qed.

Lemma start_nodes_spec (j : nat -> Z) (ns : list (string * Node)) :
  forall (i : nat) (w : World),
  NoDup ns.*1 ->
  let live := live_among w ns.*1 in
  let w' := snd (start_nodes ns i j w) in
  fst (start_nodes ns i j w) = Returns tt
  /\ broadcasts w' = broadcasts w ++ ((fun n => NodeUpdate n competing None) <$> live)
  /\ nextTimer w' = (nextTimer w + length live)%nat
  /\ (nodes w').*1 = (nodes w).*1
  /\ (forall k, k ∉ live -> get k (nodes w') = get k (nodes w))
  /\ (forall p k node,
        live !! p = Some k -> get k (nodes w) = Some node ->
        get k (nodes w') = Some (competing_node (nextTimer w + p) node)
        /\ timers w' !! (nextTimer w + p)%nat
           = Some (mkTimer (CompetitionAttempt k) (j (i + p)%nat) false))
  /\ (forall t, (t < nextTimer w)%nat -> timers w' !! t = timers w !! t)
  /\ same_connections w w'.
Proof.
  induction ns as [|[n node0] ns IH]; intros i w Hnd; cbv zeta.
  - simpl. unfold ret. simpl. rewrite app_nil_r, Nat.add_0_r.
    split_and!; try done. apply same_connections_refl.
  - csimpl in Hnd. apply NoDup_cons in Hnd as [Hn Hnd].
    rewrite start_nodes_cons. change (((n, node0) :: ns).*1) with (n :: ns.*1).
    assert (Hskip : is_live w n = false ->
              live_among w (n :: ns.*1) = live_among w ns.*1).
    { intros Hl. unfold live_among. rewrite filter_cons_False by congruence. done. }
    destruct (get n (nodes w)) as [node|] eqn:Hnode; cycle 1.
    { rewrite Hskip by (unfold is_live; by rewrite Hnode). apply (IH i w Hnd). }
    destruct (decide (status node = crashed)) as [Hc|Hc].
    { rewrite Hskip
        by (unfold is_live; rewrite Hnode; by rewrite bool_decide_eq_true_2).
      apply (IH i w Hnd). }
    assert (Hlive : live_among w (n :: ns.*1) = n :: live_among w ns.*1).
    { unfold live_among. rewrite filter_cons_True; [done|].
      unfold is_live. rewrite Hnode. by rewrite bool_decide_eq_false_2. }
    rewrite Hlive, (startNodeCompetition_run n (j i) w node Hnode Hc). cbn [snd].
    assert (Hother : forall k, k ∈ ns.*1 ->
              get k (nodes (competing_world n (j i) w)) = get k (nodes w)).
    { intros k Hk. unfold competing_world. simpl.
      apply get_mutate_ne. congruence. }
    specialize (IH (S i) (competing_world n (j i) w) Hnd). cbv zeta in IH.
    rewrite (live_among_ext w _ ns.*1 Hother) in IH.
    destruct IH as (Hr & Hb & Hnext & Hkeys & Hsame & Hidx & Htm & Hconn).
    assert (Hnotin : n ∉ live_among w ns.*1).
    { intros Hin. apply Hn. by apply (live_among_elem w). }
    split; [exact Hr|].
    split.
    { rewrite Hb. unfold competing_world. simpl. by rewrite <- app_assoc. }
    split.
    { rewrite Hnext. unfold competing_world. simpl. lia. }
    split.
    { rewrite Hkeys. unfold competing_world. simpl. apply mutate_keys. }
    split.
    { intros k Hk. apply not_elem_of_cons in Hk as [Hne Hk].
      rewrite (Hsame k Hk). unfold competing_world. simpl.
      by apply get_mutate_ne. }
    split.
    { intros p k node' Hp Hk. destruct p as [|p]; simpl in Hp.
      - injection Hp as <-. rewrite Hnode in Hk. injection Hk as <-.
        rewrite !Nat.add_0_r. split.
        + rewrite (Hsame n Hnotin). unfold competing_world. simpl.
          by rewrite get_mutate_eq, Hnode.
        + rewrite Htm by (unfold competing_world; simpl; lia).
          unfold competing_world. simpl. apply lookup_insert_eq.
      - assert (Hne : n <> k).
        { intros ->. apply Hnotin. by apply list_elem_of_lookup_2 in Hp. }
        destruct (Hidx p k node' Hp) as [H1 H2].
        { unfold competing_world. simpl. by rewrite get_mutate_ne. }
        unfold competing_world in H1, H2. simpl in H1, H2.
        replace (nextTimer w + S p)%nat with (S (nextTimer w + p))%nat by lia.
        replace (i + S p)%nat with (S (i + p))%nat by lia.
        by split. }
    split.
    { intros t Ht. rewrite Htm by (unfold competing_world; simpl; lia).
      unfold competing_world. simpl. apply lookup_insert_ne. lia. }
    revert Hconn.
    generalize (snd (start_nodes ns (S i) j (competing_world n (j i) w))).
    intros wf Hconn. clear - Hconn. unfold same_connections, competing_world in *.
    destruct wf as [n1 d1 m1 r1 l1 u1 t1 x1 s1 ms1 rs1 b1 c1],
             w as [n2 d2 m2 r2 l2 u2 t2 x2 s2 ms2 rs2 b2 c2].
    cbv [set_broadcasts set_nextTimer set_timers set_nodes nodes currentDatabase
         mongoClient redisClient leaderCollection running timers nextTimer suspended
         mongoServer redisServer broadcasts calls] in *.
    injection Hconn as -> -> -> -> -> -> -> -> ->. reflexivity.
Qed.

Lemma init_completes database so w :
  suspended w = [] ->
  connect_fault so = Completes ->
  clear_fault so = Completes ->
  match database with
  | mongodb => initMongo so
  | redis => initRedis so
  end w = (Returns tt, cleared database w).
Proof.
  intros Hs Hc Hd. destruct database.
  - unfold initMongo, send_while, cleared.
    unfold bind, modify, record_call, reply, gets, ret. simpl.
    rewrite resume_n_idle by done. rewrite Hc. simpl.
    rewrite resume_n_idle by done. rewrite Hd. simpl.
    unfold modify. simpl. by rewrite <- app_assoc.
  - unfold initRedis, send_while, cleared.
    unfold bind, modify, record_call, reply, gets, ret. simpl.
    rewrite resume_n_idle by done. rewrite Hc. simpl.
    rewrite resume_n_idle by done. rewrite Hd. simpl.
    unfold modify. simpl. by rewrite <- app_assoc.
Qed.

Lemma same_connections_fields w w' :
  same_connections w w' ->
  running w' = running w
  /\ currentDatabase w' = currentDatabase w
  /\ mongoClient w' = mongoClient w
  /\ redisClient w' = redisClient w
  /\ leaderCollection w' = leaderCollection w
  /\ mongoServer w' = mongoServer w
  /\ redisServer w' = redisServer w
  /\ calls w' = calls w
  /\ suspended w' = suspended w.
Proof.
  unfold same_connections. intros H.
  split_and!;
    [ by apply (f_equal running) in H
    | by apply (f_equal currentDatabase) in H
    | by apply (f_equal mongoClient) in H
    | by apply (f_equal redisClient) in H
    | by apply (f_equal leaderCollection) in H
    | by apply (f_equal mongoServer) in H
    | by apply (f_equal redisServer) in H
    | by apply (f_equal calls) in H
    | by apply (f_equal suspended) in H ].
Qed.

(** X12.  [startElection] on an engine that is not running, with the
    connection opened and the old record cleared without failure: the
    method returns with [running] set and the backend connected; no lease
    record is left on the chosen backend, so the first acquisition that
    reaches it is granted; election-started is broadcast, followed by one
    competing update per registered node that is not crashed, in the order
    of the registry; each of these nodes is competing and holds a new
    one-shot timer for its attempt, delayed by its own random jitter; the
    other nodes are untouched. *)
Theorem startElection_fresh (database : Database) (so : StartOracle) (w : World) :
  running w = false ->
  suspended w = [] ->
  NoDup (nodes w).*1 ->
  connect_fault so = Completes ->
  clear_fault so = Completes ->
  let w' := exec (startElection database so) w in
  fst (startElection database so w) = Returns tt
  /\ running w' = true
  /\ currentDatabase w' = database
  /\ connected database w'
  /\ no_record database w'
  /\ (forall n t, fst (tryAcquire database n t Completes Completes w') = Returns true)
  /\ calls w' = calls w ++ opening_calls database
  /\ broadcasts w' =
       broadcasts w ++
         ElectionStarted database
           :: ((fun n => NodeUpdate n competing None) <$> live_keys w)
  /\ (forall k, k ∉ live_keys w -> get k (nodes w') = get k (nodes w))
  /\ (forall p k node,
        live_keys w !! p = Some k -> get k (nodes w) = Some node ->
        get k (nodes w') = Some (competing_node (nextTimer w + p) node)
        /\ timers w' !! (nextTimer w + p)%nat
           = Some (mkTimer (CompetitionAttempt k) (jitters so p) false)).
Proof.
  intros Hr Hs Hnd Hc Hd. cbv zeta. unfold exec.
  pose (w2 := set_broadcasts
                (broadcasts w ++ [ElectionStarted database])
                (cleared database (set_running true (set_currentDatabase database w)))).
  assert (Hnodes : nodes w2 = nodes w) by (by destruct database).
  assert (Hrun : startElection database so w
                 = start_nodes (nodes w) 0 (jitters so) w2).
  { rewrite startElection_run. unfold restarting. rewrite Hr.
    unfold bind at 1. rewrite init_completes by done.
    unfold bind, broadcast, modify, gets. cbn [fst snd].
    by destruct database. }
  rewrite Hrun.
  destruct (start_nodes_spec (jitters so) (nodes w) 0 w2 Hnd)
    as (Hret & Hb & _ & _ & Hsame & Hidx & _ & Hconn).
  rewrite (live_among_ext w w2 (nodes w).*1) in Hb, Hsame, Hidx
    by (intros k _; by rewrite Hnodes).
  apply same_connections_fields in Hconn
    as (Frun & Fdb & Fmc & Frc & Flc & Fms & Frs & Fcalls & _).
  revert Hret Hb Hsame Hidx Frun Fdb Fmc Frc Flc Fms Frs Fcalls.
  generalize (start_nodes (nodes w) 0 (jitters so) w2). intros [r w'].
  cbn [fst snd]. intros Hret Hb Hsame Hidx Frun Fdb Fmc Frc Flc Fms Frs Fcalls.
  assert (Hconn : connected database w').
  { unfold connected. destruct database; [rewrite Flc | rewrite Frc]; reflexivity. }
  assert (Hnone : no_record database w').
  { unfold no_record. destruct database.
    - rewrite Fms. apply lookup_empty.
    - rewrite Frs. apply lookup_delete_eq. }
  split; [exact Hret|].
  split; [rewrite Frun; by destruct database|].
  split; [rewrite Fdb; by destruct database|].
  split; [exact Hconn|]. split; [exact Hnone|].
  split; [intros n t; by apply tryAcquire_on_no_record|].
  split; [rewrite Fcalls; by destruct database|].
  split.
  { rewrite Hb. subst w2.
    replace (broadcasts (set_broadcasts (broadcasts w ++ [ElectionStarted database])
               (cleared database (set_running true (set_currentDatabase database w)))))
      with (broadcasts w ++ [ElectionStarted database]) by reflexivity.
    by rewrite <- app_assoc. }
  split.
  { intros k Hk. rewrite (Hsame k Hk). by rewrite Hnodes. }
  intros p k node Hp Hk.
  destruct (Hidx p k node Hp) as [H1 H2]; [by rewrite Hnodes|].
  assert (Hnext : nextTimer w2 = nextTimer w) by (by destruct database).
  rewrite Hnext in H1, H2. by split.
Qed.

Lemma startElection_fresh_witness :
  broadcasts (exec (startElection redis prompt) (initial ∅ ∅))
  = ElectionStarted redis
      :: ((fun n => NodeUpdate n competing None)
            <$> ["node-1"; "node-2"; "node-3"; "node-4"; "node-5"]).
Proof.
  refine (proj1 (proj2 (proj2 (proj2 (proj2 (proj2 (proj2 (proj2
    (startElection_fresh redis prompt (initial ∅ ∅) _ _ _ _ _)))))))));
    try reflexivity.
  vm_compute. repeat constructor; vm_compute; intros H;
    repeat (apply elem_of_cons in H as [H|H]; [discriminate H|]);
    by apply elem_of_nil in H.
Defined.

Lemma initMongo_nulled so w m rest :
  suspended w = StopAfterMongoClose :: rest ->
  connect_fault so = Completes ->
  resumed_in_connect so = S m ->
  initMongo so w = (Throws typeError, connecting mongodb so w)
  /\ mongoClient (connecting mongodb so w) = None
  /\ leaderCollection (connecting mongodb so w) = None.
Proof.
  intros Hs Hc Hm. unfold connecting. rewrite Hm.
  destruct (resume_n_nulls m rest
              (set_calls (calls w ++ [Sent MongoConnect])
                 (set_mongoClient (Some MongoClientHandle) w)) Hs)
    as (Hr & _ & Hmc & Hlc).
  split; [|by split].
  unfold initMongo. unfold bind at 1. unfold modify at 1.
  unfold bind at 1. unfold record_call, modify at 1.
  unfold bind at 1. cbn [calls set_mongoClient]. rewrite Hm.
  revert Hr Hmc Hlc. generalize (resume_n (S m)
    (set_calls (calls w ++ [Sent MongoConnect])
       (set_mongoClient (Some MongoClientHandle) w))).
  intros [r w1]. cbn [fst snd]. intros -> Hmc Hlc.
  unfold bind at 1. rewrite Hc. unfold reply, ret.
  unfold bind at 1. unfold gets. by rewrite Hmc.
Qed.

(** X13.  [startElection('mongodb')] on an engine that is running with an
    open MongoDB client does not await the [stopElection] it calls.  When
    the pending [close()] of the old client is answered while the new
    connection is being opened, the continuation of [stopElection] sets
    [mongoClient] and [leaderCollection] to null, and [initMongo] then
    fails on [this.mongoClient.db]: the method throws a TypeError, nothing
    is cleared on the server, no election-started event is broadcast, and
    the engine is left marked as running without a client. *)
Theorem restart_loses_the_client
    (so : StartOracle) (w : World) (h : MongoClient) (m : nat) :
  running w = true ->
  mongoClient w = Some h ->
  suspended w = [] ->
  connect_fault so = Completes ->
  resumed_in_connect so = S m ->
  let w' := exec (startElection mongodb so) w in
  fst (startElection mongodb so w) = Throws typeError
  /\ running w' = true
  /\ mongoClient w' = None
  /\ leaderCollection w' = None
  /\ broadcasts w' = broadcasts w
  /\ mongoServer w' = mongoServer w
  /\ nextTimer w' = nextTimer w.
Proof.
  intros Hr Hmc Hs Hc Hm. cbv zeta. unfold exec.
  destruct (restarting_frame mongodb w)
    as (Hrun & _ & Hb & Hn & Hms & _ & _ & _ & _ & _ & _ & _ & _ & _ & Hsusp & _).
  rewrite Hr, Hs in Hsusp. unfold first_close in Hsusp. rewrite Hmc in Hsusp.
  simpl in Hsusp.
  destruct (initMongo_nulled so (restarting mongodb w) m [] Hsusp Hc Hm)
    as (Hinit & Hnull & Hlc).
  assert (Hstart : startElection mongodb so w
                   = (Throws typeError, connecting mongodb so (restarting mongodb w))).
  { rewrite startElection_run. unfold bind at 1. by rewrite Hinit. }
  rewrite Hstart. cbn [fst snd].
  destruct (connecting_frame mongodb so (restarting mongodb w)) as (Hv & Hms' & _).
  revert Hrun Hb Hn Hms Hnull Hlc Hv Hms'.
  generalize (restarting mongodb w). intros w0.
  generalize (connecting mongodb so w0). intros w1.
  intros Hrun Hb Hn Hms Hnull Hlc Hv Hms'.
  unfold engine_view in Hv.
  injection Hv as _ _ Hnext Hbc Hrun' _.
  split_and!; congruence.
Qed.

Lemma restart_loses_the_client_witness :
  fst (startElection mongodb quit_answered running_on_mongo) = Throws typeError
  /\ mongoClient (exec (startElection mongodb quit_answered) running_on_mongo) = None.
Proof.
  destruct (restart_loses_the_client quit_answered running_on_mongo MongoClientHandle 0)
    as (H1 & _ & H2 & _); try reflexivity.
  split; [exact H1 | exact H2].
Defined.




Lemma initMongo_collection_nulled so w m rest :
  suspended w = StopAfterMongoClose :: rest ->
  connect_fault so = Completes ->
  clear_fault so = Completes ->
  resumed_in_connect so = 0%nat ->
  resumed_in_clear so = S m ->
  initMongo so w = (Returns tt, set_mongoServer ∅ (clearing so w))
  /\ mongoClient (clearing so w) = None
  /\ leaderCollection (clearing so w) = None
  /\ same_engine w (clearing so w).
Proof.
  intros Hs Hc Hd H0 Hm. unfold clearing.
  pose proof (resume_n_nulls m rest
                (set_calls (calls w ++ [Sent MongoConnect; Sent MongoDeleteMany])
                   (set_leaderCollection (Some LeaderCollectionHandle)
                      (set_mongoClient (Some MongoClientHandle) w))) Hs) as Hnull.
  rewrite <- Hm in Hnull. clear Hm. destruct Hnull as (Hr & He & Hmc & Hlc).
  split; [|split; [exact Hmc|split; [exact Hlc|]]]; cycle 1.
  { eapply same_engine_trans; [|exact He]. done. }
  clear He Hmc Hlc.
  unfold initMongo, send_while. rewrite H0, Hc, Hd.
  unfold bind, modify, record_call, reply, gets, ret. simpl.
  match goal with
  | |- context [resume_n (resumed_in_clear so) ?W] =>
      replace W with
        (set_calls (calls w ++ [Sent MongoConnect; Sent MongoDeleteMany])
           (set_leaderCollection (Some LeaderCollectionHandle)
              (set_mongoClient (Some MongoClientHandle) w)))
        by (destruct w; simpl; by rewrite <- app_assoc)
  end.
  destruct (resume_n (resumed_in_clear so) _) as [r w1]. simpl in *. by subst r.
Qed.

Lemma same_engine_fields w w' :
  same_engine w w' ->
  nodes w' = nodes w
  /\ timers w' = timers w
  /\ nextTimer w' = nextTimer w
  /\ broadcasts w' = broadcasts w
  /\ running w' = running w
  /\ currentDatabase w' = currentDatabase w
  /\ mongoServer w' = mongoServer w
  /\ redisServer w' = redisServer w.
Proof.
  intros (Hv & Hm & Hr). unfold engine_view in Hv.
  injection Hv as H1 H2 H3 H4 H5 H6. split_and!; done.
Qed.

Lemma live_among_status w w' ns :
  (forall k, status <$> get k (nodes w') = status <$> get k (nodes w)) ->
  live_among w' ns = live_among w ns.
Proof.
  intros Hst. unfold live_among. apply list_filter_iff. intros n.
  assert (Hn : is_live w' n = is_live w n); [|by rewrite Hn].
  unfold is_live. specialize (Hst n).
  destruct (get n (nodes w')) as [a|], (get n (nodes w)) as [b|];
    simpl in Hst; try done.
  injection Hst as ->. done.
Qed.

(** X14.  The same restart, with the pending [close()] answered while
    [deleteMany] is awaited instead: [initMongo] completes, the election is
    announced and the nodes compete, but [stopElection]'s continuation has
    set [leaderCollection] to null.  Every acquisition from that state
    returns false without a command being sent: the election is announced
    on a backend no node can reach. *)
Theorem restart_loses_the_collection
    (so : StartOracle) (w : World) (h : MongoClient) (m : nat) :
  running w = true ->
  mongoClient w = Some h ->
  suspended w = [] ->
  NoDup (nodes w).*1 ->
  connect_fault so = Completes ->
  clear_fault so = Completes ->
  resumed_in_connect so = 0%nat ->
  resumed_in_clear so = S m ->
  let w' := exec (startElection mongodb so) w in
  fst (startElection mongodb so w) = Returns tt
  /\ running w' = true
  /\ currentDatabase w' = mongodb
  /\ broadcasts w' =
       broadcasts w ++
         ElectionStarted mongodb
           :: ((fun n => NodeUpdate n competing None) <$> live_keys w)
  /\ mongoClient w' = None
  /\ leaderCollection w' = None
  /\ (forall n t f1 f2,
        tryAcquire mongodb n t f1 f2 w'
        = (Returns false, set_calls (calls w' ++ [TryAcquire mongodb n]) w')).
Proof.
  intros Hr Hmc Hs Hnd Hc Hd H0 Hm. cbv zeta. unfold exec.
  destruct (restarting_frame mongodb w)
    as (Hrun & Hdb & Hb & _ & _ & _ & _ & _ & _ & Hkeys & Hget & _ & _ & _ & Hsusp & _).
  rewrite Hr in Hget.
  rewrite Hr, Hs in Hsusp. unfold first_close in Hsusp. rewrite Hmc in Hsusp.
  simpl in Hsusp.
  destruct (initMongo_collection_nulled so (restarting mongodb w) m [] Hsusp Hc Hd H0 Hm)
    as (Hinit & Hnull & Hlc & Hv).
  apply same_engine_fields in Hv as (Hnodes & _ & _ & Hbc & Hrun' & Hdb' & _).
  pose (w2 := set_broadcasts
                (broadcasts (clearing so (restarting mongodb w))
                   ++ [ElectionStarted mongodb])
                (set_mongoServer ∅ (clearing so (restarting mongodb w)))).
  assert (Hstart : startElection mongodb so w
                   = start_nodes (nodes w2) 0 (jitters so) w2).
  { rewrite startElection_run. unfold bind at 1. rewrite Hinit.
    unfold bind, broadcast, modify, gets. reflexivity. }
  rewrite Hstart.
  assert (Hn2 : nodes w2 = nodes (restarting mongodb w)) by exact Hnodes.
  assert (Hnd2 : NoDup (nodes w2).*1) by (by rewrite Hn2, Hkeys).
  destruct (start_nodes_spec (jitters so) (nodes w2) 0 w2 Hnd2)
    as (Hret & Hb2 & _ & _ & _ & _ & _ & Hconn).
  assert (Hlive : live_among w2 (nodes w2).*1 = live_keys w).
  { unfold live_keys. rewrite Hn2, Hkeys. apply live_among_status.
    intros k. rewrite Hn2, (Hget k). by destruct (get k (nodes w)). }
  rewrite Hlive in Hb2.
  apply same_connections_fields in Hconn
    as (Frun & Fdb & Fmc & _ & Flc & _).
  assert (Hb2' : broadcasts w2 = broadcasts w ++ [ElectionStarted mongodb]).
  { subst w2. cbn [broadcasts set_broadcasts]. by rewrite Hbc, Hb. }
  assert (Hrun2 : running w2 = true) by (subst w2; cbn; congruence).
  assert (Hdb2 : currentDatabase w2 = mongodb) by (subst w2; cbn; congruence).
  assert (Hmc2 : mongoClient w2 = None) by (subst w2; cbn; congruence).
  assert (Hlc2 : leaderCollection w2 = None) by (subst w2; cbn; congruence).
  clearbody w2.
  revert Hret Hb2 Frun Fdb Fmc Flc.
  generalize (start_nodes (nodes w2) 0 (jitters so) w2). intros [r w'].
  cbn [fst snd]. intros Hret Hb2 Frun Fdb Fmc Flc.
  split; [exact Hret|]. split; [congruence|]. split; [congruence|].
  split; [by rewrite Hb2, Hb2', <- app_assoc|].
  split; [congruence|]. split; [congruence|].
  intros n t f1 f2. simpl.
  unfold tryAcquireMongoLeadership. unfold_monad. simpl.
  rewrite Flc, Hlc2. reflexivity.
Qed.

Lemma restart_loses_the_collection_witness :
  leaderCollection
    (exec (startElection mongodb (mkStartOracle Completes Completes 0 1 (fun _ => 0%Z)))
       running_on_mongo) = None.
Proof.
  refine (proj1 (proj2 (proj2 (proj2 (proj2 (proj2
    (restart_loses_the_collection
       (mkStartOracle Completes Completes 0 1 (fun _ => 0%Z))
       running_on_mongo MongoClientHandle 0 _ _ _ _ _ _ _ _)))))));
    try reflexivity.
  vm_compute. repeat constructor; vm_compute; intros H;
    repeat (apply elem_of_cons in H as [H|H]; [discriminate H|]);
    by apply elem_of_nil in H.
Defined.

(** ** Timer callbacks and crashes, continued *)

(** X15.  [crashNode] on a node that shows leader releases the lease
    without looking at the owner of the record: with the backend connected
    and the delete completing, no lease record is left, whoever held it, so
    that the next acquisition by any node is granted; the other nodes of
    the registry are not told. *)
Theorem crash_of_leader_frees_the_lease (n : string) (w : World) (node : Node) :
  get n (nodes w) = Some node ->
  status node = leader ->
  connected (currentDatabase w) w ->
  let w' := exec (crashNode n Completes) w in
  no_record (currentDatabase w) w'
  /\ (forall m t,
        fst (tryAcquire (currentDatabase w) m t Completes Completes w') = Returns true)
  /\ (forall k, k <> n -> get k (nodes w') = get k (nodes w)).
Proof.
  intros Hn Hs Hc. cbv zeta.
  assert (Hrun : exec (crashNode n Completes) w
                 = set_broadcasts
                     (broadcasts (crash_local n node w) ++ [LeaderLost n])
                     (snd (release (currentDatabase w) Completes (crash_local n node w)))).
  { unfold exec. rewrite (crashNode_run n Completes w node Hn) by (rewrite Hs; discriminate).
    rewrite bool_decide_eq_true_2 by done.
    assert (Hc' : connected (currentDatabase w) (crash_local n node w))
      by (unfold connected in *; by destruct (currentDatabase w)).
    unfold bind. rewrite (release_run _ _ Hc'). cbn [fst snd].
    unfold broadcast, modify. cbn [snd].
    by destruct (currentDatabase w). }
  rewrite Hrun.
  assert (Hc' : connected (currentDatabase w) (crash_local n node w))
    by (unfold connected in *; by destruct (currentDatabase w)).
  rewrite (release_run _ _ Hc'). cbn [snd].
  assert (Hnone : no_record (currentDatabase w)
            (set_broadcasts (broadcasts (crash_local n node w) ++ [LeaderLost n])
               match currentDatabase w with
               | mongodb =>
                   set_mongoServer
                     (delete "current-leader" (mongoServer (crash_local n node w)))
                     (set_calls (calls (crash_local n node w)
                                   ++ [Release mongodb; Sent MongoDeleteOne])
                        (crash_local n node w))
               | redis =>
                   set_redisServer (delete "leader" (redisServer (crash_local n node w)))
                     (set_calls (calls (crash_local n node w)
                                   ++ [Release redis; Sent RedisDel])
                        (crash_local n node w))
               end)).
  { unfold no_record. destruct (currentDatabase w); simpl; apply lookup_delete_eq. }
  split; [exact Hnone|]. split.
  - intros m t. apply tryAcquire_on_no_record; [|exact Hnone].
    unfold connected in *. by destruct (currentDatabase w).
  - intros k Hk. destruct (currentDatabase w); simpl; by apply get_mutate_ne.
Qed.

Lemma crash_of_leader_frees_the_lease_witness :
  mongoServer node1_usurped !! "current-leader"
  = Some (mkLeaderDocument "node-2" 30000 20000)
  /\ no_record mongodb (exec (crashNode "node-1" Completes) node1_usurped).
Proof.
  split; [reflexivity|].
  refine (proj1 (crash_of_leader_frees_the_lease "node-1" node1_usurped
                   (mkNode "node-1" leader (Some 10000%Z) (Some 7%nat) None) _ _ _));
    reflexivity.
Defined.

Lemma competitionRetry_run n j w node :
  running w = true ->
  get n (nodes w) = Some node ->
  status node <> crashed ->
  competitionRetry n j w = (Returns tt, competing_world n j w).
Proof.
  intros Hr Hn Hs. unfold competitionRetry, node_of, bind, gets.
  rewrite Hr, Hn. cbn [andb]. rewrite bool_decide_eq_false_2 by done. cbn [negb].
  by apply (startNodeCompetition_run n j w node).
Qed.

(** X16.  When the retry timer of a node fires while the election is
    running and the node is not crashed, the node competes again: the
    fired one-shot timer is gone, the node is competing, a competing
    update with a null lease is broadcast, and a new attempt timer with a
    fresh jitter is armed and stored in the node.  No primitive is invoked
    and no server is touched. *)
Theorem fire_retry (t : nat) (n : string) (d : Z) (o : Oracle) (w : World) (node : Node) :
  timers w !! t = Some (mkTimer (CompetitionRetry n) d false) ->
  running w = true ->
  get n (nodes w) = Some node ->
  status node <> crashed ->
  let w' := exec (fire t o) w in
  fst (fire t o w) = Returns tt
  /\ get n (nodes w') = Some (competing_node (nextTimer w) node)
  /\ timers w' =
       <[nextTimer w := mkTimer (CompetitionAttempt n) (jitter o) false]>
         (delete t (timers w))
  /\ broadcasts w' = broadcasts w ++ [NodeUpdate n competing None]
  /\ calls w' = calls w
  /\ mongoServer w' = mongoServer w
  /\ redisServer w' = redisServer w.
Proof.
  intros Ht Hr Hn Hs. cbv zeta. unfold exec.
  rewrite (fire_run t o w _ Ht). cbn [callback repeats].
  rewrite (competitionRetry_run n (jitter o) _ node) by done.
  cbn [fst snd]. unfold competing_world. simpl.
  rewrite get_mutate_eq, Hn. split_and!; done.
Qed.

Lemma fire_retry_witness :
  let w := exec (fire 0 (mkOracle 0 0 5 (FailsBefore typeError) Completes 0))
             (exec (startElection redis prompt) (initial ∅ ∅)) in
  get "node-1" (nodes (exec (fire 5 wins_at_0) w))
  = Some (mkNode "node-1" competing None None (Some 6%nat)).
Proof.
  cbv zeta.
  refine (proj1 (proj2
    (fire_retry 5 "node-1" RETRY_DELAY wins_at_0
       (exec (fire 0 (mkOracle 0 0 5 (FailsBefore typeError) Completes 0))
          (exec (startElection redis prompt) (initial ∅ ∅)))
       (mkNode "node-1" follower None None (Some 5%nat)) _ _ _ _)));
    try (vm_compute; reflexivity).
  discriminate.
Defined.

(** ** The registry is fixed *)

Lemma same_ids_refl w : same_ids w w.
Proof. by split. Qed.

Lemma same_ids_trans w1 w2 w3 : same_ids w1 w2 -> same_ids w2 w3 -> same_ids w1 w3.
Proof.
  intros [H1 H2] [H3 H4]. split; [congruence|].
  intros k. by rewrite H4, H2.
Qed.

Lemma keeps_nodes {A} (c : M A) :
  (forall w, nodes (snd (c w)) = nodes w) -> keeps_ids c.
Proof. intros H w. unfold same_ids. by rewrite H. Qed.

Lemma keeps_ret {A} (a : A) : keeps_ids (ret a).
Proof. by apply keeps_nodes. Qed.

Lemma keeps_throw {A} e : keeps_ids (@throw A e).
Proof. by apply keeps_nodes. Qed.

Lemma keeps_gets {A} (f : World -> A) : keeps_ids (gets f).
Proof. by apply keeps_nodes. Qed.

Lemma keeps_modify (f : World -> World) :
  (forall w, nodes (f w) = nodes w) -> keeps_ids (modify f).
Proof. intros H. by apply keeps_nodes. Qed.

Lemma keeps_bind {A B} (c : M A) (k : A -> M B) :
  keeps_ids c -> (forall a, keeps_ids (k a)) -> keeps_ids (bind c k).
Proof.
  intros Hc Hk w. unfold bind. specialize (Hc w).
  destruct (c w) as [[a|e] w1]; simpl in *; [|exact Hc].
  exact (same_ids_trans _ _ _ Hc (Hk a w1)).
Qed.

Lemma keeps_try_catch {A} (c : M A) (h : JsError -> M A) :
  keeps_ids c -> (forall e, keeps_ids (h e)) -> keeps_ids (try_catch c h).
Proof.
  intros Hc Hh w. unfold try_catch. specialize (Hc w).
  destruct (c w) as [[a|e] w1]; simpl in *; [exact Hc|].
  exact (same_ids_trans _ _ _ Hc (Hh e w1)).
Qed.

Lemma keeps_mutate_node k (f : Node -> Node) :
  (forall node, id (f node) = id node) -> keeps_ids (mutate_node k f).
Proof.
  intros Hf w. unfold mutate_node, modify. simpl. split.
  - apply mutate_keys.
  - intros k'. by apply get_mutate_fmap.
Qed.

Lemma keeps_broadcast e : keeps_ids (broadcast e).
Proof. by apply keeps_nodes. Qed.

Lemma keeps_record_call c : keeps_ids (record_call c).
Proof. by apply keeps_nodes. Qed.

Lemma keeps_clearTimer h : keeps_ids (clearTimer h).
Proof. apply keeps_nodes. by destruct h. Qed.

Lemma keeps_schedule cb d rep : keeps_ids (schedule cb d rep).
Proof. by apply keeps_nodes. Qed.

Lemma keeps_send_while {S A} c f (proj : World -> S) inj (op : S -> Outcome A * S) during :
  (forall s w, nodes (inj s w) = nodes w) ->
  keeps_ids during ->
  keeps_ids (send_while c f proj inj op during).
Proof.
  intros Hinj Hd. unfold send_while.
  apply keeps_bind; [apply keeps_record_call|]. intros _.
  apply keeps_bind; [exact Hd|]. intros _.
  apply keeps_nodes. intros w. destruct f; simpl; by rewrite ?Hinj.
Qed.

Lemma keeps_for_each {A} (l : list A) (body : A -> M unit) :
  (forall x, keeps_ids (body x)) -> keeps_ids (for_each l body).
Proof.
  intros Hb. induction l as [|x l IH]; simpl.
  - apply keeps_ret.
  - apply keeps_bind; [apply Hb|]. intros _. exact IH.
Qed.

Create HintDb keeps.

#[local] Hint Resolve keeps_ret keeps_throw keeps_gets keeps_broadcast keeps_record_call
  keeps_clearTimer keeps_schedule : keeps.

Ltac keeps_step :=
  match goal with
  | |- keeps_ids (bind _ _) => apply keeps_bind; [|intros ?]
  | |- keeps_ids (try_catch _ _) => apply keeps_try_catch; [|intros ?]
  | |- keeps_ids (mutate_node _ _) => apply keeps_mutate_node; by intros []
  | |- keeps_ids (modify _) => apply keeps_modify; reflexivity
  | |- keeps_ids (send_while _ _ _ _ _ _) => apply keeps_send_while; [reflexivity|]
  | |- keeps_ids (for_each _ _) => apply keeps_for_each; intros ?
  | |- keeps_ids (match ?x with _ => _ end) => destruct x
  | |- keeps_ids _ => solve [auto with keeps]
  end.

Ltac keeps_tac := cbv zeta; repeat keeps_step.

Lemma keeps_mongo {A} c f (op : _ -> Outcome A * _) : keeps_ids (mongo c f op).
Proof. unfold mongo, send. keeps_tac. Qed.

Lemma keeps_redis_cmd {A} c f (op : _ -> Outcome A * _) : keeps_ids (redis_cmd c f op).
Proof. unfold redis_cmd, send. keeps_tac. Qed.

#[local] Hint Resolve keeps_mongo keeps_redis_cmd : keeps.

Lemma keeps_tryAcquire db n t f1 f2 : keeps_ids (tryAcquire db n t f1 f2).
Proof.
  destruct db; simpl; [unfold tryAcquireMongoLeadership|unfold tryAcquireRedisLeadership];
    keeps_tac.
Qed.

Lemma keeps_renew db n t1 t2 f1 f2 : keeps_ids (renew db n t1 t2 f1 f2).
Proof.
  destruct db; simpl; [unfold renewMongoLease|unfold renewRedisLease]; keeps_tac.
Qed.

Lemma keeps_release db f : keeps_ids (release db f).
Proof.
  destruct db; simpl; [unfold releaseMongoLock|unfold releaseRedisLock]; keeps_tac.
Qed.

#[local] Hint Resolve keeps_tryAcquire keeps_renew keeps_release : keeps.

Lemma keeps_startNodeCompetition n j : keeps_ids (startNodeCompetition n j).
Proof. unfold startNodeCompetition, node_of, setTimeout. keeps_tac. Qed.

Lemma keeps_startHeartbeat n : keeps_ids (startHeartbeat n).
Proof. unfold startHeartbeat, node_of, setInterval. keeps_tac. Qed.

#[local] Hint Resolve keeps_startNodeCompetition keeps_startHeartbeat : keeps.

Lemma keeps_fire t o : keeps_ids (fire t o).
Proof.
  unfold fire, competitionAttempt, competitionRetry, heartbeatTick, node_of, field,
    setTimeout.
  keeps_tac.
Qed.

Lemma keeps_crashNode n f : keeps_ids (crashNode n f).
Proof. unfold crashNode, node_of. keeps_tac. Qed.

Lemma keeps_stop_redis_begin : keeps_ids stop_redis_begin.
Proof. unfold stop_redis_begin. keeps_tac. Qed.

#[local] Hint Resolve keeps_stop_redis_begin : keeps.

Lemma keeps_clear_node_timers n : keeps_ids (clear_node_timers n).
Proof. unfold clear_node_timers, field. keeps_tac. Qed.

#[local] Hint Resolve keeps_clear_node_timers : keeps.

Lemma keeps_stopElection_begin : keeps_ids stopElection_begin.
Proof. unfold stopElection_begin, keys. keeps_tac. Qed.

Lemma keeps_resume_stop k : keeps_ids (resume_stop k).
Proof. unfold resume_stop. keeps_tac. Qed.

#[local] Hint Resolve keeps_stopElection_begin keeps_resume_stop : keeps.

Lemma keeps_stopElection : keeps_ids stopElection.
Proof. unfold stopElection. keeps_tac. Qed.

Lemma keeps_resume : keeps_ids resume.
Proof. unfold resume. keeps_tac. Qed.

#[local] Hint Resolve keeps_stopElection keeps_resume : keeps.

Lemma keeps_resume_n m : keeps_ids (resume_n m).
Proof. induction m as [|m IH]; simpl; keeps_tac. Qed.

#[local] Hint Resolve keeps_resume_n : keeps.

Lemma keeps_resetElection : keeps_ids resetElection.
Proof. unfold resetElection, keys, reset_node. keeps_tac. Qed.

Lemma keeps_start_nodes ns : forall i j, keeps_ids (start_nodes ns i j).
Proof.
  induction ns as [|[n node0] ns IH]; intros i j; simpl; [apply keeps_ret|].
  unfold node_of. keeps_tac; apply IH.
Qed.

#[local] Hint Resolve keeps_start_nodes : keeps.

Lemma keeps_startElection database so : keeps_ids (startElection database so).
Proof.
  unfold startElection, initMongo, initRedis, reply. keeps_tac.
Qed.

Lemma keeps_step i : keeps_ids (step i).
Proof.
  destruct i; simpl;
    auto using keeps_startElection, keeps_stopElection, keeps_resetElection,
      keeps_crashNode, keeps_fire, keeps_resume.
Qed.

Lemma run_same_ids trace : forall w, same_ids w (run trace w).
Proof.
  unfold run. induction trace as [|i trace IH]; intros w; simpl.
  - apply same_ids_refl.
  - apply (same_ids_trans w (exec (step i) w)); [apply keeps_step|apply IH].
Qed.

(** X17.  The registry is fixed by the constructor: whatever commands are
    received, whatever timers fire, whatever the servers answer and
    whichever commands throw, the engine has exactly the five nodes
    node-1 to node-5, in this order, each registered under its own id.  No
    method adds, removes or renames a node. *)
Theorem registry_is_fixed
    (trace : list Input) (m : gmap string LeaderDocument) (r : gmap string RedisEntry) :
  (nodes (run trace (initial m r))).*1 = ["node-1"; "node-2"; "node-3"; "node-4"; "node-5"]
  /\ well_named (run trace (initial m r)).
Proof.
  destruct (run_same_ids trace (initial m r)) as [Hk Hid].
  split; [exact Hk|].
  intros k node Hget. specialize (Hid k). rewrite Hget in Hid. simpl in Hid.
  assert (Hin : k ∈ (nodes (run trace (initial m r))).*1)
    by (by apply (get_Some_key k _ node)).
  rewrite Hk in Hin. change (nodes (initial m r)) with
    (fresh_node <$> ["node-1"; "node-2"; "node-3"; "node-4"; "node-5"]) in *.
  repeat (apply elem_of_cons in Hin as [->|Hin];
          [vm_compute in Hid; by injection Hid|]).
  by apply elem_of_nil in Hin.
Qed.

(** ** No node is stranded *)

Lemma is_beat_node k tm : is_beat k tm -> callback_node (callback tm) = k.
Proof. intros [H _]. by rewrite H. Qed.

Lemma is_comp_node k tm : is_comp k tm -> callback_node (callback tm) = k.
Proof. intros [_ [H|H]]; by rewrite H. Qed.

Lemma is_beat_comp k k' tm : is_beat k tm -> is_comp k' tm -> False.
Proof. intros [_ H1] [H2 _]. congruence. Qed.

Lemma timers_of_step_refl n w : timers_of_step n w (nextTimer w) (timers w).
Proof. split; [lia|]. split; [by left|done]. Qed.

Lemma timers_of_step_delete n w next tm' t0 :
  timers_of_step n w next tm' ->
  (forall x, timers w !! t0 = Some x -> callback_node (callback x) = n) ->
  timers_of_step n w next (delete t0 tm').
Proof.
  intros (Hle & Hnew & Hkeep) Ht0. split; [exact Hle|]. split.
  - intros t x Hx. apply lookup_delete_Some in Hx as [_ Hx]. by apply Hnew.
  - intros t x Hx Hn. rewrite lookup_delete_ne; [by apply Hkeep|].
    intros <-. by apply Hn, Ht0.
Qed.

Lemma timers_of_step_cancel (P : Timer -> Prop) n w next tm' h :
  timers_of_step n w next tm' ->
  handle_ok P w h ->
  (forall x, P x -> callback_node (callback x) = n) ->
  timers_of_step n w next (cancel h tm').
Proof.
  intros Hs Hh HP. destruct h as [t0|]; simpl; [|exact Hs].
  apply timers_of_step_delete; [exact Hs|].
  intros x Hx. apply HP. by apply (proj2 (Hh t0 eq_refl)).
Qed.

Lemma timers_of_step_insert n w next tm' x0 :
  (forall t x, timers w !! t = Some x -> (t < nextTimer w)%nat) ->
  timers_of_step n w next tm' ->
  timers_of_step n w (S next) (<[next := x0]> tm').
Proof.
  intros Hb (Hle & Hnew & Hkeep). split; [lia|]. split.
  - intros t x Hx. apply lookup_insert_Some in Hx as [[<- <-]|[Hne Hx]]; [right; lia|].
    destruct (Hnew t x Hx) as [?|?]; [by left|right; lia].
  - intros t x Hx Hn. specialize (Hb t x Hx).
    rewrite lookup_insert_ne by lia. by apply Hkeep.
Qed.

(** A handle the step did not write keeps its meaning. *)
Lemma handle_ok_keep (P : Timer -> Prop) n w w' h :
  timers_of_step n w (nextTimer w') (timers w') ->
  handle_ok P w h ->
  handle_ok P w' h.
Proof.
  intros (Hle & Hnew & _) Hh t Ht. destruct (Hh t Ht) as [Hlt Hkind].
  split; [lia|]. intros tm Htm.
  destruct (Hnew t tm Htm) as [Hold|Hrange]; [by apply Hkind|lia].
Qed.

Lemma handle_ok_None (P : Timer -> Prop) w : handle_ok P w None.
Proof. intros t Ht. discriminate Ht. Qed.

(** The handle of the timer the step has just created. *)
Lemma handle_ok_new (P : Timer -> Prop) w' t x :
  (t < nextTimer w')%nat ->
  timers w' !! t = Some x ->
  P x ->
  handle_ok P w' (Some t).
Proof.
  intros Hlt Hx HP t' [= <-]. split; [exact Hlt|].
  intros tm Htm. rewrite Hx in Htm. by injection Htm as <-.
Qed.

(** A step that acts on node [n] only. *)
Lemma engine_ok_update (n : string) (w w' : World) :
  engine_ok w ->
  running w' = true ->
  (forall k, k <> n -> get k (nodes w') = get k (nodes w)) ->
  timers_of_step n w (nextTimer w') (timers w') ->
  (forall node', get n (nodes w') = Some node' -> owned w' n node' /\ armed w' node') ->
  engine_ok w'.
Proof.
  intros (Hr & (Hb & Ho) & Ha) Hr' Hothers Hstep Hn.
  pose proof Hstep as (Hnext & Hnew & Hkeep).
  split; [exact Hr'|]. split; [split|].
  - intros t tm Ht. destruct (Hnew t tm Ht) as [Hold|Hrange]; [|lia].
    specialize (Hb t tm Hold). lia.
  - intros k node Hk. destruct (decide (k = n)) as [->|Hne]; [by apply Hn|].
    rewrite (Hothers k Hne) in Hk. destruct (Ho k node Hk) as [Hh Hc].
    split; by apply (handle_ok_keep _ n w).
  - intros k node Hk. destruct (decide (k = n)) as [->|Hne]; [by apply Hn|].
    rewrite (Hothers k Hne) in Hk. destruct (Ho k node Hk) as [Hh Hc].
    specialize (Ha k node Hk). unfold armed in *.
    destruct (status node); try done;
      destruct Ha as (t & tm & Ht & Htm); exists t, tm; (split; [done|]);
      apply Hkeep; try done.
    all: first [ destruct (Hc t Ht) as [_ Hkind];
                 rewrite (is_comp_node k tm (Hkind tm Htm)); done
               | destruct (Hh t Ht) as [_ Hkind];
                 rewrite (is_beat_node k tm (Hkind tm Htm)); done ].
Qed.

Lemma engine_ok_fields w w' :
  nodes w' = nodes w ->
  timers w' = timers w ->
  nextTimer w' = nextTimer w ->
  running w' = running w ->
  engine_ok w -> engine_ok w'.
Proof.
  intros Hn Ht Hx Hr.
  unfold engine_ok, handles_ok, owned, handle_ok, armed.
  by rewrite Hn, Ht, Hx, Hr.
Qed.

Lemma view_fields w w' :
  engine_view w' = engine_view w ->
  nodes w' = nodes w /\ timers w' = timers w /\ nextTimer w' = nextTimer w
  /\ running w' = running w.
Proof.
  unfold engine_view. intros Hv. injection Hv as Hn Ht Hx _ Hr _. by split_and!.
Qed.

Lemma get_mutate_Some k f m node' :
  get k (mutate k f m) = Some node' -> exists node, get k m = Some node /\ node' = f node.
Proof.
  rewrite get_mutate_eq. destruct (get k m) as [node|]; simpl; [|done].
  intros [= <-]. by exists node.
Qed.

(** The callback of a competition timer, run from [w] with the fired timer
    and possibly other timers of the node removed. *)
Lemma attempt_ok n o w tb :
  engine_ok w ->
  timers_of_step n w (nextTimer w) tb ->
  engine_ok (exec (competitionAttempt n o) (set_timers tb w)).
Proof.
  intros Hok Htb. pose proof Hok as (Hr & (Hb & Ho) & Ha).
  destruct (get n (nodes w)) as [node|] eqn:Hn; cycle 1.
  { assert (Hrun : exec (competitionAttempt n o) (set_timers tb w) = set_timers tb w).
    { unfold exec, competitionAttempt, node_of, bind, gets. simpl. by rewrite Hn. }
    rewrite Hrun. apply (engine_ok_update n w); try done.
    intros node'. simpl. by rewrite Hn. }
  destruct (Ho n node Hn) as [Hh Hc].
  destruct (decide (status node = crashed)) as [Hcr|Hcr].
  { assert (Hrun : exec (competitionAttempt n o) (set_timers tb w) = set_timers tb w).
    { unfold exec, competitionAttempt, node_of, bind, gets. simpl. rewrite Hn, Hr.
      by rewrite bool_decide_eq_true_2. }
    rewrite Hrun. apply (engine_ok_update n w); try done.
    intros node'. simpl. rewrite Hn. intros [= <-]. split.
    - split; by apply (handle_ok_keep _ n w).
    - unfold armed. by rewrite Hcr. }
  assert (Hsplit := competitionAttempt_split n o (set_timers tb w) node Hr Hn Hcr).
  unfold exec. rewrite Hsplit. clear Hsplit. unfold bind.
  destruct (tryAcquire_total (currentDatabase (set_timers tb w)) n (now1 o) (fault1 o)
              (fault2 o) (set_timers tb w)) as [b Hret].
  pose proof (tryAcquire_engine_view (currentDatabase (set_timers tb w)) n (now1 o)
                (fault1 o) (fault2 o) (set_timers tb w)) as Hview.
  revert Hret Hview.
  generalize (tryAcquire (currentDatabase (set_timers tb w)) n (now1 o) (fault1 o)
                (fault2 o) (set_timers tb w)).
  intros [r w1]. cbn [fst snd]. intros -> Hview.
  change (engine_ok (exec (attempt_continuation n b (now3 o)) w1)).
  apply view_fields in Hview as (Hn1 & Ht1 & Hx1 & Hr1).
  cbn [nodes timers nextTimer running set_timers] in Hn1, Ht1, Hx1, Hr1.
  assert (Hget1 : get n (nodes w1) = Some node) by (by rewrite Hn1).
  destruct b.
  - destruct (attempt_continuation_won n (now3 o) w1 node Hget1)
      as (Hnode & Htm & _ & _ & _ & _ & Hrun).
    assert (Hnext : nextTimer (exec (attempt_continuation n true (now3 o)) w1)
                    = S (nextTimer w)).
    { unfold exec, attempt_continuation, startHeartbeat. unfold_monad. simpl.
      rewrite !get_mutate_eq, Hget1. simpl. by rewrite Hx1. }
    assert (Hoth : forall k, k <> n ->
              get k (nodes (exec (attempt_continuation n true (now3 o)) w1))
              = get k (nodes w)).
    { intros k Hk. unfold exec, attempt_continuation, startHeartbeat. unfold_monad.
      simpl. rewrite !get_mutate_eq, Hget1. simpl.
      rewrite !get_mutate_ne by done. by rewrite Hn1. }
    revert Hnode Htm Hrun Hnext Hoth.
    generalize (exec (attempt_continuation n true (now3 o)) w1). intros w'.
    rewrite Ht1, Hx1, Hr1. intros Hnode Htm Hrun Hnext Hoth.
    assert (Hstep : timers_of_step n w (nextTimer w') (timers w')).
    { rewrite Hnext, Htm. by apply timers_of_step_insert. }
    apply (engine_ok_update n w);
      [exact Hok|congruence|exact Hoth|exact Hstep|].
    intros node'. rewrite Hnode. intros [= <-]. split.
    + split.
      * apply (handle_ok_new _ w' (nextTimer w)
                 (mkTimer (HeartbeatTick n) HEARTBEAT_INTERVAL true)); [lia| |done].
        rewrite Htm. apply lookup_insert_eq.
      * by apply (handle_ok_keep _ n w).
    + unfold armed, elected_node. simpl.
      eexists _, _. split; [done|]. rewrite Htm. apply lookup_insert_eq.
  - assert (Hfacts :
      nodes (exec (attempt_continuation n false (now3 o)) w1)
      = mutate n (with_competitionTimer (Some (nextTimer w)))
          (mutate n (with_status follower) (nodes w))
      /\ timers (exec (attempt_continuation n false (now3 o)) w1)
         = <[nextTimer w := mkTimer (CompetitionRetry n) RETRY_DELAY false]> tb
      /\ nextTimer (exec (attempt_continuation n false (now3 o)) w1) = S (nextTimer w)
      /\ running (exec (attempt_continuation n false (now3 o)) w1) = true).
    { unfold exec, attempt_continuation. unfold_monad. simpl.
      by rewrite Hn1, Ht1, Hx1, Hr1. }
    destruct Hfacts as (Hnodes & Htm & Hnext & Hrun).
    revert Hnodes Htm Hnext Hrun.
    generalize (exec (attempt_continuation n false (now3 o)) w1). intros w'.
    intros Hnodes Htm Hnext Hrun.
    assert (Hstep : timers_of_step n w (nextTimer w') (timers w')).
    { rewrite Hnext, Htm. by apply timers_of_step_insert. }
    apply (engine_ok_update n w); try done.
    { intros k Hk. rewrite Hnodes. by rewrite !get_mutate_ne. }
    intros node'. rewrite Hnodes, !get_mutate_eq, Hn. simpl. intros [= <-]. split.
    + split; simpl.
      * by apply (handle_ok_keep _ n w).
      * apply (handle_ok_new _ w' (nextTimer w)
                 (mkTimer (CompetitionRetry n) RETRY_DELAY false)); [lia| |].
        -- rewrite Htm. apply lookup_insert_eq.
        -- split; [done|by right].
    + unfold armed. simpl.
      eexists _, _. split; [done|]. rewrite Htm. apply lookup_insert_eq.
Qed.

Lemma retry_ok n j w tb :
  engine_ok w ->
  timers_of_step n w (nextTimer w) tb ->
  engine_ok (exec (competitionRetry n j) (set_timers tb w)).
Proof.
  intros Hok Htb. pose proof Hok as (Hr & (Hb & Ho) & Ha).
  destruct (get n (nodes w)) as [node|] eqn:Hn; cycle 1.
  { assert (Hrun : exec (competitionRetry n j) (set_timers tb w) = set_timers tb w).
    { unfold exec, competitionRetry, node_of, bind, gets. simpl. by rewrite Hn. }
    rewrite Hrun. apply (engine_ok_update n w); try done.
    intros node'. simpl. by rewrite Hn. }
  destruct (Ho n node Hn) as [Hh Hc].
  destruct (decide (status node = crashed)) as [Hcr|Hcr].
  { assert (Hrun : exec (competitionRetry n j) (set_timers tb w) = set_timers tb w).
    { unfold exec, competitionRetry, node_of, bind, gets. simpl. rewrite Hn, Hr.
      by rewrite bool_decide_eq_true_2. }
    rewrite Hrun. apply (engine_ok_update n w); try done.
    intros node'. simpl. rewrite Hn. intros [= <-]. split.
    - split; by apply (handle_ok_keep _ n w).
    - unfold armed. by rewrite Hcr. }
  unfold exec. rewrite (competitionRetry_run n j (set_timers tb w) node Hr Hn Hcr).
  cbn [snd]. unfold competing_world. cbn [nodes timers nextTimer set_timers set_broadcasts].
  apply (engine_ok_update n w); [exact Hok|exact Hr| | |].
  - intros k Hk. simpl. by rewrite get_mutate_ne.
  - simpl. by apply timers_of_step_insert.
  - intros node'. simpl. rewrite get_mutate_eq, Hn. simpl. intros [= <-]. split.
    + split; simpl.
      * apply (handle_ok_keep _ n w); [|exact Hh]. simpl.
        by apply timers_of_step_insert.
      * apply (handle_ok_new _ _ (nextTimer w)
                 (mkTimer (CompetitionAttempt n) j false)); simpl; [lia| |].
        -- apply lookup_insert_eq.
        -- split; [done|by left].
    + unfold armed. simpl. eexists _, _. split; [done|]. apply lookup_insert_eq.
Qed.

Lemma crash_ok n f w : engine_ok w -> engine_ok (exec (crashNode n f) w).
Proof.
  intros Hok. pose proof Hok as (Hr & (Hb & Ho) & Ha).
  destruct (get n (nodes w)) as [node|] eqn:Hn; cycle 1.
  { unfold exec. rewrite crashNode_skips; [done|by left]. }
  destruct (decide (status node = crashed)) as [Hcr|Hcr].
  { unfold exec. rewrite crashNode_skips; [done|]. right. by exists node. }
  destruct (Ho n node Hn) as [Hh Hc].
  assert (Hlocal : engine_ok (crash_local n node w)).
  { unfold crash_local.
    apply (engine_ok_update n w); [exact Hok|exact Hr| | |].
    - intros k Hk. simpl. by rewrite get_mutate_ne.
    - simpl.
      apply (timers_of_step_cancel (is_comp n)); [|exact Hc|apply is_comp_node].
      apply (timers_of_step_cancel (is_beat n)); [|exact Hh|apply is_beat_node].
      apply timers_of_step_refl.
    - intros node'. simpl. rewrite get_mutate_eq, Hn. simpl. intros [= <-]. split.
      + split; apply handle_ok_None.
      + by unfold armed. }
  unfold exec. rewrite (crashNode_run n f w node Hn Hcr).
  destruct (bool_decide (status node = leader)); [|exact Hlocal].
  unfold bind. destruct (release_effect (currentDatabase w) f (crash_local n node w))
    as (Hret & Hview & _).
  revert Hret Hview.
  generalize (release (currentDatabase w) f (crash_local n node w)). intros [r w1].
  cbn [fst snd]. intros -> Hview. unfold broadcast, modify. cbn [snd].
  apply view_fields in Hview as (Hn1 & Ht1 & Hx1 & Hr1).
  by apply (engine_ok_fields (crash_local n node w)).
Qed.

Lemma beat_ok n o w tb :
  engine_ok w ->
  timers_of_step n w (nextTimer w) tb ->
  (forall t x, timers w !! t = Some x -> is_beat n x \/ is_comp n x -> tb !! t = Some x) ->
  engine_ok (exec (heartbeatTick n o) (set_timers tb w)).
Proof.
  intros Hok Htb Hsurv. pose proof Hok as (Hr & (Hb & Ho) & Ha).
  destruct (get n (nodes w)) as [node|] eqn:Hn; cycle 1.
  { assert (Hrun : exec (heartbeatTick n o) (set_timers tb w) = set_timers tb w).
    { unfold exec, heartbeatTick, node_of, bind, gets. simpl. by rewrite Hn. }
    rewrite Hrun. apply (engine_ok_update n w); try done.
    intros node'. simpl. by rewrite Hn. }
  destruct (Ho n node Hn) as [Hh Hc]. specialize (Ha n node Hn).
  destruct (decide (status node = leader)) as [Hl|Hl]; cycle 1.
  { (* the guard: the interval is cleared and nothing else happens *)
    assert (Hrun : exec (heartbeatTick n o) (set_timers tb w)
                   = set_timers (cancel (heartbeatTimer node) tb) w).
    { unfold exec, heartbeatTick, node_of, bind, gets. simpl. rewrite Hn, Hr.
      rewrite (bool_decide_eq_false_2 (status node = leader)) by done.
      rewrite orb_true_r. simpl. unfold clearTimer, modify, ret.
      destruct (heartbeatTimer node); [done|]. simpl.
      unfold set_timers. simpl. by destruct w. }
    rewrite Hrun.
    assert (Hstep : timers_of_step n w (nextTimer w) (cancel (heartbeatTimer node) tb)).
    { by apply (timers_of_step_cancel (is_beat n)); [| |apply is_beat_node]. }
    apply (engine_ok_update n w); [exact Hok|exact Hr|done|exact Hstep|].
    intros node'. simpl. rewrite Hn. intros [= <-]. split.
    - split; by apply (handle_ok_keep _ n w).
    - unfold armed in *. destruct (status node) eqn:Hs; try done;
        destruct Ha as (t & x & Ht & Hx); exists t, x; (split; [done|]); simpl;
        rewrite cancel_lookup;
        (case_decide as Heq;
         [ exfalso; destruct (Hh t Heq) as [_ Hkind];
           destruct (Hc t Ht) as [_ Hkind'];
           exact (is_beat_comp n n x (Hkind x Hx) (Hkind' x Hx))
         | apply Hsurv; [done|right; by apply (proj2 (Hc t Ht))] ]). }
  assert (Hcr : status node <> crashed) by (rewrite Hl; discriminate).
  destruct (renew_total (currentDatabase (set_timers tb w)) n (now1 o) (now2 o)
              (fault1 o) (fault2 o) (set_timers tb w)) as [b Hret].
  pose proof (renew_engine_view (currentDatabase (set_timers tb w)) n (now1 o) (now2 o)
                (fault1 o) (fault2 o) (set_timers tb w)) as Hview.
  apply view_fields in Hview as (Hn1 & Ht1 & Hx1 & Hr1).
  cbn [nodes timers nextTimer running set_timers] in Hn1, Ht1, Hx1, Hr1.
  destruct b.
  - (* renewed: only the lease field changes *)
    assert (Hfacts :
      nodes (exec (heartbeatTick n o) (set_timers tb w))
      = mutate n (with_lease (Some (now3 o + LEASE_DURATION)%Z)) (nodes w)
      /\ timers (exec (heartbeatTick n o) (set_timers tb w)) = tb
      /\ nextTimer (exec (heartbeatTick n o) (set_timers tb w)) = nextTimer w
      /\ running (exec (heartbeatTick n o) (set_timers tb w)) = true).
    { unfold exec, heartbeatTick, node_of, field, bind, gets. simpl. rewrite Hn, Hr.
      rewrite (bool_decide_eq_false_2 (status node = crashed)) by done.
      rewrite (bool_decide_eq_true_2 (status node = leader)) by done. simpl.
      change (currentDatabase (set_timers tb w)) with (currentDatabase w) in *.
      revert Hret Hn1 Ht1 Hx1 Hr1.
      generalize (renew (currentDatabase w) n (now1 o) (now2 o) (fault1 o) (fault2 o)
                    (set_timers tb w)).
      intros [r w1]. cbn [fst snd]. intros -> Hn1 Ht1 Hx1 Hr1.
      unfold mutate_node, broadcast, modify. simpl.
      by rewrite Hn1, Ht1, Hx1, Hr1. }
    destruct Hfacts as (Hnodes & Htm & Hnext & Hrun).
    revert Hnodes Htm Hnext Hrun.
    generalize (exec (heartbeatTick n o) (set_timers tb w)). intros w'.
    intros Hnodes Htm Hnext Hrun.
    assert (Hstep : timers_of_step n w (nextTimer w') (timers w'))
      by (by rewrite Hnext, Htm).
    apply (engine_ok_update n w); [exact Hok|exact Hrun| |exact Hstep|].
    { intros k Hk. rewrite Hnodes. by rewrite get_mutate_ne. }
    intros node'. rewrite Hnodes, get_mutate_eq, Hn. simpl. intros [= <-]. split.
    + split; by apply (handle_ok_keep _ n w).
    + unfold armed in *. simpl. rewrite Hl in *.
      destruct Ha as (t & x & Ht & Hx). exists t, x. split; [done|].
      rewrite Htm. apply Hsurv; [done|]. left. by apply (proj2 (Hh t Ht)).
  - (* not renewed: the node is demoted and competes again *)
    assert (Hfacts :
      nodes (exec (heartbeatTick n o) (set_timers tb w))
      = mutate n (competing_node (nextTimer w)) (mutate n demoted_node (nodes w))
      /\ timers (exec (heartbeatTick n o) (set_timers tb w))
         = <[nextTimer w := mkTimer (CompetitionAttempt n) (jitter o) false]>
             (cancel (heartbeatTimer node) tb)
      /\ nextTimer (exec (heartbeatTick n o) (set_timers tb w)) = S (nextTimer w)
      /\ running (exec (heartbeatTick n o) (set_timers tb w)) = true).
    { unfold exec.
      rewrite (heartbeatTick_not_renewed n o (set_timers tb w) node Hr Hn Hl Hret).
      revert Hn1 Ht1 Hx1 Hr1.
      generalize (snd (renew (currentDatabase (set_timers tb w)) n (now1 o) (now2 o)
                         (fault1 o) (fault2 o) (set_timers tb w))).
      intros w1 Hn1 Ht1 Hx1 Hr1.
      rewrite (startNodeCompetition_run n (jitter o) (demoted n node w1)
                 (demoted_node node)).
      - unfold competing_world, demoted. simpl. by rewrite Hn1, Ht1, Hx1, Hr1.
      - unfold demoted. simpl. by rewrite get_mutate_eq, Hn1, Hn.
      - discriminate. }
    destruct Hfacts as (Hnodes & Htm & Hnext & Hrun).
    revert Hnodes Htm Hnext Hrun.
    generalize (exec (heartbeatTick n o) (set_timers tb w)). intros w'.
    intros Hnodes Htm Hnext Hrun.
    assert (Hstep : timers_of_step n w (nextTimer w') (timers w')).
    { rewrite Hnext, Htm. apply timers_of_step_insert; [exact Hb|].
      by apply (timers_of_step_cancel (is_beat n)); [| |apply is_beat_node]. }
    apply (engine_ok_update n w); [exact Hok|exact Hrun| |exact Hstep|].
    { intros k Hk. rewrite Hnodes. by rewrite !get_mutate_ne. }
    intros node'. rewrite Hnodes, !get_mutate_eq, Hn. simpl. intros [= <-]. split.
    + split; simpl.
      * apply handle_ok_None.
      * apply (handle_ok_new _ w' (nextTimer w)
                 (mkTimer (CompetitionAttempt n) (jitter o) false)); [lia| |].
        -- rewrite Htm. apply lookup_insert_eq.
        -- split; [done|by left].
    + unfold armed. simpl. eexists _, _. split; [done|].
      rewrite Htm. apply lookup_insert_eq.
Qed.

Lemma set_timers_self w : set_timers (timers w) w = w.
Proof. by destruct w. Qed.

Lemma fire_ok t o w : engine_ok w -> engine_ok (exec (fire t o) w).
Proof.
  intros Hok. pose proof Hok as (Hr & (Hb & Ho) & Ha).
  destruct (timers w !! t) as [timer|] eqn:Ht; cycle 1.
  { assert (Hrun : exec (fire t o) w = w).
    { unfold exec, fire, bind, gets. by rewrite Ht. }
    by rewrite Hrun. }
  unfold exec. rewrite (fire_run t o w timer Ht).
  set (tb := if repeats timer then timers w else delete t (timers w)).
  assert (Hw0 : (if repeats timer then w else set_timers (delete t (timers w)) w)
                = set_timers tb w).
  { subst tb. destruct (repeats timer); [by rewrite set_timers_self|done]. }
  rewrite Hw0.
  assert (Hstep : timers_of_step (callback_node (callback timer)) w (nextTimer w) tb).
  { subst tb. destruct (repeats timer); [apply timers_of_step_refl|].
    apply timers_of_step_delete; [apply timers_of_step_refl|].
    intros x Hx. rewrite Ht in Hx. by injection Hx as <-. }
  destruct (callback timer) as [n|n|n] eqn:Hcb; simpl in Hstep.
  - by apply attempt_ok.
  - by apply retry_ok.
  - apply beat_ok; [exact Hok|exact Hstep|].
    intros t' x Hx Hkind. subst tb. destruct (repeats timer) eqn:Hrep; [exact Hx|].
    rewrite lookup_delete_ne; [exact Hx|].
    intros <-. rewrite Ht in Hx. injection Hx as <-.
    destruct Hkind as [[_ Hbeat]|[_ [Hcomp|Hcomp]]]; congruence.
Qed.

(** X18.  While an election runs, a timer callback or a crash never
    strands a node.  If every node that is not crashed holds the pending
    timer its status calls for (a leader its heartbeat interval, any
    other node a one-shot attempt or retry timer), and the handles stored
    in the nodes are theirs, then the same holds after any timer has fired,
    whatever the backend answered, and after any node was crashed. *)
Theorem events_strand_no_node (i : Input) (w : World) :
  is_event i ->
  engine_ok w ->
  engine_ok (exec (step i) w).
Proof.
  intros Hi Hok. destruct i; try done; simpl.
  - by apply crash_ok.
  - by apply fire_ok.
Qed.

Lemma start_nodes_timers (j : nat -> Z) (ns : list (string * Node)) :
  forall (i : nat) (w : World),
  (forall t x, timers w !! t = Some x -> (t < nextTimer w)%nat) ->
  let w' := snd (start_nodes ns i j w) in
  (nextTimer w <= nextTimer w')%nat
  /\ (forall t x, timers w' !! t = Some x ->
        timers w !! t = Some x \/ (nextTimer w <= t < nextTimer w')%nat)
  /\ (forall t x, timers w !! t = Some x -> timers w' !! t = Some x).
Proof.
  induction ns as [|[n node0] ns IH]; intros i w Hb; cbv zeta.
  - simpl. unfold ret. simpl. split; [lia|]. split; [by left|done].
  - rewrite start_nodes_cons.
    destruct (get n (nodes w)) as [node|] eqn:Hn; [|by apply IH].
    case_decide as Hc; [by apply IH|].
    rewrite (startNodeCompetition_run n (j i) w node Hn Hc). cbn [snd].
    destruct (IH (S i) (competing_world n (j i) w)) as (Hle & Hnew & Hkeep).
    { unfold competing_world. simpl. intros t x Hx.
      apply lookup_insert_Some in Hx as [[<- _]|[_ Hx]]; [lia|].
      specialize (Hb t x Hx). lia. }
    revert Hle Hnew Hkeep.
    generalize (snd (start_nodes ns (S i) j (competing_world n (j i) w))).
    intros w'. unfold competing_world. simpl. intros Hle Hnew Hkeep.
    split; [lia|]. split.
    + intros t x Hx. destruct (Hnew t x Hx) as [Hold|Hrange]; [|right; lia].
      apply lookup_insert_Some in Hold as [[<- _]|[_ Hold]]; [right; lia|by left].
    + intros t x Hx. apply Hkeep. specialize (Hb t x Hx).
      rewrite lookup_insert_ne by lia. exact Hx.
Qed.

Lemma startElection_engine_ok database so w :
  running w = false ->
  suspended w = [] ->
  NoDup (nodes w).*1 ->
  connect_fault so = Completes ->
  clear_fault so = Completes ->
  handles_ok w ->
  engine_ok (exec (startElection database so) w).
Proof.
  intros Hr Hs Hnd Hc Hd (Hb & Ho). unfold exec.
  pose (w2 := set_broadcasts
                (broadcasts w ++ [ElectionStarted database])
                (cleared database (set_running true (set_currentDatabase database w)))).
  assert (Hnodes : nodes w2 = nodes w) by (by destruct database).
  assert (Htimers : timers w2 = timers w) by (by destruct database).
  assert (Hnext : nextTimer w2 = nextTimer w) by (by destruct database).
  assert (Hrun2 : running w2 = true) by (by destruct database).
  assert (Hrun : startElection database so w
                 = start_nodes (nodes w) 0 (jitters so) w2).
  { rewrite startElection_run. unfold restarting. rewrite Hr.
    unfold bind at 1. rewrite init_completes by done.
    unfold bind, broadcast, modify, gets. cbn [fst snd].
    by destruct database. }
  rewrite Hrun. clear Hrun.
  destruct (start_nodes_spec (jitters so) (nodes w) 0 w2 Hnd)
    as (_ & _ & _ & Hkeys & Hsame & Hidx & _ & Hconn).
  destruct (start_nodes_timers (jitters so) (nodes w) 0 w2) as (Hle & Hnew & Hkeep).
  { rewrite Htimers, Hnext. exact Hb. }
  rewrite (live_among_ext w w2 (nodes w).*1) in Hsame, Hidx
    by (intros k _; by rewrite Hnodes).
  apply same_connections_fields in Hconn as (Frun & _).
  clearbody w2.
  revert Hkeys Hsame Hidx Hle Hnew Hkeep Frun.
  generalize (snd (start_nodes (nodes w) 0 (jitters so) w2)). intros w'.
  rewrite Hnodes, Htimers, Hnext, Hrun2.
  intros Hkeys Hsame Hidx Hle Hnew Hkeep Frun.
  assert (Hstep : forall n, timers_of_step n w (nextTimer w') (timers w')).
  { intros n. split; [exact Hle|]. split; [exact Hnew|].
    intros t x Hx _. by apply Hkeep. }
  assert (Hnode : forall k node',
            get k (nodes w') = Some node' -> owned w' k node' /\ armed w' node').
  { intros k node' Hk.
    destruct (decide (k ∈ live_among w (nodes w).*1)) as [Hin|Hin].
    - apply list_elem_of_lookup_1 in Hin as Hp. destruct Hp as [p Hp].
      unfold live_among in Hin. apply list_elem_of_filter in Hin as [Hlive _].
      unfold is_live in Hlive.
      destruct (get k (nodes w)) as [node|] eqn:Hget; [|discriminate].
      destruct (Hidx p k node Hp Hget) as [Hk' Htm].
      rewrite Hk in Hk'. injection Hk' as ->.
      destruct (Ho k node Hget) as [Hh Hct].
      assert (Hlt : (nextTimer w + p < nextTimer w')%nat).
      { destruct (Hnew _ _ Htm) as [Hold|Hrange]; [|lia].
        specialize (Hb _ _ Hold). lia. }
      split.
      + split; simpl.
        * by apply (handle_ok_keep _ k w).
        * apply (handle_ok_new _ w' _ _ Hlt Htm). split; [done|by left].
      + unfold armed. simpl. by eexists _, _.
    - rewrite (Hsame k Hin) in Hk.
      destruct (Ho k node' Hk) as [Hh Hct].
      split; [split; by apply (handle_ok_keep _ k w)|].
      assert (Hcr : status node' = crashed).
      { destruct (decide (status node' = crashed)) as [|Hne]; [done|].
        exfalso. apply Hin. unfold live_among. apply list_elem_of_filter. split.
        - unfold is_live. rewrite Hk. by rewrite bool_decide_eq_false_2.
        - by apply (get_Some_key k (nodes w) node'). }
      unfold armed. by rewrite Hcr. }
  split; [congruence|]. split; [split|].
  - intros t x Hx. destruct (Hnew t x Hx) as [Hold|Hrange]; [|lia].
    specialize (Hb t x Hold). lia.
  - intros k node' Hk. by apply Hnode.
  - intros k node' Hk. by apply (Hnode k).
Qed.

Lemma initial_handles_ok m r : handles_ok (initial m r).
Proof.
  split.
  - intros t x Hx. change (timers (initial m r)) with (∅ : gmap nat Timer) in Hx.
    by rewrite lookup_empty in Hx.
  - intros k node Hk.
    assert (Hnone : heartbeatTimer node = None /\ competitionTimer node = None).
    { change (nodes (initial m r)) with
        (fresh_node <$> ["node-1"; "node-2"; "node-3"; "node-4"; "node-5"]) in Hk.
      simpl in Hk. repeat case_decide; try discriminate;
        injection Hk as <-; by split. }
    destruct Hnone as [H1 H2]. unfold owned. rewrite H1, H2.
    split; apply handle_ok_None.
Qed.

Lemma events_strand_no_node_witness :
  engine_ok (exec (step (Fire 0 wins_at_0))
               (exec (startElection redis prompt) (initial ∅ ∅))).
Proof.
  apply (events_strand_no_node (Fire 0 wins_at_0)); [exact I|].
  apply startElection_engine_ok; try reflexivity.
  - vm_compute. repeat constructor; vm_compute; intros H;
      repeat (apply elem_of_cons in H as [H|H]; [discriminate H|]);
      by apply elem_of_nil in H.
  - apply initial_handles_ok.
Defined.

(** X19.  An election that started undisturbed never strands a node.
    From a stopped engine whose nodes own their handles, [startElection]
    with the connection opened and the old record cleared leaves every
    node that is not crashed competing with its attempt timer armed; and
    after any sequence of timer expiries and node crashes that follows,
    whatever the backend answers or fails to answer, every node that is
    not crashed still holds the pending timer its status calls for. *)
Theorem no_node_is_stranded
    (database : Database) (so : StartOracle) (trace : list Input) (w : World) :
  running w = false ->
  suspended w = [] ->
  NoDup (nodes w).*1 ->
  connect_fault so = Completes ->
  clear_fault so = Completes ->
  handles_ok w ->
  Forall is_event trace ->
  let w' := run (StartElection database so :: trace) w in
  running w' = true
  /\ forall k node, get k (nodes w') = Some node ->
       match status node with
       | crashed => True
       | leader =>
           exists t tm, heartbeatTimer node = Some t /\ timers w' !! t = Some tm
                        /\ is_beat k tm
       | _ =>
           exists t tm, competitionTimer node = Some t /\ timers w' !! t = Some tm
                        /\ is_comp k tm
       end.
Proof.
  intros Hr Hs Hnd Hc Hd Hh Htrace. cbv zeta.
  assert (Hok : engine_ok (run (StartElection database so :: trace) w)).
  { unfold run. simpl.
    pose proof (startElection_engine_ok database so w Hr Hs Hnd Hc Hd Hh) as Hstart.
    revert Hstart. generalize (exec (startElection database so) w).
    induction Htrace as [|i trace Hi _ IH]; intros w0 Hok; simpl; [exact Hok|].
    apply IH. destruct i; try done; simpl.
    - by apply crash_ok.
    - by apply fire_ok. }
  destruct Hok as (Hrun & (_ & Ho) & Ha).
  split; [exact Hrun|].
  intros k node Hk. specialize (Ha k node Hk). destruct (Ho k node Hk) as [Hb Hct].
  unfold armed in Ha.
  destruct (status node); try done;
    destruct Ha as (t & tm & Ht & Htm); exists t, tm; (split; [done|]);
    (split; [done|]).
  all: first [ by apply (proj2 (Hct t Ht)) | by apply (proj2 (Hb t Ht)) ].
Qed.

Lemma no_node_is_stranded_witness :
  running (run (StartElection redis prompt
                  :: [Fire 0 wins_at_0; CrashNode "node-2" Completes; Fire 5 tick_at_21000])
             (initial ∅ ∅)) = true.
Proof.
  refine (proj1 (no_node_is_stranded redis prompt
                   [Fire 0 wins_at_0; CrashNode "node-2" Completes; Fire 5 tick_at_21000]
                   (initial ∅ ∅) _ _ _ _ _ _ _)); try reflexivity.
  - vm_compute. repeat constructor; vm_compute; intros H;
      repeat (apply elem_of_cons in H as [H|H]; [discriminate H|]);
      by apply elem_of_nil in H.
  - apply initial_handles_ok.
  - repeat constructor.
Defined.

(** ** The connected clients *)

Lemma clients_after_snoc ops op :
  clients_after (ops ++ [op]) = client_step (clients_after ops) op.
Proof. unfold clients_after. by rewrite foldl_app. Qed.

Lemma is_connected_snoc ops op ws :
  is_connected (ops ++ [op]) ws =
    match op with
    | Connected c => if decide (c = ws) then true else is_connected ops ws
    | Closed c => if decide (c = ws) then false else is_connected ops ws
    end.
Proof. unfold is_connected. by rewrite foldl_app. Qed.

Lemma clients_after_spec ops :
  NoDup (clients_after ops)
  /\ forall ws, ws ∈ clients_after ops <-> is_connected ops ws = true.
Proof.
  induction ops as [|op ops [Hnd Hin]] using rev_ind.
  - split; [constructor|]. intros ws. split; [by intros ?%elem_of_nil|done].
  - rewrite clients_after_snoc. split.
    + destruct op as [c|c]; simpl.
      * unfold addClient. case_decide as Hc; [done|].
        apply NoDup_app. split; [done|]. split; [|apply NoDup_singleton].
        intros x Hx Hx'. apply list_elem_of_singleton in Hx'. by subst.
      * unfold removeClient. by apply NoDup_filter.
    + intros ws. rewrite is_connected_snoc. destruct op as [c|c]; simpl.
      * unfold addClient. destruct (decide (c = ws)) as [->|Hne].
        -- split; [done|]. intros _. case_decide; [done|].
           apply elem_of_app. right. by apply list_elem_of_singleton.
        -- rewrite <- (Hin ws). case_decide; [done|].
           rewrite elem_of_app, list_elem_of_singleton.
           split; [intros [?|?]; [done|congruence]|by left].
      * unfold removeClient. rewrite list_elem_of_filter.
        destruct (decide (c = ws)) as [->|Hne].
        -- split; [by intros [? _]|discriminate].
        -- rewrite <- (Hin ws).
           split; [by intros [_ ?]|intros ?; split; [congruence|done]].
Qed.

Lemma sends_to is_open data clients ws :
  NoDup clients ->
  filter (fun m => m.1 = ws) (sends is_open data clients)
  = if decide (ws ∈ clients) then if is_open ws then [(ws, data)] else [] else [].
Proof.
  unfold sends. induction clients as [|c clients IH]; intros Hnd.
  - by rewrite decide_False by apply not_elem_of_nil.
  - apply NoDup_cons in Hnd as [Hc Hnd]. specialize (IH Hnd).
    destruct (decide (c = ws)) as [->|Hne].
    + rewrite decide_False in IH by done.
      rewrite decide_True by left.
      destruct (is_open ws) eqn:Ho.
      * rewrite filter_cons_True by done. csimpl.
        rewrite filter_cons_True by done. by rewrite IH.
      * rewrite filter_cons_False by congruence. exact IH.
    + assert (Hiff : (if decide (ws ∈ c :: clients)
                      then if is_open ws then [(ws, data)] else [] else [])
                     = (if decide (ws ∈ clients)
                        then if is_open ws then [(ws, data)] else [] else [])).
      { destruct (decide (ws ∈ clients)) as [Hin|Hin].
        - by rewrite decide_True by (by right).
        - rewrite decide_False; [done|].
          intros [?|?]%elem_of_cons; [congruence|done]. }
      rewrite Hiff.
      destruct (is_open c) eqn:Ho.
      * rewrite filter_cons_True by done. csimpl.
        rewrite filter_cons_False by done. exact IH.
      * rewrite filter_cons_False by congruence. exact IH.
Qed.

(** X20.  [addClient], [removeClient] and [broadcast].  Whatever sockets
    connected and closed, in whatever order and however often, a
    broadcast sends its message exactly once to every socket whose last
    event was a connection and whose [readyState] is OPEN, and sends
    nothing to any other socket: a socket that connected twice is not
    served twice, a socket that closed is not served, and a socket that
    is registered but not OPEN is skipped and stays registered. *)
Theorem broadcast_reaches_open_clients
    (ops : list ClientOp) (is_open : nat -> bool) (data : Event) (ws : nat) :
  filter (fun m => m.1 = ws) (sends is_open data (clients_after ops))
  = (if is_connected ops ws && is_open ws then [(ws, data)] else [])
  /\ (is_connected ops ws = true -> ws ∈ clients_after ops).
Proof.
  destruct (clients_after_spec ops) as [Hnd Hin].
  split; [|apply Hin].
  rewrite (sends_to is_open data _ ws Hnd).
  destruct (is_connected ops ws) eqn:Hc.
  - rewrite decide_True by (by apply Hin). done.
  - rewrite decide_False; [done|]. intros Hws%Hin. congruence.
Qed.

(** ** Restarting on Redis *)

Lemma resume_keeps_redis_null w :
  redisClient w = None -> redisClient (snd (resume w)) = None.
Proof.
  intros Hrc. unfold resume, resume_stop, stop_redis_begin. unfold_monad. simpl.
  destruct (suspended w) as [|[] rest]; simpl; rewrite ?Hrc; done.
Qed.

Lemma resume_n_keeps_redis_null n w :
  redisClient w = None -> redisClient (snd (resume_n n w)) = None.
Proof.
  revert w. induction n as [|n IH]; intros w Hrc; [done|].
  rewrite resume_n_S. apply IH. by apply resume_keeps_redis_null.
Qed.

Lemma resume_n_nulls_redis n rest w :
  suspended w = StopAfterRedisQuit :: rest ->
  fst (resume_n (S n) w) = Returns tt
  /\ same_engine w (snd (resume_n (S n) w))
  /\ redisClient (snd (resume_n (S n) w)) = None.
Proof.
  intros Hs. rewrite resume_n_S.
  assert (H1 : same_engine w (snd (resume w)) /\ redisClient (snd (resume w)) = None).
  { unfold resume, resume_stop. unfold_monad. simpl. rewrite Hs. simpl. by split. }
  destruct H1 as (He & Hrc).
  destruct (resume_n_frame n (snd (resume w))) as (Hr' & He' & _).
  split; [exact Hr'|].
  split; [exact (same_engine_trans _ _ _ He He')|].
  by apply resume_n_keeps_redis_null.
Qed.

Lemma initRedis_nulled so w m rest :
  suspended w = StopAfterRedisQuit :: rest ->
  connect_fault so = Completes ->
  resumed_in_connect so = S m ->
  initRedis so w = (Throws typeError, connecting redis so w)
  /\ redisClient (connecting redis so w) = None.
Proof.
  intros Hs Hc Hm. unfold connecting. rewrite Hm.
  destruct (resume_n_nulls_redis m rest
              (set_calls (calls w ++ [Sent RedisConnect])
                 (set_redisClient (Some RedisClientHandle) w)) Hs)
    as (Hr & _ & Hrc).
  split; [|exact Hrc].
  unfold initRedis. unfold bind at 1. unfold modify at 1.
  unfold bind at 1. unfold record_call, modify at 1.
  unfold bind at 1. cbn [calls set_redisClient]. rewrite Hm.
  revert Hr Hrc. generalize (resume_n (S m)
    (set_calls (calls w ++ [Sent RedisConnect])
       (set_redisClient (Some RedisClientHandle) w))).
  intros [r w1]. cbn [fst snd]. intros -> Hrc.
  unfold bind at 1. rewrite Hc. unfold reply, ret.
  unfold bind at 1. unfold gets. by rewrite Hrc.
Qed.

(** X21.  The restart hazard on Redis.  [startElection('redis')] on an
    engine that is running on Redis sends QUIT on the old client and goes
    on without waiting.  When the QUIT is answered while the new
    connection is being opened, the continuation of [stopElection] sets
    [redisClient] to null, and [initRedis] then fails on
    [this.redisClient.del]: the method throws a TypeError, the key of the
    previous election is not deleted, no election-started event is
    broadcast, and the engine is left marked as running without a
    client. *)
Theorem restart_on_redis_loses_the_client
    (so : StartOracle) (w : World) (h : RedisClient) (m : nat) :
  running w = true ->
  mongoClient w = None ->
  redisClient w = Some h ->
  suspended w = [] ->
  connect_fault so = Completes ->
  resumed_in_connect so = S m ->
  let w' := exec (startElection redis so) w in
  fst (startElection redis so w) = Throws typeError
  /\ running w' = true
  /\ redisClient w' = None
  /\ broadcasts w' = broadcasts w
  /\ redisServer w' = redisServer w
  /\ nextTimer w' = nextTimer w.
Proof.
  intros Hr Hmc Hrc Hs Hc Hm. cbv zeta. unfold exec.
  destruct (restarting_frame redis w)
    as (Hrun & _ & Hb & Hn & _ & Hrs & _ & _ & _ & _ & _ & _ & _ & _ & Hsusp & _).
  rewrite Hr, Hs in Hsusp. unfold first_close in Hsusp. rewrite Hmc, Hrc in Hsusp.
  simpl in Hsusp.
  destruct (initRedis_nulled so (restarting redis w) m [] Hsusp Hc Hm)
    as (Hinit & Hnull).
  assert (Hstart : startElection redis so w
                   = (Throws typeError, connecting redis so (restarting redis w))).
  { rewrite startElection_run. unfold bind at 1. by rewrite Hinit. }
  rewrite Hstart. cbn [fst snd].
  destruct (same_engine_fields _ _ (connecting_frame redis so (restarting redis w)))
    as (_ & _ & Hnext & Hbc & Hrun' & _ & _ & Hrs').
  split_and!; congruence.
Qed.

Lemma restart_on_redis_loses_the_client_witness :
  fst (startElection redis quit_answered (run elected_on_redis (initial ∅ ∅)))
  = Throws typeError.
Proof.
  refine (proj1 (restart_on_redis_loses_the_client quit_answered
                   (run elected_on_redis (initial ∅ ∅)) RedisClientHandle 0
                   _ _ _ _ _ _)); vm_compute; reflexivity.
Defined.

(** ** C9: the commands without a connection *)





